(** * Pharmacy claims service: claim validation, submission, reversal and
      the bulk loader, embedded from the Go sources.

    The development follows the package layout of the repository:
    [strconv], [strings] and [uuid] hold the few library functions the
    program relies on, [models] the data types, [utility] the validator,
    [repository] the access to PostgreSQL together with the schema of
    [migrations/000001_init.up.sql], [core] the audit logger, [service] the
    claims service and the loader, [handlers] the HTTP boundary.

    Go values are represented as follows.
    - [string] is a byte string; [len] is [String.length].
    - [int] is [Z] (the program runs on a 64-bit platform; no arithmetic of
      the modelled code comes near the bounds).
    - [float64] is [spec_float]; comparisons are those of IEEE 754
      ([SFleb], [SFltb]), so a NaN compares false with everything.
    - [uuid.UUID] (16 bytes) is the 128-bit number the bytes spell in
      big-endian order; [uuid.Nil] is [0].
    - [error] is [option string]: [None] is [nil], [Some msg] an error
      whose [Error()] text is [msg].
    - a function with side effects is a state transformer over [World].

    What the program gets from outside is part of the world or a
    parameter: the outcome of every database round trip and of every file
    creation of the logger, the random bytes of [uuid.New], the clock, the
    file system the loader reads, [encoding/json], [filepath.Join] and
    [filepath.Base], and the order in which the workers of the loader
    deliver their results.  Requests are served one after the other. *)

From Stdlib Require Import ZArith NArith List String Ascii Bool Lia.
From Stdlib Require Import Permutation.
From Stdlib Require Import SpecFloat DecimalString.
Import ListNotations.

Open Scope string_scope.
Open Scope Z_scope.

Definition error := option string.
Definition float64 := spec_float.

(** ** strconv *)

Module strconv.

Inductive NumError := ErrSyntax | ErrRange.

Definition byte_val (c : ascii) : Z := Z.of_N (N_of_ascii c).

(** [ch -= '0'] on a byte wraps around modulo 256. *)
Definition digit_val (c : ascii) : Z := (byte_val c - 48) mod 256.

(** The loop of the fast path and of [ParseUint] in base 10: [None] as
    soon as a byte is not a decimal digit. *)
Fixpoint digits (s : string) (n : Z) : option Z :=
  match s with
  | EmptyString => Some n
  | String ch s' =>
      let d := digit_val ch in
      if 9 <? d then None else digits s' (n * 10 + d)
  end.

Definition is_sign (c : ascii) : bool :=
  (byte_val c =? 45) || (byte_val c =? 43).

Definition is_minus (c : ascii) : bool := byte_val c =? 45.

Definition maxInt64 : Z := 2 ^ 63 - 1.
Definition minInt64 : Z := - 2 ^ 63.

(** [ParseInt(s, 10, 0)] with 64-bit [int]: an optional sign, at least
    one digit, no underscore (the base is given), and the range check. *)
Definition ParseInt10 (s : string) : Z * option NumError :=
  match s with
  | EmptyString => (0, Some ErrSyntax)
  | String c rest =>
      let body := if is_sign c then rest else s in
      match body with
      | EmptyString => (0, Some ErrSyntax)
      | _ =>
          match digits body 0 with
          | None => (0, Some ErrSyntax)
          | Some un =>
              if is_minus c then
                if 2 ^ 63 <? un then (minInt64, Some ErrRange)
                else (- un, None)
              else
                if 2 ^ 63 <=? un then (maxInt64, Some ErrRange)
                else (un, None)
          end
      end
  end.

(** [Atoi]: strings of 1 to 18 bytes take the fast path, the others go
    through [ParseInt]. *)
Definition Atoi (s : string) : Z * option NumError :=
  let sLen := Z.of_nat (String.length s) in
  if (0 <? sLen) && (sLen <? 19) then
    match s with
    | EmptyString => (0, Some ErrSyntax)
    | String c rest =>
        let body := if is_sign c then rest else s in
        match body with
        | EmptyString => (0, Some ErrSyntax)
        | _ =>
            match digits body 0 with
            | None => (0, Some ErrSyntax)
            | Some n => (if is_minus c then - n else n, None)
            end
        end
    end
  else ParseInt10 s.

End strconv.

(** ** strings *)

Module strings.

Definition bytes (l : list N) : string :=
  fold_right (fun n s => String (ascii_of_N n) s) EmptyString l.

(** The UTF-8 encodings of the white space of [unicode.IsSpace]: the six
    ASCII ones, U+0085, U+00A0, U+1680, U+2000 to U+200A, U+2028, U+2029,
    U+202F, U+205F and U+3000. *)
Definition spaces : list string :=
  map bytes
    [[9]; [10]; [11]; [12]; [13]; [32]; [194; 133]; [194; 160];
     [225; 154; 128];
     [226; 128; 128]; [226; 128; 129]; [226; 128; 130]; [226; 128; 131];
     [226; 128; 132]; [226; 128; 133]; [226; 128; 134]; [226; 128; 135];
     [226; 128; 136]; [226; 128; 137]; [226; 128; 138];
     [226; 128; 168]; [226; 128; 169]; [226; 128; 175];
     [226; 129; 159]; [227; 128; 128]]%N.

Fixpoint rev_string (s : string) (acc : string) : string :=
  match s with
  | EmptyString => acc
  | String c s' => rev_string s' (String c acc)
  end.

Definition reverse (s : string) : string := rev_string s EmptyString.

(** The length of the first of [pats] that [s] starts with, 0 if none. *)
Fixpoint prefix_length (pats : list string) (s : string) : nat :=
  match pats with
  | [] => O
  | p :: pats' =>
      if String.prefix p s then String.length p else prefix_length pats' s
  end.

(** [s] without the run of [pats] it starts with; [skip] bytes of the
    pattern just found are still to be dropped. *)
Fixpoint drop (skip : nat) (pats : list string) (s : string) : string :=
  match s with
  | EmptyString => EmptyString
  | String c s' =>
      match skip with
      | S k => drop k pats s'
      | O =>
          match prefix_length pats s with
          | O => s
          | S k => drop k pats s'
          end
      end
  end.

Definition TrimLeft (s : string) : string := drop 0 spaces s.

Definition TrimRight (s : string) : string :=
  reverse (drop 0 (map reverse spaces) (reverse s)).

Definition TrimSpace (s : string) : string := TrimRight (TrimLeft s).

Definition HasSuffix (s suffix : string) : bool :=
  String.prefix (reverse suffix) (reverse s).

Definition TrimSuffix (s suffix : string) : string :=
  if HasSuffix s suffix
  then String.substring 0 (String.length s - String.length suffix) s
  else s.

End strings.

(** ** uuid *)

Module uuid.

Definition UUID := N.

Definition Nil : UUID := 0%N.

Definition hexdigit (n : N) : ascii :=
  if (n <? 10)%N then ascii_of_N (48 + n) else ascii_of_N (87 + n).

(** [k] lower-case hexadecimal digits of [n], most significant first. *)
Fixpoint hex (k : nat) (n : N) (acc : string) : string :=
  match k with
  | O => acc
  | S k' => hex k' (N.shiftr n 4) (String (hexdigit (N.land n 15)) acc)
  end.

Definition field (u : UUID) (lo : N) (nibbles : nat) : string :=
  hex nibbles (N.shiftr u lo) EmptyString.

(** [NewRandom] stamps the random bytes: the high nibble of byte 6
    becomes 4 (the version) and the two high bits of byte 8 become 10
    (the variant).  Byte 0 is the most significant one. *)
Definition v4 (random : N) : UUID :=
  N.lor (N.ldiff (random mod 2 ^ 128)
                 (N.lor (N.shiftl 15 76) (N.shiftl 3 62)))
        (N.lor (N.shiftl 4 76) (N.shiftl 2 62)).

(** [UUID.ID]: the first four bytes as a number. *)
Definition ID (u : UUID) : N := N.shiftr u 96 mod 2 ^ 32.

(** The canonical form xxxxxxxx-xxxx-xxxx-xxxx-xxxxxxxxxxxx. *)
Definition String (u : UUID) : string :=
  field u 96 8 ++ "-" ++ field u 80 4 ++ "-" ++ field u 64 4 ++ "-"
    ++ field u 48 4 ++ "-" ++ field u 0 12.

End uuid.

(** ** models *)

Module models.

Record Pharmacy := {
  Pharmacy_ID : Z;
  Pharmacy_NPI : string;
  Pharmacy_Chain : string
}.

Record Claim := {
  Claim_ID : uuid.UUID;
  Claim_NDC : string;
  Claim_Quantity : float64;
  Claim_NPI : string;
  Claim_Price : float64;
  Claim_Timestamp : Z
}.

Record Reversal := {
  Reversal_ID : uuid.UUID;
  Reversal_ClaimID : uuid.UUID;
  Reversal_Timestamp : Z
}.

Record ClaimRequest := {
  NDC : string;
  Quantity : float64;
  NPI : string;
  Price : float64
}.

Record ClaimResponse := {
  ClaimResponse_Status : string;
  ClaimResponse_ClaimID : uuid.UUID
}.

Record ReversalRequest := {
  ClaimID : uuid.UUID;
  Reason : string
}.

Record ReversalResponse := {
  ReversalResponse_Status : string;
  ReversalResponse_ClaimID : uuid.UUID
}.

Record ErrorResponse := {
  Error : string;
  Message : string
}.

End models.

(** ** utility: the validator *)

Module utility.
Import models.

Definition len (s : string) : Z := Z.of_nat (String.length s).

Definition zero : float64 := S754_zero false.

Definition ValidateNDC (ndc : string) : error :=
  if (len ndc <? 9) || (11 <? len ndc) then
    Some "invalid NDC format: must be 9-11 digits"
  else
    match snd (strconv.Atoi ndc) with
    | Some _ => Some "invalid NDC format: must be numeric"
    | None => None
    end.

Definition ValidateNPI (npi : string) : error :=
  if negb (len npi =? 10) then
    Some "invalid NPI: must be exactly 10 digits"
  else
    match snd (strconv.Atoi npi) with
    | Some _ => Some "invalid NPI: must be numeric"
    | None => None
    end.

Definition ValidateQuantity (quantity : float64) : error :=
  if SFleb quantity zero then
    Some "invalid quantity: must be greater than 0"
  else None.

Definition ValidatePrice (price : float64) : error :=
  if SFltb price zero then
    Some "invalid price: must be non-negative"
  else None.

Definition ValidateClaimRequest (request : ClaimRequest) : error :=
  match ValidateNDC (NDC request) with
  | Some err => Some err
  | None =>
      match ValidateNPI (NPI request) with
      | Some err => Some err
      | None =>
          match ValidateQuantity (Quantity request) with
          | Some err => Some err
          | None =>
              match ValidatePrice (Price request) with
              | Some err => Some err
              | None => None
              end
          end
      end
  end.

End utility.

(** ** The world the program runs in *)

(** One argument of a [log.Printf] call; a log line keeps the format and
    the arguments instead of the formatted text.  [APath dir name] is the
    path [filepath.Join(dir, name)]. *)
Inductive Arg :=
| AInt (n : Z)
| AStr (s : string)
| APath (dir name : string)
| ARecord (fields : list string).

Record LogLine := { format : string; args : list Arg }.

(** A value of an audit payload ([map[string]interface{}]). *)
Inductive Value :=
| VString (s : string)
| VFloat (x : float64)
| VUUID (u : uuid.UUID).

(** An audit event as [core.Logger.LogEvent] writes it: one JSON file. *)
Record Event := {
  ev_dir : string;
  ev_file : string;
  ev_timestamp : N;
  ev_type : string;
  ev_payload : list (string * Value)
}.

(** A file of the audit directory: an event, or nothing at all when
    [os.Create] made the file and the event could not be encoded. *)
Inductive LogFile :=
| Encoded (e : Event)
| Empty (dir file : string).

(** The three tables of [migrations/000001_init.up.sql]; the rows of a
    table in insertion order. *)
Record Tables := {
  pharmacies : list models.Pharmacy;
  claims : list models.Claim;
  reversals : list models.Reversal
}.

(** - [tables] and [pharmacies_id_seq] are the database: the committed
      rows and the sequence behind [pharmacies.id SERIAL] (its last value).
    - [db_faults] schedules the outcome of the coming database round trips
      whose result the program inspects (begin, prepare, query, exec,
      commit): [Some msg] makes the next one fail with the driver error
      [msg] without executing, [None] (or an exhausted schedule) lets it
      run.  It stands for every failure that is not a constraint of the
      schema: lost connections, time-outs.
    - [entropy] and [drawn] are the random source of [uuid.New].
    - [clock] is what [time.Now] reads.
    - [audit] is the content of the audit directory, [sink_faults] the
      schedule of failures of [os.Create] there.
    - [stdlog] is the output of the standard logger. *)
Record World := {
  tables : Tables;
  pharmacies_id_seq : Z;
  db_faults : list (option string);
  entropy : nat -> uuid.UUID;
  drawn : nat;
  clock : Z;
  audit : list LogFile;
  sink_faults : list (option string);
  stdlog : list LogLine
}.

Definition with_tables (t : Tables) (w : World) : World :=
  {| tables := t; pharmacies_id_seq := pharmacies_id_seq w;
     db_faults := db_faults w; entropy := entropy w; drawn := drawn w;
     clock := clock w; audit := audit w; sink_faults := sink_faults w;
     stdlog := stdlog w |}.

Definition with_pharmacies_id_seq (n : Z) (w : World) : World :=
  {| tables := tables w; pharmacies_id_seq := n;
     db_faults := db_faults w; entropy := entropy w; drawn := drawn w;
     clock := clock w; audit := audit w; sink_faults := sink_faults w;
     stdlog := stdlog w |}.

Definition with_db_faults (f : list (option string)) (w : World) : World :=
  {| tables := tables w; pharmacies_id_seq := pharmacies_id_seq w;
     db_faults := f; entropy := entropy w; drawn := drawn w;
     clock := clock w; audit := audit w; sink_faults := sink_faults w;
     stdlog := stdlog w |}.

Definition with_drawn (n : nat) (w : World) : World :=
  {| tables := tables w; pharmacies_id_seq := pharmacies_id_seq w;
     db_faults := db_faults w; entropy := entropy w; drawn := n;
     clock := clock w; audit := audit w; sink_faults := sink_faults w;
     stdlog := stdlog w |}.

Definition with_audit (a : list LogFile) (w : World) : World :=
  {| tables := tables w; pharmacies_id_seq := pharmacies_id_seq w;
     db_faults := db_faults w; entropy := entropy w; drawn := drawn w;
     clock := clock w; audit := a; sink_faults := sink_faults w;
     stdlog := stdlog w |}.

Definition with_sink_faults (f : list (option string)) (w : World) : World :=
  {| tables := tables w; pharmacies_id_seq := pharmacies_id_seq w;
     db_faults := db_faults w; entropy := entropy w; drawn := drawn w;
     clock := clock w; audit := audit w; sink_faults := f;
     stdlog := stdlog w |}.

Definition with_stdlog (l : list LogLine) (w : World) : World :=
  {| tables := tables w; pharmacies_id_seq := pharmacies_id_seq w;
     db_faults := db_faults w; entropy := entropy w; drawn := drawn w;
     clock := clock w; audit := audit w; sink_faults := sink_faults w;
     stdlog := l |}.

(** The state monad of the program. *)
Definition M (A : Type) : Type := World -> A * World.

Definition ret {A : Type} (a : A) : M A := fun w => (a, w).

Definition bind {A B : Type} (m : M A) (k : A -> M B) : M B :=
  fun w => let (a, w') := m w in k a w'.

Declare Scope go_scope.
Delimit Scope go_scope with go.
Notation "x <- c ;; k" := (bind c (fun x => k))
  (at level 61, c at next level, right associativity) : go_scope.
Notation "' pat <- c ;; k" := (bind c (fun x => match x with pat => k end))
  (at level 61, pat pattern, c at next level, right associativity) : go_scope.
Notation "c ;;; k" := (bind c (fun _ => k))
  (at level 61, right associativity) : go_scope.
Open Scope go_scope.

Definition get_tables : M Tables := fun w => (tables w, w).
Definition put_tables (t : Tables) : M unit := fun w => (tt, with_tables t w).

(** [log.Printf]. *)
Definition log_Printf (fmt : string) (a : list Arg) : M unit :=
  fun w => (tt, with_stdlog (stdlog w ++ [{| format := fmt; args := a |}]) w).

(** [uuid.New]: sixteen random bytes made a version 4 UUID. *)
Definition uuid_New : M uuid.UUID :=
  fun w => (uuid.v4 (entropy w (drawn w)), with_drawn (S (drawn w)) w).

(** [time.Now]. *)
Definition time_Now : M Z := fun w => (clock w, w).

(** One scheduled outcome. *)
Definition pop (l : list (option string)) : error * list (option string) :=
  match l with
  | [] => (None, [])
  | o :: l' => (o, l')
  end.

(** One database round trip: [Some msg] when it fails. *)
Definition roundtrip : M error :=
  fun w => let (o, l) := pop (db_faults w) in (o, with_db_faults l w).

(** [for _, x := range l { body x }]. *)
Fixpoint forEach {A : Type} (l : list A) (body : A -> M unit) : M unit :=
  match l with
  | [] => ret tt
  | x :: l' => body x ;;; forEach l' body
  end.

(** ** repository: the access to PostgreSQL *)

Module repository.
Import models.

(** *** The schema of [migrations/000001_init.up.sql]

    [pharmacies(id SERIAL PRIMARY KEY, npi VARCHAR(10) UNIQUE NOT NULL,
    chain VARCHAR(20) NOT NULL CHECK (chain IN ('health','saint','doctor')))],
    [claims(id UUID PRIMARY KEY, ndc VARCHAR(11), npi VARCHAR(10)
    REFERENCES pharmacies(npi), quantity, price, timestamp)],
    [reversals(id UUID PRIMARY KEY, claim_id UUID NOT NULL REFERENCES
    claims(id), timestamp)].  The index [idx_reversals_claim_id] on
    [reversals(claim_id)] is an ordinary index, not a unique one.

    A row of [claims] keeps [quantity] and [price] as the
    [DECIMAL(10,2)] columns hold them, see [numeric_10_2]. *)

Definition is_space (c : ascii) : bool := strconv.byte_val c =? 32.

Fixpoint all_spaces (s : string) : bool :=
  match s with
  | EmptyString => true
  | String c s' => is_space c && all_spaces s'
  end.

(** Assignment to a [VARCHAR(n)] column: a longer value is an error
    unless the excess is made of spaces, which are cut.  The length is
    taken in bytes, which is the count of characters for ASCII text. *)
Definition varchar (n : nat) (s : string) : option string :=
  if (String.length s <=? n)%nat then Some s
  else if all_spaces (String.substring n (String.length s - n) s)
       then Some (String.substring 0 n s)
       else None.

(** [float64(n)] for an integer below 2^53, and the [float64] nearest
    to [n / 100]: what [strconv.ParseFloat] makes of the text of a
    [DECIMAL(10,2)] value. *)
Definition of_Z (n : Z) : float64 := binary_normalize 53 1024 n 0 false.

Definition hundredths (n : Z) : float64 :=
  SFdiv 53 1024 (of_Z n) (of_Z 100).

(** The [float64] nearest to [(q + 1/2) / 100]. *)
Definition hundredths_half (q : Z) : float64 :=
  SFdiv 53 1024 (of_Z (2 * q + 1)) (of_Z 200).

(** The number of hundredths the server rounds the positive number
    [m * 2^e] to.  The driver sends a [float64] as its shortest decimal
    text ([strconv.FormatFloat(v, 'f', -1, 64)]) and the server rounds
    that text half away from zero.  The text is on the same side of
    every half of a hundredth as the number itself, except when the
    half of a hundredth is the shortest text: when the number is the
    [float64] nearest to it. *)
Definition round_hundredths (m : positive) (e : Z) : Z :=
  if 0 <=? e then Z.pos m * 2 ^ e * 100
  else
    let d := 2 ^ (- e) in
    let q := (Z.pos m * 100) / d in
    let r := (Z.pos m * 100) mod d in
    if 10 ^ 10 <=? q then q
    else if d <=? 2 * r then q + 1
    else if SFeqb (hundredths_half q) (S754_finite false m e) then q + 1
    else q.

(** Assignment of a [float64] parameter to a [DECIMAL(10,2)] column and
    the [float64] read back from it: the value is rounded to two
    decimals, an absolute value of 10^8 or more after rounding and an
    infinity are errors, and NaN is kept. *)
Definition numeric_10_2 (x : float64) : float64 + string :=
  match x with
  | S754_nan => inl S754_nan
  | S754_infinity _ => inr "pq: numeric field overflow"
  | S754_zero _ => inl (S754_zero false)
  | S754_finite s m e =>
      let n := round_hundredths m e in
      if 10 ^ 10 <=? n then inr "pq: numeric field overflow"
      else inl (hundredths (if s then - n else n))
  end.

Definition valid_chain (chain : string) : bool :=
  (chain =? "health")%string || (chain =? "saint")%string
  || (chain =? "doctor")%string.

Definition has_pharmacy_id (id : Z) (t : Tables) : bool :=
  existsb (fun p => Pharmacy_ID p =? id) (pharmacies t).

Definition has_pharmacy_npi (npi : string) (t : Tables) : bool :=
  existsb (fun p => (Pharmacy_NPI p =? npi)%string) (pharmacies t).

Definition has_claim_id (id : uuid.UUID) (t : Tables) : bool :=
  existsb (fun c => (Claim_ID c =? id)%N) (claims t).

Definition has_reversal_id (id : uuid.UUID) (t : Tables) : bool :=
  existsb (fun r => (Reversal_ID r =? id)%N) (reversals t).

Definition has_reversal_of (claim_id : uuid.UUID) (t : Tables) : bool :=
  existsb (fun r => (Reversal_ClaimID r =? claim_id)%N) (reversals t).

(** The result of one [INSERT]: the new tables ([inl]; unchanged when
    [ON CONFLICT DO NOTHING] skipped the row) or the violated constraint
    ([inr]).  Column checks come first, then the unique indexes (the
    arbiters of [ON CONFLICT]), then the foreign keys. *)
Definition insert_pharmacy (do_nothing : bool) (id : Z) (npi chain : string)
           (t : Tables) : Tables + string :=
  match varchar 10 npi, varchar 20 chain with
  | None, _ => inr "pq: value too long for type character varying(10)"
  | _, None => inr "pq: value too long for type character varying(20)"
  | Some npi', Some chain' =>
      if negb (valid_chain chain') then
        inr "pq: new row for relation pharmacies violates check constraint valid_chain"
      else if has_pharmacy_id id t || has_pharmacy_npi npi' t then
        if do_nothing then inl t
        else inr "pq: duplicate key value violates unique constraint on pharmacies"
      else
        inl {| pharmacies := pharmacies t ++
                 [{| Pharmacy_ID := id; Pharmacy_NPI := npi';
                     Pharmacy_Chain := chain' |}];
               claims := claims t;
               reversals := reversals t |}
  end.

Definition insert_claim (do_nothing : bool) (c : Claim) (t : Tables)
  : Tables + string :=
  match varchar 11 (Claim_NDC c), numeric_10_2 (Claim_Quantity c),
        varchar 10 (Claim_NPI c), numeric_10_2 (Claim_Price c) with
  | None, _, _, _ => inr "pq: value too long for type character varying(11)"
  | _, inr e, _, _ => inr e
  | _, _, None, _ => inr "pq: value too long for type character varying(10)"
  | _, _, _, inr e => inr e
  | Some ndc', inl quantity', Some npi', inl price' =>
      if has_claim_id (Claim_ID c) t then
        if do_nothing then inl t
        else inr "pq: duplicate key value violates unique constraint claims_pkey"
      else if negb (has_pharmacy_npi npi' t) then
        inr "pq: insert or update on table claims violates foreign key constraint claims_npi_fkey"
      else
        inl {| pharmacies := pharmacies t;
               claims := claims t ++
                 [{| Claim_ID := Claim_ID c; Claim_NDC := ndc';
                     Claim_Quantity := quantity';
                     Claim_NPI := npi'; Claim_Price := price';
                     Claim_Timestamp := Claim_Timestamp c |}];
               reversals := reversals t |}
  end.

Definition insert_reversal (do_nothing : bool) (r : Reversal) (t : Tables)
  : Tables + string :=
  if has_reversal_id (Reversal_ID r) t then
    if do_nothing then inl t
    else inr "pq: duplicate key value violates unique constraint reversals_pkey"
  else if negb (has_claim_id (Reversal_ClaimID r) t) then
    inr "pq: insert or update on table reversals violates foreign key constraint reversals_claim_id_fkey"
  else
    inl {| pharmacies := pharmacies t;
           claims := claims t;
           reversals := reversals t ++ [r] |}.

(** *** database/sql *)

(** The outcome of [QueryRow(...).Scan(...)]. *)
Inductive Scan (A : Type) :=
| Row (a : A)
| ErrNoRows
| ScanError (msg : string).
Arguments Row {A} a.
Arguments ErrNoRows {A}.
Arguments ScanError {A} msg.

(** A query that returns the row [select] finds, if any. *)
Definition QueryRow {A : Type} (select : Tables -> option A) : M (Scan A) :=
  f <- roundtrip ;;
  match f with
  | Some e => ret (ScanError e)
  | None =>
      t <- get_tables ;;
      match select t with
      | Some a => ret (Row a)
      | None => ret ErrNoRows
      end
  end.

(** A statement [stmt] executed on the tables. *)
Definition Exec (stmt : Tables -> Tables + string) : M error :=
  f <- roundtrip ;;
  match f with
  | Some e => ret (Some e)
  | None =>
      t <- get_tables ;;
      match stmt t with
      | inl t' => put_tables t' ;;; ret None
      | inr e => ret (Some e)
      end
  end.

(** [nextval('pharmacies_id_seq')]; a sequence is not transactional. *)
Definition nextval : M Z :=
  fun w => (pharmacies_id_seq w + 1,
            with_pharmacies_id_seq (pharmacies_id_seq w + 1) w).

(** [INSERT INTO pharmacies (npi, chain)]: the default of [id] is drawn
    before the row is checked. *)
Definition ExecPharmacy (do_nothing : bool) (npi chain : string) : M error :=
  f <- roundtrip ;;
  match f with
  | Some e => ret (Some e)
  | None =>
      id <- nextval ;;
      t <- get_tables ;;
      match insert_pharmacy do_nothing id npi chain t with
      | inl t' => put_tables t' ;;; ret None
      | inr e => ret (Some e)
      end
  end.

(** A transaction handle is the state to come back to.  The statements
    of the one open transaction act on [tables] at once; [Rollback]
    restores the handle, and a [Commit] that fails leaves nothing
    behind.  The result of [Rollback] is never looked at by the program,
    and the server drops an open transaction whether or not the message
    arrives, so it draws nothing from the schedule. *)
Definition Tx := Tables.

Definition BeginTx : M (option Tx * error) :=
  f <- roundtrip ;;
  match f with
  | Some e => ret (None, Some e)
  | None => t <- get_tables ;; ret (Some t, None)
  end.

Definition Rollback (tx : Tx) : M unit := put_tables tx.

Definition Commit (tx : Tx) : M error :=
  f <- roundtrip ;;
  match f with
  | Some e => put_tables tx ;;; ret (Some e)
  | None => ret None
  end.

(** [database.DB.ExecuteInTransaction].  The function result is unnamed,
    so [return err] fixes the returned value before the deferred
    function runs: the assignment [err = tx.Commit()] made there changes
    the local variable only, and the error of a failed commit is not
    returned. *)
Definition ExecuteInTransaction (fn : Tx -> M error) : M error :=
  '(tx, err) <- BeginTx ;;
  match tx, err with
  | Some tx, None =>
      err <- fn tx ;;
      match err with
      | Some _ => Rollback tx ;;; ret err
      | None => _ <- Commit tx ;; ret err
      end
  | _, Some e => ret (Some ("failed to begin transaction: " ++ e))
  | None, None => ret (Some "failed to begin transaction: ")
  end.

(** *** The methods of [Postgres] *)

Definition GetPharmacyByNPI (npi : string) : M (option Pharmacy * error) :=
  r <- QueryRow (fun t =>
         find (fun p => (Pharmacy_NPI p =? npi)%string) (pharmacies t)) ;;
  match r with
  | ErrNoRows => ret (None, None)
  | ScanError e => ret (None, Some ("failed to get pharmacy by NPI: " ++ e))
  | Row pharmacy => ret (Some pharmacy, None)
  end.

Definition CreateClaim (claim : Claim) : M error :=
  err <- Exec (insert_claim false claim) ;;
  match err with
  | Some e => ret (Some ("failed to create claim: " ++ e))
  | None => ret None
  end.

Definition GetClaimByID (id : uuid.UUID) : M (option Claim * error) :=
  r <- QueryRow (fun t =>
         find (fun c => (Claim_ID c =? id)%N) (claims t)) ;;
  match r with
  | ErrNoRows => ret (None, None)
  | ScanError e => ret (None, Some ("failed to get claim by ID: " ++ e))
  | Row claim => ret (Some claim, None)
  end.

(** [SELECT EXISTS(...)] always returns one row. *)
Definition QueryExists (p : Tables -> bool) : M (Scan bool) :=
  QueryRow (fun t => Some (p t)).

Definition ReverseClaim (claimID : uuid.UUID) (reason : string) : M error :=
  ExecuteInTransaction (fun tx =>
    r <- QueryExists (has_claim_id claimID) ;;
    match r with
    | ScanError e => ret (Some ("failed to check if claim exists: " ++ e))
    | ErrNoRows => ret (Some "failed to check if claim exists: sql: no rows in result set")
    | Row exists_ =>
        if negb exists_ then ret (Some "claim not found")
        else
          r <- QueryExists (has_reversal_of claimID) ;;
          match r with
          | ScanError e =>
              ret (Some ("failed to check if claim already reversed: " ++ e))
          | ErrNoRows =>
              ret (Some "failed to check if claim already reversed: sql: no rows in result set")
          | Row reversalExists =>
              if reversalExists then ret (Some "claim already reversed")
              else
                reversalID <- uuid_New ;;
                now <- time_Now ;;
                err <- Exec (insert_reversal false
                               {| Reversal_ID := reversalID;
                                  Reversal_ClaimID := claimID;
                                  Reversal_Timestamp := now |}) ;;
                match err with
                | Some e =>
                    ret (Some ("failed to create reversal record: " ++ e))
                | None => ret None
                end
          end
    end).

(** The loop of [batchInsert] over the rows: it stops at the first
    statement that fails. *)
Fixpoint exec_rows {A : Type} (exec : A -> M error) (values : list A)
  : M error :=
  match values with
  | [] => ret None
  | row :: rest =>
      err <- exec row ;;
      match err with
      | Some e => ret (Some ("failed to execute insert: " ++ e))
      | None => exec_rows exec rest
      end
  end.

(** [batchInsert]: [exec] is the prepared
    [INSERT INTO table (columns) VALUES (...) ON CONFLICT DO NOTHING]
    applied to one row.  The deferred [tx.Rollback()] undoes the batch
    on every return but the one after a successful commit. *)
Definition batchInsert {A : Type} (exec : A -> M error) (values : list A)
  : M error :=
  '(tx, err) <- BeginTx ;;
  match tx, err with
  | Some tx, None =>
      perr <- roundtrip ;;
      match perr with
      | Some e =>
          Rollback tx ;;; ret (Some ("failed to prepare statement: " ++ e))
      | None =>
          err <- exec_rows exec values ;;
          match err with
          | Some e => Rollback tx ;;; ret (Some e)
          | None => Commit tx
          end
      end
  | _, Some e => ret (Some ("failed to begin transaction: " ++ e))
  | None, None => ret (Some "failed to begin transaction: ")
  end.

Definition BatchCreatePharmacies (pharmacies : list Pharmacy) : M error :=
  batchInsert
    (fun p => ExecPharmacy true (Pharmacy_NPI p) (Pharmacy_Chain p))
    pharmacies.

Definition BatchCreateClaims (claims : list Claim) : M error :=
  batchInsert (fun c => Exec (insert_claim true c)) claims.

Definition BatchCreateReversals (reversals : list Reversal) : M error :=
  batchInsert (fun r => Exec (insert_reversal true r)) reversals.

Definition countRows (tableName : string) (count : Tables -> Z)
  : M (Z * error) :=
  r <- QueryRow (fun t => Some (count t)) ;;
  match r with
  | Row n => ret (n, None)
  | ErrNoRows =>
      ret (0, Some ("failed to count rows in " ++ tableName
                      ++ ": sql: no rows in result set"))
  | ScanError e =>
      ret (0, Some ("failed to count rows in " ++ tableName ++ ": " ++ e))
  end.

Definition CountPharmacies : M (Z * error) :=
  countRows "pharmacies" (fun t => Z.of_nat (List.length (pharmacies t))).

Definition CountClaims : M (Z * error) :=
  countRows "claims" (fun t => Z.of_nat (List.length (claims t))).

Definition CountReversals : M (Z * error) :=
  countRows "reversals" (fun t => Z.of_nat (List.length (reversals t))).

End repository.

(** ** core: the audit logger *)

Module core.

Record Logger := { logDir : string }.

(** [os.Create] in the audit directory. *)
Definition os_Create : M error :=
  fun w => let (o, l) := pop (sink_faults w) in (o, with_sink_faults l w).

Definition is_finite (x : float64) : bool :=
  match x with
  | S754_zero _ | S754_finite _ _ _ => true
  | S754_infinity _ | S754_nan => false
  end.

(** [encoding/json] refuses to encode a NaN or an infinity. *)
Definition encodable (payload : list (string * Value)) : bool :=
  forallb (fun kv => match snd kv with
                     | VFloat x => is_finite x
                     | _ => true
                     end) payload.

(** The number the encoder stops at: it goes through the keys of a map
    in sorted order, so it is the refused number with the least key. *)
Fixpoint unsupported (payload : list (string * Value))
  : option (string * float64) :=
  match payload with
  | [] => None
  | (k, VFloat x) :: rest =>
      if is_finite x then unsupported rest
      else
        match unsupported rest with
        | Some (k', x') =>
            if String.ltb k' k then Some (k', x') else Some (k, x)
        | None => Some (k, x)
        end
  | _ :: rest => unsupported rest
  end.

(** [strconv.FormatFloat(f, 'g', -1, 64)] of a number that is not
    finite. *)
Definition FormatFloat (x : float64) : string :=
  match x with
  | S754_infinity true => "-Inf"
  | S754_infinity false => "+Inf"
  | _ => "NaN"
  end.

(** The text of [json.UnsupportedValueError]. *)
Definition UnsupportedValueError (payload : list (string * Value))
  : string :=
  "json: unsupported value: "
    ++ match unsupported payload with
       | Some (_, x) => FormatFloat x
       | None => EmptyString
       end.

Definition write_file (f : LogFile) : M unit :=
  fun w => (tt, with_audit (audit w ++ [f]) w).

(** [LogEvent] never reports a failure to its caller.  The file is
    created before the event is encoded, and the encoder writes nothing
    when it fails: the file of an event that cannot be encoded stays,
    empty. *)
Definition LogEvent (l : Logger) (eventType : string)
           (payload : list (string * Value)) : M unit :=
  stamp <- uuid_New ;;
  name <- uuid_New ;;
  let filename := eventType ++ "-" ++ uuid.String name ++ ".json" in
  err <- os_Create ;;
  match err with
  | Some e =>
      log_Printf "Failed to create log file %s: %v"
                 [APath (logDir l) filename; AStr e]
  | None =>
      if encodable payload then
        write_file (Encoded {| ev_dir := logDir l; ev_file := filename;
                               ev_timestamp := uuid.ID stamp;
                               ev_type := eventType;
                               ev_payload := payload |})
      else
        write_file (Empty (logDir l) filename) ;;;
        log_Printf "Failed to encode event to file %s: %v"
                   [APath (logDir l) filename;
                    AStr (UnsupportedValueError payload)]
  end.

End core.

(** ** service: the claims service *)

Module service.
Import models.

Record ClaimsService := { logger : core.Logger }.

Definition ValidateClaim (cs : ClaimsService) (request : ClaimRequest)
  : error :=
  utility.ValidateClaimRequest request.

Definition SubmitClaim (cs : ClaimsService) (request : ClaimRequest)
  : M (option ClaimResponse * error) :=
  match ValidateClaim cs request with
  | Some err => ret (None, Some err)
  | None =>
      '(pharmacy, err) <- repository.GetPharmacyByNPI (NPI request) ;;
      match err with
      | Some e => ret (None, Some ("failed to validate pharmacy: " ++ e))
      | None =>
          match pharmacy with
          | None =>
              ret (None, Some ("pharmacy with NPI " ++ NPI request
                                 ++ " not found"))
          | Some pharmacy =>
              id <- uuid_New ;;
              now <- time_Now ;;
              let claim := {| Claim_ID := id;
                              Claim_NDC := NDC request;
                              Claim_Quantity := Quantity request;
                              Claim_NPI := NPI request;
                              Claim_Price := Price request;
                              Claim_Timestamp := now |} in
              err <- repository.CreateClaim claim ;;
              match err with
              | Some e => ret (None, Some ("failed to create claim: " ++ e))
              | None =>
                  core.LogEvent (logger cs) "claim_submitted"
                    [("claim_id", VString (uuid.String (Claim_ID claim)));
                     ("ndc", VString (Claim_NDC claim));
                     ("quantity", VFloat (Claim_Quantity claim));
                     ("npi", VString (Claim_NPI claim));
                     ("price", VFloat (Claim_Price claim));
                     ("chain", VString (Pharmacy_Chain pharmacy))] ;;;
                  ret (Some {| ClaimResponse_Status := "claim submitted";
                               ClaimResponse_ClaimID := Claim_ID claim |},
                       None)
              end
          end
      end
  end.

Definition ReverseClaim (cs : ClaimsService) (request : ReversalRequest)
  : M (option ReversalResponse * error) :=
  '(claim, err) <- repository.GetClaimByID (ClaimID request) ;;
  match err with
  | Some e => ret (None, Some ("failed to get claim: " ++ e))
  | None =>
      match claim with
      | None =>
          ret (None, Some ("claim with ID " ++ uuid.String (ClaimID request)
                             ++ " not found"))
      | Some claim =>
          err <- repository.ReverseClaim (ClaimID request) (Reason request) ;;
          match err with
          | Some e => ret (None, Some ("failed to reverse claim: " ++ e))
          | None =>
              '(pharmacy, err) <- repository.GetPharmacyByNPI (Claim_NPI claim) ;;
              match err with
              | Some e =>
                  log_Printf "Failed to get pharmacy for logging: %v" [AStr e]
              | None => ret tt
              end ;;;
              let logPayload :=
                [("claim_id", VString (uuid.String (Claim_ID claim)));
                 ("original_ndc", VString (Claim_NDC claim));
                 ("original_quantity", VFloat (Claim_Quantity claim));
                 ("original_npi", VString (Claim_NPI claim));
                 ("original_price", VFloat (Claim_Price claim));
                 ("reason", VString (Reason request))] in
              let logPayload :=
                match pharmacy with
                | Some pharmacy =>
                    (logPayload
                       ++ [("chain", VString (Pharmacy_Chain pharmacy))])%list
                | None => logPayload
                end in
              core.LogEvent (logger cs) "claim_reversed" logPayload ;;;
              ret (Some {| ReversalResponse_Status := "claim reversed";
                           ReversalResponse_ClaimID := Claim_ID claim |},
                   None)
          end
      end
  end.

(** *** The loader *)

Definition DefaultBatchSize := 1000.
Definition MaxBatchSize := 10000.
Definition MaxConcurrentWorkers := 10.

Record LoaderService := {
  loader_logger : core.Logger;
  batchSize : Z
}.

Definition NewLoaderServiceWithBatchSize (logger : core.Logger)
           (batchSize : Z) : M LoaderService :=
  batchSize <-
    (if (batchSize <=? 0) || (MaxBatchSize <? batchSize) then
       log_Printf "Invalid batch size %d, using default %d"
                  [AInt batchSize; AInt DefaultBatchSize] ;;;
       ret DefaultBatchSize
     else ret batchSize) ;;
  ret {| loader_logger := logger; batchSize := batchSize |}.

Definition NewLoaderService (logger : core.Logger) : M LoaderService :=
  NewLoaderServiceWithBatchSize logger DefaultBatchSize.

Definition len {A : Type} (l : list A) : Z := Z.of_nat (List.length l).

Definition itoa (n : Z) : string := NilZero.string_of_int (Z.to_int n).

(** One record of a CSV file as [encoding/csv] lexes it: its fields, or
    the lexical error found on it.  Blank lines are not records. *)
Inductive CsvLine :=
| Fields (line : Z) (fields : list string)
| Malformed (line column : Z) (reason : string).

(** [csv.Reader]: [FieldsPerRecord] starts at 0 and is set by the first
    record read. *)
Record Reader := {
  FieldsPerRecord : Z;
  rest : list CsvLine
}.

Definition NewReader (file : list CsvLine) : Reader :=
  {| FieldsPerRecord := 0; rest := file |}.

Definition EOF : string := "EOF".

(** [readRecord] on the next record [l] with the reader's field count:
    the record, the error and the new field count.  A record with the
    wrong number of fields comes back together with [ErrFieldCount]. *)
Definition readRecord (fieldsPerRecord : Z) (l : CsvLine)
  : list string * error * Z :=
  match l with
  | Malformed line column reason =>
      ([], Some ("parse error on line " ++ itoa line ++ ", column "
                   ++ itoa column ++ ": " ++ reason), fieldsPerRecord)
  | Fields line fields =>
      if 0 <? fieldsPerRecord then
        if negb (len fields =? fieldsPerRecord) then
          (fields, Some ("record on line " ++ itoa line
                           ++ ": wrong number of fields"), fieldsPerRecord)
        else (fields, None, fieldsPerRecord)
      else if fieldsPerRecord =? 0 then (fields, None, len fields)
      else (fields, None, fieldsPerRecord)
  end.

Definition Read (r : Reader) : list string * error * Reader :=
  match rest r with
  | [] => ([], Some EOF, r)
  | l :: rest' =>
      let '(record, err, n) := readRecord (FieldsPerRecord r) l in
      (record, err, {| FieldsPerRecord := n; rest := rest' |})
  end.

(** The part of the file system the loader looks at.
    - [IsNotExist path]: [os.Stat path] fails with a not-exist error;
    - [Glob pattern]: the result of [filepath.Glob];
    - [Open path]: the records of the CSV file, or the error of [os.Open];
    - [ReadFile path]: the content of the file, or the error. *)
Record FS := {
  IsNotExist : string -> bool;
  Glob : string -> list string * error;
  Open : string -> list CsvLine + string;
  ReadFile : string -> string + string
}.

Section Loader.

(** [filepath.Join] and [filepath.Base]. *)
Variable Join : string -> string -> string.
Variable Base : string -> string.

(** [json.Unmarshal] into a slice of claims and of reversals. *)
Variable UnmarshalClaims : string -> list Claim + string.
Variable UnmarshalReversals : string -> list Reversal + string.

(** The order in which the results of the worker pool reach the
    consumer, given the files in the order they were queued. *)
Variable arrival : list string -> list string.

Variable fs : FS.

Definition processPharmaciesBatch (ls : LoaderService)
           (pharmacies : list Pharmacy) : M error :=
  err <- repository.BatchCreatePharmacies pharmacies ;;
  match err with
  | Some e => ret (Some ("failed to batch create pharmacies: " ++ e))
  | None =>
      forEach pharmacies (fun pharmacy =>
        core.LogEvent (loader_logger ls) "pharmacy_loaded"
          [("npi", VString (Pharmacy_NPI pharmacy));
           ("chain", VString (Pharmacy_Chain pharmacy))]) ;;;
      ret None
  end.

(** The end of the file in [loadPharmaciesFromCSV]: the last, partial
    batch is flushed. *)
Definition finish (ls : LoaderService) (batch : list Pharmacy)
           (totalLoaded : Z) : M (Z * error) :=
  if 0 <? len batch then
    err <- processPharmaciesBatch ls batch ;;
    match err with
    | Some e =>
        ret (totalLoaded, Some ("failed to process final batch: " ++ e))
    | None => ret (totalLoaded + len batch, None)
    end
  else ret (totalLoaded, None).

(** The loop of [loadPharmaciesFromCSV] after the header, by recursion
    on the records still to be read; [reader.Read] returns [io.EOF]
    when none is left. *)
Fixpoint readLoop (ls : LoaderService) (filename : string)
         (fieldsPerRecord : Z) (lines : list CsvLine)
         (batch : list Pharmacy) (totalLoaded lineNumber : Z)
  : M (Z * error) :=
  match lines with
  | [] => finish ls batch totalLoaded
  | l :: lines' =>
      let '(record, err, fieldsPerRecord) :=
        readRecord fieldsPerRecord l in
      match err with
      | Some e =>
          if (e =? EOF)%string then finish ls batch totalLoaded
          else
            log_Printf "Error reading line %d in %s: %v"
                       [AInt (lineNumber + 1); AStr filename; AStr e] ;;;
            readLoop ls filename fieldsPerRecord lines' batch totalLoaded
                     (lineNumber + 1)
      | None =>
          let lineNumber := lineNumber + 1 in
          if len record <? 2 then
            log_Printf "Skipping invalid record at line %d: %v"
                       [AInt lineNumber; ARecord record] ;;;
            readLoop ls filename fieldsPerRecord lines' batch totalLoaded
                     lineNumber
          else
            let pharmacy :=
              {| Pharmacy_ID := 0;
                 Pharmacy_NPI := strings.TrimSpace (nth 1 record EmptyString);
                 Pharmacy_Chain := strings.TrimSpace (nth 0 record EmptyString) |} in
            match utility.ValidateNPI (Pharmacy_NPI pharmacy) with
            | Some e =>
                log_Printf "%v" [AStr e] ;;;
                readLoop ls filename fieldsPerRecord lines' batch
                         totalLoaded lineNumber
            | None =>
                let batch := (batch ++ [pharmacy])%list in
                if batchSize ls <=? len batch then
                  err <- processPharmaciesBatch ls batch ;;
                  match err with
                  | Some e =>
                      ret (totalLoaded,
                           Some ("failed to process batch at line "
                                   ++ itoa lineNumber ++ ": " ++ e))
                  | None =>
                      readLoop ls filename fieldsPerRecord lines' []
                               (totalLoaded + len batch) lineNumber
                  end
                else
                  readLoop ls filename fieldsPerRecord lines' batch
                           totalLoaded lineNumber
            end
      end
  end.

Definition loadPharmaciesFromCSV (ls : LoaderService) (filename : string)
  : M (Z * error) :=
  match Open fs filename with
  | inr e => ret (0, Some ("failed to open CSV file: " ++ e))
  | inl file =>
      let reader := NewReader file in
      let '(_, err, reader) := Read reader in
      match err with
      | Some e => ret (0, Some ("failed to read header: " ++ e))
      | None =>
          readLoop ls filename (FieldsPerRecord reader) (rest reader)
                   [] 0 1
      end
  end.

(** The loop over the files in [LoadPharmaciesFromData]; the count of
    a file that ended in an error is dropped. *)
Fixpoint loadFiles (ls : LoaderService) (files : list string)
         (totalLoaded : Z) : M Z :=
  match files with
  | [] => ret totalLoaded
  | file :: files' =>
      '(loaded, err) <- loadPharmaciesFromCSV ls file ;;
      match err with
      | Some e =>
          log_Printf "Failed to load pharmacies from %s: %v"
                     [AStr file; AStr e] ;;;
          loadFiles ls files' totalLoaded
      | None => loadFiles ls files' (totalLoaded + loaded)
      end
  end.

(** The test at the head of both loaders: [true] when the table was
    counted and is not empty. *)
Definition alreadyLoaded (countFunc : M (Z * error))
           (warning skipping : string) (name : list Arg) : M bool :=
  '(count, err) <- countFunc ;;
  match err with
  | Some e => log_Printf warning (name ++ [AStr e])%list ;;; ret false
  | None =>
      if 0 <? count then
        log_Printf skipping (name ++ [AInt count])%list ;;; ret true
      else ret false
  end.

Definition LoadPharmaciesFromData (ls : LoaderService) (dataDir : string)
  : M error :=
  skip <- alreadyLoaded repository.CountPharmacies
            "Warning: Failed to check pharmacy count: %v"
            "Pharmacies already loaded (%d records found), skipping data loading"
            [] ;;
  if skip then ret None
  else
    let pharmaciesDir := Join dataDir "pharmacies" in
    if IsNotExist fs pharmaciesDir then
      ret (Some ("pharmacies directory not found: " ++ pharmaciesDir))
    else
      let (files, err) := Glob fs (Join pharmaciesDir "*.csv") in
      match err with
      | Some e => ret (Some ("failed to glob pharmacy files: " ++ e))
      | None =>
          if len files =? 0 then
            ret (Some ("no pharmacy CSV files found in " ++ pharmaciesDir))
          else
            totalLoaded <- loadFiles ls files 0 ;;
            if totalLoaded =? 0 then
              ret (Some "no pharmacies loaded from data directory")
            else
              log_Printf
                "Successfully loaded %d pharmacies from data directory"
                [AInt totalLoaded] ;;;
              ret None
      end.

(** The inner loop of the consumer: the items of one file go to the
    batch, which is flushed whenever it is full. *)
Fixpoint consume {T : Type} (ls : LoaderService)
         (batchProcessor : list T -> M error) (dataTypeName : string)
         (data : list T) (batch : list T) (totalItems : Z)
  : M (list T * Z) :=
  match data with
  | [] => ret (batch, totalItems)
  | item :: data' =>
      let batch := (batch ++ [item])%list in
      if batchSize ls <=? len batch then
        err <- batchProcessor batch ;;
        totalItems <-
          match err with
          | Some e =>
              log_Printf "Warning: Failed to process %s batch: %v"
                         [AStr dataTypeName; AStr e] ;;;
              ret totalItems
          | None =>
              log_Printf "Processed batch of %d %s"
                         [AInt (len batch); AStr dataTypeName] ;;;
              ret (totalItems + len batch)
          end ;;
        consume ls batchProcessor dataTypeName data' [] totalItems
      else
        consume ls batchProcessor dataTypeName data' batch totalItems
  end.

(** Workers and consumer of [loadDataFromFiles], one file result at a
    time in the order [arrival] fixed: the worker loads the file and
    logs, the consumer takes the result from [dataChan] or
    [errorChan].  Only the consumer touches the batch and the store. *)
Fixpoint drain {T : Type} (ls : LoaderService)
         (fileLoader : string -> list T + string)
         (batchProcessor : list T -> M error) (dataTypeName : string)
         (queue : list string) (batch : list T) (totalItems : Z)
  : M (list T * Z) :=
  match queue with
  | [] => ret (batch, totalItems)
  | filename :: queue' =>
      match fileLoader filename with
      | inr e =>
          log_Printf "Warning: Failed to load %s from %s: %v"
                     [AStr dataTypeName; AStr filename; AStr e] ;;;
          drain ls fileLoader batchProcessor dataTypeName queue' batch
                totalItems
      | inl data =>
          log_Printf "Loaded %d %s from %s"
                     [AInt (len data); AStr dataTypeName;
                      AStr (Base filename)] ;;;
          '(batch, totalItems) <-
            consume ls batchProcessor dataTypeName data batch totalItems ;;
          drain ls fileLoader batchProcessor dataTypeName queue' batch
                totalItems
      end
  end.

Definition loadDataFromFiles {T : Type} (ls : LoaderService)
           (dataDir subDir filePattern : string)
           (countFunc : M (Z * error))
           (fileLoader : string -> list T + string)
           (batchProcessor : list T -> M error)
           (dataTypeName : string) : M error :=
  skip <- alreadyLoaded countFunc
            "Warning: Failed to check %s count: %v"
            "%s already loaded (%d records found), skipping data loading"
            [AStr dataTypeName] ;;
  if skip then ret None
  else
    let targetDir := Join dataDir subDir in
    let (files, err) := Glob fs (Join targetDir filePattern) in
    match err with
    | Some e =>
        ret (Some ("failed to read " ++ dataTypeName ++ " directory: "
                     ++ e))
    | None =>
        if len files =? 0 then
          log_Printf "No %s files found in %s"
                     [AStr dataTypeName; AStr targetDir] ;;;
          ret None
        else
          log_Printf "Found %d %s files to load"
                     [AInt (len files); AStr dataTypeName] ;;;
          '(batch, totalItems) <-
            drain ls fileLoader batchProcessor dataTypeName
                  (arrival files) [] 0 ;;
          totalItems <-
            (if 0 <? len batch then
               err <- batchProcessor batch ;;
               match err with
               | Some e =>
                   log_Printf
                     "Warning: Failed to process final %s batch: %v"
                     [AStr dataTypeName; AStr e] ;;;
                   ret totalItems
               | None =>
                   log_Printf "Processed final batch of %d %s"
                              [AInt (len batch); AStr dataTypeName] ;;;
                   ret (totalItems + len batch)
               end
             else ret totalItems) ;;
          log_Printf "Successfully loaded %d total %s from %d files"
                     [AInt totalItems; AStr dataTypeName;
                      AInt (len files)] ;;;
          ret None
    end.

Definition loadJSONFromFile {T : Type}
           (Unmarshal : string -> list T + string) (filename : string)
  : list T + string :=
  match ReadFile fs filename with
  | inr e => inr ("failed to read file: " ++ e)
  | inl data =>
      let jsonStr := strings.TrimSuffix data "%" in
      let jsonStr := strings.TrimSpace jsonStr in
      match Unmarshal jsonStr with
      | inr e => inr ("failed to parse JSON: " ++ e)
      | inl items => inl items
      end
  end.

Definition processClaimsBatch (ls : LoaderService) (claims : list Claim)
  : M error :=
  err <- repository.BatchCreateClaims claims ;;
  match err with
  | Some e => ret (Some ("failed to batch create claims: " ++ e))
  | None =>
      forEach claims (fun claim =>
        core.LogEvent (loader_logger ls) "claim_loaded"
          [("id", VUUID (Claim_ID claim));
           ("ndc", VString (Claim_NDC claim));
           ("npi", VString (Claim_NPI claim));
           ("quantity", VFloat (Claim_Quantity claim));
           ("price", VFloat (Claim_Price claim))]) ;;;
      ret None
  end.

Definition LoadClaimsFromData (ls : LoaderService) (dataDir : string)
  : M error :=
  loadDataFromFiles ls dataDir "claims" "*.json"
    repository.CountClaims
    (loadJSONFromFile UnmarshalClaims)
    (processClaimsBatch ls)
    "claims".

Definition processReversalsBatch (ls : LoaderService)
           (reversals : list Reversal) : M error :=
  err <- repository.BatchCreateReversals reversals ;;
  match err with
  | Some e => ret (Some ("failed to batch create reversals: " ++ e))
  | None =>
      forEach reversals (fun reversal =>
        core.LogEvent (loader_logger ls) "reversal_loaded"
          [("id", VUUID (Reversal_ID reversal));
           ("claim_id", VUUID (Reversal_ClaimID reversal))]) ;;;
      ret None
  end.

Definition LoadReversalsFromData (ls : LoaderService) (dataDir : string)
  : M error :=
  loadDataFromFiles ls dataDir "reverts" "*.json"
    repository.CountReversals
    (loadJSONFromFile UnmarshalReversals)
    (processReversalsBatch ls)
    "reversals".

End Loader.

End service.

(** ** handlers: the HTTP boundary *)

Module handlers.
Import models.

(** The three methods the handler needs from a service.  They are
    state transformers: an implementation may do anything to the world. *)
Class ServiceInterface (S : Type) := {
  ValidateClaim : S -> ClaimRequest -> M error;
  SubmitClaim : S -> ClaimRequest -> M (option ClaimResponse * error);
  ReverseClaim : S -> ReversalRequest -> M (option ReversalResponse * error)
}.

#[global] Instance ClaimsService_ServiceInterface
  : ServiceInterface service.ClaimsService := {
  ValidateClaim := fun cs request => ret (service.ValidateClaim cs request);
  SubmitClaim := service.SubmitClaim;
  ReverseClaim := service.ReverseClaim
}.

Record Request := { Method : string; Body : string }.

(** What a handler hands to [json.NewEncoder(w).Encode]. *)
Inductive Data :=
| DClaimResponse (r : option ClaimResponse)
| DReversalResponse (r : option ReversalResponse)
| DErrorResponse (r : ErrorResponse)
| DMap (m : list (string * string)).

(** What the [http.ResponseWriter] has received when a handler returns. *)
Record Response := {
  StatusCode : Z;
  ContentType : string;
  Payload : Data
}.

Definition MethodGet := "GET".
Definition MethodPost := "POST".
Definition StatusOK := 200.
Definition StatusCreated := 201.
Definition StatusBadRequest := 400.
Definition StatusNotFound := 404.
Definition StatusMethodNotAllowed := 405.
Definition StatusConflict := 409.
Definition StatusInternalServerError := 500.

Section Handler.

(** [json.NewDecoder(r.Body).Decode] at the two request types: the
    decoded request, or the text of the decoding error. *)
Variable DecodeClaimRequest : string -> ClaimRequest + string.
Variable DecodeReversalRequest : string -> ReversalRequest + string.

Context {S : Type} `{ServiceInterface S}.

Record HttpHandler := { service : S }.

(** Encoding one of the four payloads above cannot fail. *)
Definition sendJSONResponse (statusCode : Z) (data : Data) : M Response :=
  ret {| StatusCode := statusCode;
         ContentType := "application/json";
         Payload := data |}.

Definition sendErrorResponse (statusCode : Z) (error message : string)
  : M Response :=
  let response := {| Error := error; Message := message |} in
  sendJSONResponse statusCode (DErrorResponse response).

Definition HttpHandler_SubmitClaim (h : HttpHandler) (r : Request) : M Response :=
  if negb (Method r =? MethodPost)%string then
    sendErrorResponse StatusMethodNotAllowed "Method not allowed"
                      "Only POST method is allowed"
  else
    match DecodeClaimRequest (Body r) with
    | inr err =>
        sendErrorResponse StatusBadRequest "Invalid JSON format" err
    | inl request =>
        verr <- ValidateClaim (service h) request ;;
        match verr with
        | Some err =>
            sendErrorResponse StatusBadRequest "Validation failed" err
        | None =>
            '(response, err) <- SubmitClaim (service h) request ;;
            match err with
            | Some err =>
                if (err =? "pharmacy with NPI " ++ NPI request
                             ++ " not found")%string then
                  sendErrorResponse StatusNotFound "Pharmacy not found" err
                else
                  sendErrorResponse StatusInternalServerError
                                    "Failed to submit claim" err
            | None =>
                sendJSONResponse StatusCreated (DClaimResponse response)
            end
        end
    end.

Definition HttpHandler_ReverseClaim (h : HttpHandler) (r : Request) : M Response :=
  if negb (Method r =? MethodPost)%string then
    sendErrorResponse StatusMethodNotAllowed "Method not allowed"
                      "Only POST method is allowed"
  else
    match DecodeReversalRequest (Body r) with
    | inr err =>
        sendErrorResponse StatusBadRequest "Invalid JSON format" err
    | inl request =>
        if (ClaimID request =? uuid.Nil)%N then
          sendErrorResponse StatusBadRequest "Invalid claim_id"
                            "claim_id must be a valid UUID"
        else
          '(response, err) <- ReverseClaim (service h) request ;;
          match err with
          | Some err =>
              if (err =? "claim with ID "
                           ++ uuid.String (ClaimID request)
                           ++ " not found")%string then
                sendErrorResponse StatusNotFound "Claim not found" err
              else if (err =? "claim is already reversed")%string then
                sendErrorResponse StatusConflict "Claim already reversed"
                                  err
              else
                sendErrorResponse StatusInternalServerError
                                  "Failed to reverse claim" err
          | None =>
              sendJSONResponse StatusOK (DReversalResponse response)
          end
    end.

Definition HttpHandler_HealthCheck (h : HttpHandler) (r : Request) : M Response :=
  if negb (Method r =? MethodGet)%string then
    sendErrorResponse StatusMethodNotAllowed "Method not allowed"
                      "Only GET method is allowed"
  else
    sendJSONResponse StatusOK (DMap [("status", "healthy")]).

End Handler.

Arguments HttpHandler S : clear implicits.
Arguments Build_HttpHandler {S} service.
Arguments service {S} h.

End handlers.


(** ** database: waiting for the server *)

Module database.

Record Connection := {
  Host : string;
  Port : Z;
  User : string;
  Password : string;
  DBName : string;
  SSLMode : string
}.

(** The connection string both [NewConnection] and [WaitForConnection]
    build. *)
Definition psqlInfo (connInfo : Connection) : string :=
  "host=" ++ Host connInfo ++ " port=" ++ service.itoa (Port connInfo)
    ++ " user=" ++ User connInfo ++ " password=" ++ Password connInfo
    ++ " dbname=" ++ DBName connInfo ++ " sslmode=" ++ SSLMode connInfo.

Definition with_clock (c : Z) (w : World) : World :=
  {| tables := tables w; pharmacies_id_seq := pharmacies_id_seq w;
     db_faults := db_faults w; entropy := entropy w; drawn := drawn w;
     clock := c; audit := audit w; sink_faults := sink_faults w;
     stdlog := stdlog w |}.

(** [time.Sleep]: the clock moves on by the duration; a duration that is
    not positive returns at once. *)
Definition time_Sleep (d : Z) : M unit :=
  fun w => (tt, with_clock (clock w + Z.max 0 d) w).

(** [log.Println] of one string. *)
Definition log_Println (s : string) : M unit := log_Printf s [].

(** [db.Ping] is a round trip to the server. *)
Definition Ping : M error := roundtrip.

Section Wait.

(** [sql.Open("postgres", psqlInfo)] does not connect: its error, if
    any, is that of the connection string and the same at every call. *)
Variable sql_Open : string -> error.

(** What both failure branches do before the last attempt. *)
Definition retry (i maxRetries retryInterval : Z) : M unit :=
  log_Printf "Database not ready (attempt %d/%d), retrying in %v..."
             [AInt (i + 1); AInt maxRetries; AInt retryInterval] ;;;
  time_Sleep retryInterval.

(** The loop [for i := 0; i < maxRetries; i++] from its iteration [i]
    on; [remaining] is the number of iterations still to come,
    [maxRetries - i], so that the test of the loop fails when it is 0.
    The handle of a ping is closed in both branches; [db.Close] has no
    result the program looks at. *)
Fixpoint attempts (psqlInfo : string) (maxRetries retryInterval : Z)
         (remaining : nat) (i : Z) : M error :=
  match remaining with
  | O =>
      ret (Some ("database connection failed after "
                   ++ service.itoa maxRetries ++ " attempts"))
  | S remaining' =>
      match sql_Open psqlInfo with
      | Some err =>
          if i <? maxRetries - 1 then
            retry i maxRetries retryInterval ;;;
            attempts psqlInfo maxRetries retryInterval remaining' (i + 1)
          else
            ret (Some ("database connection failed after "
                         ++ service.itoa maxRetries ++ " attempts: " ++ err))
      | None =>
          err <- Ping ;;
          match err with
          | Some err =>
              if i <? maxRetries - 1 then
                retry i maxRetries retryInterval ;;;
                attempts psqlInfo maxRetries retryInterval remaining' (i + 1)
              else
                ret (Some ("database ping failed after "
                             ++ service.itoa maxRetries ++ " attempts: "
                             ++ err))
          | None =>
              log_Println "Database is ready" ;;;
              ret None
          end
      end
  end.

Definition WaitForConnection (connInfo : Connection)
           (maxRetries retryInterval : Z) : M error :=
  log_Println "Waiting for database to be ready..." ;;;
  attempts (psqlInfo connInfo) maxRetries retryInterval
           (Z.to_nat maxRetries) 0.

End Wait.

End database.

(** ** models: the timestamps of the seed files *)

Module CustomTime.

(** [time.RFC3339]. *)
Definition RFC3339 : string := "2006-01-02T15:04:05Z07:00".

Definition layouts : list string :=
  ["2006-01-02T15:04:05"; RFC3339; "2006-01-02T15:04:05Z07:00"].

(** What a call does: it returns, or it panics. *)
Inductive Outcome (A : Type) :=
| Returns (a : A)
| Panics (reason : string).
Arguments Returns {A} a.
Arguments Panics {A} reason.

Section UnmarshalJSON.

Variable Time : Type.

(** [time.Parse layout value], and [json.Unmarshal] into a
    [time.Time]. *)
Variable time_Parse : string -> string -> Time + string.
Variable json_Unmarshal : string -> Time + string.

(** The loop over the layouts: the time of the first one under which
    [str] parses. *)
Fixpoint first_layout (layouts : list string) (str : string)
  : option Time :=
  match layouts with
  | [] => None
  | layout :: layouts' =>
      match time_Parse layout str with
      | inl t => Some t
      | inr _ => first_layout layouts' str
      end
  end.

(** [UnmarshalJSON] on the time [ct] holds: the time it holds
    afterwards and the error.  The slice expression
    [data[1 : len(data)-1]] panics when [len(data) - 1] is less than
    1. *)
Definition UnmarshalJSON (ct : Time) (data : string)
  : Outcome (Time * error) :=
  if (String.length data <? 2)%nat then Panics "slice bounds out of range"
  else
    let str := String.substring 1 (String.length data - 2) data in
    match first_layout layouts str with
    | Some t => Returns (t, None)
    | None =>
        match json_Unmarshal data with
        | inl t => Returns (t, None)
        | inr e => Returns (ct, Some e)
        end
    end.

End UnmarshalJSON.

End CustomTime.

(** * Vocabulary of the properties *)

(** The answer of a handler to a method it does not serve. *)
Definition method_not_allowed (message : string) : handlers.Response :=
  {| handlers.StatusCode := 405;
     handlers.ContentType := "application/json";
     handlers.Payload :=
       handlers.DErrorResponse
         {| models.Error := "Method not allowed";
            models.Message := message |} |}.

(** ** What the validator accepts *)

Definition is_digit (c : ascii) : bool :=
  let n := strconv.byte_val c in (48 <=? n) && (n <=? 57).

Fixpoint all_digits (s : string) : bool :=
  match s with
  | EmptyString => true
  | String c s' => is_digit c && all_digits s'
  end.

(** A string of decimal digits only, at least one. *)
Definition unsigned_decimal (s : string) : bool :=
  match s with
  | EmptyString => false
  | _ => all_digits s
  end.

(** An optional sign [+] or [-] followed by an unsigned decimal. *)
Definition signed_decimal (s : string) : bool :=
  match s with
  | EmptyString => false
  | String c rest =>
      if strconv.is_sign c then unsigned_decimal rest else all_digits s
  end.

(** ** Database round trips *)

(** The outcome scheduled for the next round trip: [None] when it will be
    answered, [Some msg] when it will fail with [msg]. *)
Definition next_fault (w : World) : error := fst (pop (db_faults w)).

(** The world once that round trip is over. *)
Definition after_roundtrip (w : World) : World :=
  with_db_faults (snd (pop (db_faults w))) w.

(** ** The reversal invariant *)

(** No two rows of [reversals] refer to the same claim. *)
Definition at_most_one_reversal (t : Tables) : Prop :=
  NoDup (map models.Reversal_ClaimID (reversals t)).

(** ** Sample data *)

Module sample.
Import models.

(** 1.0 and 25.0 as binary64 numbers. *)
Definition one : float64 := S754_finite false 4503599627370496 (-52).
Definition twenty_five : float64 := S754_finite false 7036874417766400 (-48).

Definition health : Pharmacy :=
  {| Pharmacy_ID := 1; Pharmacy_NPI := "1234567890";
     Pharmacy_Chain := "health" |}.

Definition claim_id : uuid.UUID := 0x550e8400e29b41d4a716446655440000%N.

Definition claim : Claim :=
  {| Claim_ID := claim_id; Claim_NDC := "12345678901";
     Claim_Quantity := one; Claim_NPI := "1234567890";
     Claim_Price := twenty_five; Claim_Timestamp := 1738238400 |}.

(** A request whose drug code and provider identifier carry a sign. *)
Definition signed_request : ClaimRequest :=
  {| NDC := "+12345678"; Quantity := one; NPI := "-123456789";
     Price := twenty_five |}.

Definition request : ClaimRequest :=
  {| NDC := "12345678901"; Quantity := one; NPI := "1234567890";
     Price := twenty_five |}.

(** A database with one pharmacy and one claim of it, not reversed; no
    failure is scheduled. *)
Definition world : World :=
  {| tables := {| pharmacies := [health]; claims := [claim];
                  reversals := [] |};
     pharmacies_id_seq := 1;
     db_faults := [];
     entropy := fun n => N.of_nat (1000 + n);
     drawn := 0;
     clock := 1738238700;
     audit := [];
     sink_faults := [];
     stdlog := [] |}.

(** The same with no pharmacy and no claim. *)
Definition empty_world : World :=
  with_tables {| pharmacies := []; claims := []; reversals := [] |}
    (with_pharmacies_id_seq 0 world).

(** The empty database whose next query runs into the statement
    time-out. *)
Definition timing_out_world : World :=
  with_db_faults [Some "pq: canceling statement due to statement timeout"]
    empty_world.

Definition logger : core.Logger := {| core.logDir := "./logs" |}.

Definition claims_service : service.ClaimsService :=
  {| service.logger := logger |}.

Definition handler : handlers.HttpHandler service.ClaimsService :=
  handlers.Build_HttpHandler claims_service.

(** [s] between double quotes. *)
Definition quoted (s : string) : string :=
  String (ascii_of_N 34) s ++ String (ascii_of_N 34) EmptyString.

(** The body of a reversal request for the sample claim. *)
Definition reversal_body : string :=
  "{" ++ quoted "claim_id" ++ ":"
      ++ quoted "550e8400-e29b-41d4-a716-446655440000" ++ ","
      ++ quoted "reason" ++ ":" ++ quoted "refund" ++ "}".

(** Decoders that know that one body. *)
Definition DecodeClaimRequest (body : string) : ClaimRequest + string :=
  inr "unexpected end of JSON input".

Definition DecodeReversalRequest (body : string)
  : ReversalRequest + string :=
  if (body =? reversal_body)%string
  then inl {| ClaimID := claim_id; Reason := "refund" |}
  else inr "unexpected end of JSON input".

End sample.

Module sample_reversal.
Import models.

Definition request : ReversalRequest :=
  {| ClaimID := sample.claim_id; Reason := "refund" |}.

(** The identifier [uuid.New] draws first in [sample.world]. *)
Definition reversal_id : uuid.UUID := uuid.v4 (entropy sample.world 0).

Definition reversal : Reversal :=
  {| Reversal_ID := reversal_id; Reversal_ClaimID := sample.claim_id;
     Reversal_Timestamp := clock sample.world |}.

Definition post : handlers.Request :=
  {| handlers.Method := "POST"; handlers.Body := sample.reversal_body |}.

(** The same body sent with GET. *)
Definition get : handlers.Request :=
  {| handlers.Method := "GET"; handlers.Body := sample.reversal_body |}.

(** The sample database when the fifth round trip to come, the commit of
    a reversal, fails. *)
Definition commit_fails : World :=
  with_db_faults [None; None; None; None; Some "pq: could not commit"]
    sample.world.

End sample_reversal.

(** ** Reversal rows *)

(** The tables with one more reversal row. *)
Definition add_reversal (r : models.Reversal) (t : Tables) : Tables :=
  {| pharmacies := pharmacies t; claims := claims t;
     reversals := reversals t ++ [r] |}.

(** The row [repository.ReverseClaim] inserts for [claimID] in [w]. *)
Definition new_reversal (claimID : uuid.UUID) (w : World) : models.Reversal :=
  {| models.Reversal_ID := uuid.v4 (entropy w (drawn w));
     models.Reversal_ClaimID := claimID;
     models.Reversal_Timestamp := clock w |}.

(** Two worlds with the same database and the same schedule of faults. *)
Definition same_db (w w' : World) : Prop :=
  tables w' = tables w
  /\ pharmacies_id_seq w' = pharmacies_id_seq w
  /\ db_faults w' = db_faults w.

(** The 500 answer of the reversal handler to an error [message]. *)
Definition failed_to_reverse (message : string) : handlers.Response :=
  {| handlers.StatusCode := 500;
     handlers.ContentType := "application/json";
     handlers.Payload :=
       handlers.DErrorResponse
         {| models.Error := "Failed to reverse claim";
            models.Message := message |} |}.

(** The 200 answer of the reversal handler. *)
Definition reversed (claimID : uuid.UUID) : handlers.Response :=
  {| handlers.StatusCode := 200;
     handlers.ContentType := "application/json";
     handlers.Payload :=
       handlers.DReversalResponse
         (Some {| models.ReversalResponse_Status := "claim reversed";
                  models.ReversalResponse_ClaimID := claimID |}) |}.

Module sample_batch.
Import models.

(** Two reversal records as a seed file may hold them: distinct
    identifiers, the same claim. *)
Definition first : Reversal :=
  {| Reversal_ID := 0x660e8400e29b41d4a716446655440001%N;
     Reversal_ClaimID := sample.claim_id;
     Reversal_Timestamp := 1738238700 |}.

Definition second : Reversal :=
  {| Reversal_ID := 0x660e8400e29b41d4a716446655440002%N;
     Reversal_ClaimID := sample.claim_id;
     Reversal_Timestamp := 1738238760 |}.

End sample_batch.

(** ** The loader *)

(** The world after a load that was skipped: the count query is over and
    one line was logged. *)
Definition skipped (line : LogLine) (w : World) : World :=
  with_stdlog (stdlog w ++ [line]) (after_roundtrip w).

(** The test at the head of [LoadPharmaciesFromData]. *)
Definition pharmacies_already_loaded : M bool :=
  service.alreadyLoaded repository.CountPharmacies
    "Warning: Failed to check pharmacy count: %v"
    "Pharmacies already loaded (%d records found), skipping data loading"
    [].

Module sample_loader.
Import models.

(** [filepath.Join] on the paths of the samples: the elements are
    joined by a slash and the path is cleaned, which takes a [./] off
    its head. *)
Definition Join (dir name : string) : string :=
  let path := dir ++ "/" ++ name in
  if String.prefix "./" path
  then String.substring 2 (String.length path - 2) path
  else path.
Definition Base (path : string) : string := path.
Definition UnmarshalClaims (data : string) : list Claim + string :=
  inr "unexpected end of JSON input".
Definition UnmarshalReversals (data : string) : list Reversal + string :=
  inr "unexpected end of JSON input".
Definition arrival (files : list string) : list string := files.

Definition loader : service.LoaderService :=
  {| service.loader_logger := sample.logger; service.batchSize := 1000 |}.

(** A data directory with nothing in it. *)
Definition no_data : service.FS :=
  {| service.IsNotExist := fun _ => true;
     service.Glob := fun _ => ([], None);
     service.Open := fun _ => inr "open: no such file or directory";
     service.ReadFile := fun _ => inr "open: no such file or directory" |}.

Definition saint_csv : list service.CsvLine :=
  [service.Fields 1 ["chain"; "npi"];
   service.Fields 2 ["saint"; "9876543210"]].

(** A data directory with one pharmacy file of one row. *)
Definition one_csv : service.FS :=
  {| service.IsNotExist := fun _ => false;
     service.Glob := fun pattern =>
       if (pattern =? "data/pharmacies/*.csv")%string
       then (["data/pharmacies/pharmacies.csv"], None)
       else ([], None);
     service.Open := fun path =>
       if (path =? "data/pharmacies/pharmacies.csv")%string
       then inl saint_csv
       else inr "open: no such file or directory";
     service.ReadFile := fun _ => inr "open: no such file or directory" |}.

Definition saint : Pharmacy :=
  {| Pharmacy_ID := 2; Pharmacy_NPI := "9876543210";
     Pharmacy_Chain := "saint" |}.

(** The sample database, with its count query about to run into the
    statement time-out. *)
Definition count_fails : World :=
  with_db_faults [Some "pq: canceling statement due to statement timeout"]
    sample.world.

(** The sample database with its claim reversed: a row in each table. *)
Definition filled : World :=
  with_tables (add_reversal sample_batch.first (tables sample.world))
    sample.world.

(** A data directory whose pharmacies directory is there and empty. *)
Definition no_csv : service.FS :=
  {| service.IsNotExist := fun _ => false;
     service.Glob := fun _ => ([], None);
     service.Open := fun _ => inr "open: no such file or directory";
     service.ReadFile := fun _ => inr "open: no such file or directory" |}.

(** A data directory whose one pharmacy file has a header and no row. *)
Definition header_only : service.FS :=
  {| service.IsNotExist := fun _ => false;
     service.Glob := fun _ => (["data/pharmacies/pharmacies.csv"], None);
     service.Open := fun _ => inl [service.Fields 1 ["chain"; "npi"]];
     service.ReadFile := fun _ => inr "open: no such file or directory" |}.

End sample_loader.

(** ** Pharmacy files *)

(** The pharmacy the loader makes of a row. *)
Definition pharmacy_of (fields : list string) : models.Pharmacy :=
  {| models.Pharmacy_ID := 0;
     models.Pharmacy_NPI := strings.TrimSpace (nth 1 fields EmptyString);
     models.Pharmacy_Chain := strings.TrimSpace (nth 0 fields EmptyString) |}.

(** A valid row: exactly two columns, the second of which is an NPI the
    validator accepts once trimmed.  Every other row, a lexically broken
    one included, is malformed. *)
Definition valid_row (l : service.CsvLine) : bool :=
  match l with
  | service.Fields _ [chain; npi] =>
      match utility.ValidateNPI (strings.TrimSpace npi) with
      | None => true
      | Some _ => false
      end
  | _ => false
  end.

Definition malformed_row (l : service.CsvLine) : bool := negb (valid_row l).

(** The records of the valid rows, in the order of the file. *)
Fixpoint valid_records (rows : list service.CsvLine) : list models.Pharmacy :=
  match rows with
  | [] => []
  | l :: rows' =>
      match l with
      | service.Fields _ fields =>
          if valid_row l then pharmacy_of fields :: valid_records rows'
          else valid_records rows'
      | service.Malformed _ _ _ => valid_records rows'
      end
  end.

(** The three log lines with which [loadPharmaciesFromCSV] passes over a
    row. *)
Definition is_skip (line : LogLine) : bool :=
  (format line =? "Error reading line %d in %s: %v")%string
  || (format line =? "Skipping invalid record at line %d: %v")%string
  || (format line =? "%v")%string.

Definition skips (w : World) : nat :=
  List.length (filter is_skip (stdlog w)).

(** The records [ps] inserted one after the other with
    [ON CONFLICT DO NOTHING], each with the next value of the sequence:
    the sequence and the tables afterwards, or [None] if a row violates a
    constraint. *)
Fixpoint store (ps : list models.Pharmacy) (seq : Z) (t : Tables)
  : option (Z * Tables) :=
  match ps with
  | [] => Some (seq, t)
  | p :: ps' =>
      match repository.insert_pharmacy true (seq + 1)
              (models.Pharmacy_NPI p) (models.Pharmacy_Chain p) t with
      | inl t' => store ps' (seq + 1) t'
      | inr _ => None
      end
  end.

(** An error of [loadPharmaciesFromCSV] that reports a failed batch
    insert. *)
Definition batch_failure (e : string) : Prop :=
  (exists m, e = "failed to process final batch: " ++ m)
  \/ (exists lineNumber m,
         e = "failed to process batch at line " ++ service.itoa lineNumber
               ++ ": " ++ m).

Module sample_csv.
Import models.

(** A file with a two-column header, a valid row, a row of one column
    and a row whose NPI has nine digits. *)
Definition mixed : list service.CsvLine :=
  [service.Fields 1 ["chain"; "npi"];
   service.Fields 2 ["saint"; " 9876543210 "];
   service.Fields 3 ["doctor"];
   service.Fields 4 ["health"; "123456789"]].

(** A file whose header and row have three columns. *)
Definition wide : list service.CsvLine :=
  [service.Fields 1 ["chain"; "npi"; "city"];
   service.Fields 2 ["saint"; "9876543210"; "Porto"]].

(** A file whose first row names a chain the schema does not allow. *)
Definition bad_chain : list service.CsvLine :=
  [service.Fields 1 ["chain"; "npi"];
   service.Fields 2 ["unknown"; "1111111111"];
   service.Fields 3 ["saint"; "9876543210"]].

Definition files (file : list service.CsvLine) : service.FS :=
  {| service.IsNotExist := fun _ => false;
     service.Glob := fun _ => (["pharmacies.csv"], None);
     service.Open := fun _ => inl file;
     service.ReadFile := fun _ => inr "open: no such file or directory" |}.

(** A loader that flushes after every record. *)
Definition eager : service.LoaderService :=
  {| service.loader_logger := sample.logger; service.batchSize := 1 |}.

Definition saint : Pharmacy :=
  {| Pharmacy_ID := 1; Pharmacy_NPI := "9876543210";
     Pharmacy_Chain := "saint" |}.

(** The error with which the load of [bad_chain] ends. *)
Definition refused : string :=
  "failed to process batch at line 2: failed to batch create pharmacies: failed to execute insert: pq: new row for relation pharmacies violates check constraint valid_chain".

End sample_csv.


(** ** Transactions *)

Module sample_tx.
Import models.

(** A batch of two pharmacies, the second of which the schema refuses. *)
Definition refused_second : list Pharmacy :=
  [{| Pharmacy_ID := 0; Pharmacy_NPI := "9876543210";
      Pharmacy_Chain := "saint" |};
   {| Pharmacy_ID := 0; Pharmacy_NPI := "1111111111";
      Pharmacy_Chain := "unknown" |}].

(** The body of a transaction that inserts the sample reversal. *)
Definition insert (tx : repository.Tx) : M error :=
  repository.Exec (repository.insert_reversal false sample_reversal.reversal).

(** The sample database when the third round trip to come fails: for
    [insert] run in a transaction, that is the commit. *)
Definition commit_fails : World :=
  with_db_faults [None; None; Some "pq: could not commit"] sample.world.

End sample_tx.

(** ** Invariants of the tables *)

(** The computation [m] keeps the property [I] of the tables. *)
Definition keeps {A : Type} (I : Tables -> Prop) (m : M A) : Prop :=
  forall w, I (tables w) -> I (tables (snd (m w))).





(** Every table of [t] starts with the rows of the same table of [t0],
    in the same order. *)
Definition extends (t0 t : Tables) : Prop :=
  (exists ps, pharmacies t = pharmacies t0 ++ ps)%list
  /\ (exists cs, claims t = claims t0 ++ cs)%list
  /\ (exists rs, reversals t = reversals t0 ++ rs)%list.

(** ** Claim rows *)

(** The tables with one more claim row. *)
Definition add_claim (c : models.Claim) (t : Tables) : Tables :=
  {| pharmacies := pharmacies t; claims := claims t ++ [c];
     reversals := reversals t |}.

(** The claim [service.SubmitClaim] makes of [request] in [w]. *)
Definition new_claim (request : models.ClaimRequest) (w : World)
  : models.Claim :=
  {| models.Claim_ID := uuid.v4 (entropy w (drawn w));
     models.Claim_NDC := models.NDC request;
     models.Claim_Quantity := models.Quantity request;
     models.Claim_NPI := models.NPI request;
     models.Claim_Price := models.Price request;
     models.Claim_Timestamp := clock w |}.

(** The claim [c] as its row keeps it: [quantity] and [price] are the
    numbers the two [DECIMAL(10,2)] columns hold. *)
Definition kept (c : models.Claim) (quantity price : float64)
  : models.Claim :=
  {| models.Claim_ID := models.Claim_ID c;
     models.Claim_NDC := models.Claim_NDC c;
     models.Claim_Quantity := quantity;
     models.Claim_NPI := models.Claim_NPI c;
     models.Claim_Price := price;
     models.Claim_Timestamp := models.Claim_Timestamp c |}.

(** The answer of [service.SubmitClaim] for the claim [id]. *)
Definition submitted (id : uuid.UUID) : models.ClaimResponse :=
  {| models.ClaimResponse_Status := "claim submitted";
     models.ClaimResponse_ClaimID := id |}.

(** ** What a request depends on *)

(** Two worlds with the same database, schedule of database faults,
    random source and clock: they may differ in the audit directory, in
    the failures [os.Create] will meet there and in the log. *)
Definition same_inputs (w w' : World) : Prop :=
  tables w' = tables w
  /\ pharmacies_id_seq w' = pharmacies_id_seq w
  /\ db_faults w' = db_faults w
  /\ entropy w' = entropy w
  /\ drawn w' = drawn w
  /\ clock w' = clock w.

(** The computation [m] returns the same value and leaves the same
    inputs in two worlds with the same inputs. *)
Definition respects {A : Type} (m : M A) : Prop :=
  forall w w',
    same_inputs w w' ->
    fst (m w') = fst (m w) /\ same_inputs (snd (m w)) (snd (m w')).

(** The sample database with an audit directory that cannot be written. *)
Definition read_only_audit : World :=
  with_sink_faults
    [Some "open: read-only file system"; Some "open: read-only file system"]
    sample.world.

(** ** Requests to [/claim] *)

Module sample_claim.
Import models.

(** The body of the sample request. *)
Definition body : string :=
  "{" ++ sample.quoted "ndc" ++ ":" ++ sample.quoted "12345678901" ++ ","
      ++ sample.quoted "quantity" ++ ":1,"
      ++ sample.quoted "npi" ++ ":" ++ sample.quoted "1234567890" ++ ","
      ++ sample.quoted "price" ++ ":25}".

(** A decoder that knows that one body. *)
Definition Decode (b : string) : ClaimRequest + string :=
  if (b =? body)%string then inl sample.request
  else inr "unexpected end of JSON input".

Definition post : handlers.Request :=
  {| handlers.Method := "POST"; handlers.Body := body |}.

End sample_claim.

(** The 201 answer of the claim handler. *)
Definition created (id : uuid.UUID) : handlers.Response :=
  {| handlers.StatusCode := 201;
     handlers.ContentType := "application/json";
     handlers.Payload := handlers.DClaimResponse (Some (submitted id)) |}.

(** ** The loads of claims and reversals *)

Module sample_json.
Import models.

(** Three claims: two of the sample pharmacy, one of an unknown one. *)
Definition first : Claim :=
  {| Claim_ID := 0x770e8400e29b41d4a716446655440001%N;
     Claim_NDC := "12345678901"; Claim_Quantity := sample.one;
     Claim_NPI := "1234567890"; Claim_Price := sample.twenty_five;
     Claim_Timestamp := 1738238400 |}.

Definition second : Claim :=
  {| Claim_ID := 0x770e8400e29b41d4a716446655440002%N;
     Claim_NDC := "12345678902"; Claim_Quantity := sample.one;
     Claim_NPI := "1234567890"; Claim_Price := sample.twenty_five;
     Claim_Timestamp := 1738238460 |}.

Definition stray : Claim :=
  {| Claim_ID := 0x770e8400e29b41d4a716446655440003%N;
     Claim_NDC := "12345678903"; Claim_Quantity := sample.one;
     Claim_NPI := "5555555555"; Claim_Price := sample.twenty_five;
     Claim_Timestamp := 1738238520 |}.

(** A decoder that knows the content of two files. *)
Definition UnmarshalClaims (data : string) : list Claim + string :=
  if (data =? "[first]")%string then inl [first]
  else if (data =? "[second, stray]")%string then inl [second; stray]
  else inr "invalid character in JSON".

(** A data directory with three claim files: one claim, text that is
    not JSON, two claims. *)
Definition three_files : service.FS :=
  {| service.IsNotExist := fun _ => false;
     service.Glob := fun _ => (["a.json"; "b.json"; "c.json"], None);
     service.Open := fun _ => inr "open: no such file or directory";
     service.ReadFile := fun path =>
       if (path =? "a.json")%string then inl "[first]"
       else if (path =? "b.json")%string then inl "first, second"
       else if (path =? "c.json")%string then inl " [second, stray] %"
       else inr "open: no such file or directory" |}.

(** A loader with batches of two. *)
Definition pairs : service.LoaderService :=
  {| service.loader_logger := sample.logger; service.batchSize := 2 |}.

(** The sample database without its claim. *)
Definition no_claims : World :=
  with_tables {| pharmacies := [sample.health]; claims := [];
                 reversals := [] |} sample.world.

(** A data directory with two claim files of claims the database
    accepts. *)
Definition two_files : service.FS :=
  {| service.IsNotExist := fun _ => false;
     service.Glob := fun _ => (["a.json"; "d.json"], None);
     service.Open := fun _ => inr "open: no such file or directory";
     service.ReadFile := fun path =>
       if (path =? "a.json")%string then inl "[first]"
       else if (path =? "d.json")%string then inl "[second]"
       else inr "open: no such file or directory" |}.

Definition UnmarshalTwo (data : string) : list Claim + string :=
  if (data =? "[first]")%string then inl [first]
  else if (data =? "[second]")%string then inl [second]
  else inr "invalid character in JSON".

(** A data directory whose listing fails. *)
Definition unreadable : service.FS :=
  {| service.IsNotExist := fun _ => false;
     service.Glob := fun _ => ([], Some "syntax error in pattern");
     service.Open := fun _ => inr "open: no such file or directory";
     service.ReadFile := fun _ => inr "open: no such file or directory" |}.

End sample_json.

(** ** Waiting for the server *)

(** The number of pings that fail before the first one that is answered,
    among the first [n] that are scheduled. *)
Fixpoint failed_pings (n : nat) (faults : list (option string)) : nat :=
  match n, faults with
  | S n', Some _ :: faults' => S (failed_pings n' faults')
  | _, _ => O
  end.

Module sample_wait.

Definition connInfo : database.Connection :=
  {| database.Host := "localhost"; database.Port := 5432;
     database.User := "pharmacy_user";
     database.Password := "pharmacy_password";
     database.DBName := "pharmacy_claims"; database.SSLMode := "disable" |}.

(** [sql.Open] with the [postgres] driver: it checks nothing and
    connects to nothing, so no connection string is refused. *)
Definition accepted (psqlInfo : string) : error := None.

(** Two seconds, in nanoseconds. *)
Definition two_seconds : Z := 2000000000.

(** The sample database when the server is up at the third ping, and
    when it is not up at all. *)
Definition up_at_third : World :=
  with_db_faults [Some "connection refused"; Some "connection refused"]
    sample.world.
Definition down : World :=
  with_db_faults
    [Some "connection refused"; Some "connection refused";
     Some "connection refused"; Some "connection refused"]
    sample.world.

End sample_wait.

(** ** Batches *)

(** The rows of a batch inserted one after the other; [None] when a row
    violates a constraint. *)
Fixpoint insert_all {T : Type} (ins : T -> Tables -> Tables + string)
         (batch : list T) (t : Tables) : option Tables :=
  match batch with
  | [] => Some t
  | x :: batch' =>
      match ins x t with
      | inl t' => insert_all ins batch' t'
      | inr _ => None
      end
  end.

(** A batch goes in as a whole or not at all. *)
Definition apply_batch {T : Type} (ins : T -> Tables -> Tables + string)
           (batch : list T) (t : Tables) : Tables :=
  match insert_all ins batch t with
  | Some t' => t'
  | None => t
  end.

(** The batches made of the items that arrive when a batch is closed as
    soon as it has [size] items; [pending] is the batch being filled, and
    what is left at the end is a last, shorter batch. *)
Fixpoint batches {T : Type} (size : Z) (pending items : list T)
  : list (list T) :=
  match items with
  | [] => if 0 <? service.len pending then [pending] else []
  | x :: items' =>
      let pending := (pending ++ [x])%list in
      if size <=? service.len pending then pending :: batches size [] items'
      else batches size pending items'
  end.

(** The items of a file, none if it cannot be loaded. *)
Definition items_of {T : Type} (fileLoader : string -> list T + string)
           (filename : string) : list T :=
  match fileLoader filename with
  | inl data => data
  | inr _ => []
  end.

(** What is still to be done to the tables [t] when [pending] is the
    batch being filled and [items] are still to come. *)
Definition remaining_batches {T : Type}
           (ins : T -> Tables -> Tables + string) (size : Z)
           (pending items : list T) (t : Tables) : Tables :=
  fold_left (fun t b => apply_batch ins b t) (batches size pending items) t.

(** The row [x] is passed over wherever its key is present. *)
Definition skipped_when_present {A : Type}
           (ins : A -> Tables -> Tables + string)
           (present : A -> Tables -> Prop) (x : A) : Prop :=
  forall t, present x t -> ins x t = inl t.

(** ** Numbers *)

Definition is_nan (x : float64) : bool :=
  match x with
  | S754_nan => true
  | _ => false
  end.

(** Greater than zero: a positive number or plus infinity. *)
Definition is_positive (x : float64) : bool :=
  match x with
  | S754_infinity false | S754_finite false _ _ => true
  | _ => false
  end.

(** Less than zero: a negative number or minus infinity. *)
Definition is_negative (x : float64) : bool :=
  match x with
  | S754_infinity true | S754_finite true _ _ => true
  | _ => false
  end.

(** ** Pharmacy files of a directory *)

(** The records of the valid rows of a pharmacy file; none if the file
    cannot be opened or has no header. *)
Definition file_records (fs : service.FS) (filename : string)
  : list models.Pharmacy :=
  match service.Open fs filename with
  | inl (_ :: rows) => valid_records rows
  | _ => []
  end.

(** A file that can be opened, has a header of two columns, and names
    one of the three chains of the schema in each of its valid rows. *)
Definition acceptable_file (fs : service.FS) (filename : string) : Prop :=
  (exists line c1 c2 rows,
      service.Open fs filename
      = inl (service.Fields line [c1; c2] :: rows))
  /\ forall p, In p (file_records fs filename) ->
               repository.valid_chain (models.Pharmacy_Chain p) = true.

(** ** The text of a JSON file *)

(** What [loadJSONFromFile] returns for the answer of the decoder. *)
Definition parsed {T : Type} (r : list T + string) : list T + string :=
  match r with
  | inr e => inr ("failed to parse JSON: " ++ e)
  | inl items => inl items
  end.

(** ** Missing data *)

(** The pharmacies table holds a row. *)
Definition stocked (t : Tables) : Prop := pharmacies t <> [].

(** What the counter of [LoadPharmaciesFromData] tells about the table:
    it is never negative, and the table holds a row once it is above
    zero. *)
Definition counted (totalLoaded : Z) (w : World) : Prop :=
  0 <= totalLoaded /\ (0 < totalLoaded -> stocked (tables w)).

(** ** Numbers with more than two decimals *)

Module sample_decimals.

(** The [float64] nearest to [n / 1000]: what the JSON decoder makes of
    a number written with three decimals. *)
Definition thousandths (n : Z) : float64 :=
  SFdiv 53 1024 (repository.of_Z n) (repository.of_Z 1000).

(** The sample request with the price 25.999. *)
Definition request : models.ClaimRequest :=
  {| models.NDC := models.NDC sample.request;
     models.Quantity := models.Quantity sample.request;
     models.NPI := models.NPI sample.request;
     models.Price := thousandths 25999 |}.

End sample_decimals.

(** ** A quantity that is not a number *)

Module sample_nan.

(** The sample request with NaN for its quantity: the validator lets it
    through. *)
Definition request : models.ClaimRequest :=
  {| models.NDC := models.NDC sample.request;
     models.Quantity := S754_nan;
     models.NPI := models.NPI sample.request;
     models.Price := models.Price sample.request |}.

End sample_nan.

(** ** Calls that may panic *)

(** The function [f] returns on every one of [xs]. *)
Definition returns_on {A B : Type} (f : A -> CustomTime.Outcome B)
           (xs : list A) : Prop :=
  forall x, In x xs -> exists r, f x = CustomTime.Returns r.

(** The results of a function of the loader where it returns.  A panic
    in a worker ends the process: the loads are described only for
    functions that return on the files they are given. *)
Definition returned {A T : Type}
           (f : A -> CustomTime.Outcome (list T + string)) (x : A)
  : list T + string :=
  match f x with
  | CustomTime.Returns r => r
  | CustomTime.Panics reason => inr reason
  end.

(** The texts [loadJSONFromFile] hands to the decoder: those of the
    files that can be read. *)
Definition texts (fs : service.FS) (files : list string) : list string :=
  flat_map (fun f => match service.ReadFile fs f with
                     | inl data =>
                         [strings.TrimSpace (strings.TrimSuffix data "%")]
                     | inr _ => []
                     end) files.
(** * Properties *)

(** ** The batch size of the loader *)

(** C6: the loader built with configured batch size [b] works with batch
    size [b] when [1 <= b <= 10000] and with the default 1000 otherwise;
    the bound 10000 itself is kept, and [NewLoaderService] yields 1000.
    The constructor has no error to return: a size it replaces leaves one
    line in the log, a size it keeps leaves nothing. *)
Theorem NewLoaderServiceWithBatchSize_batchSize :
  forall (logger : core.Logger) (b : Z) (w : World),
    service.NewLoaderServiceWithBatchSize logger b w
    = (if (1 <=? b) && (b <=? 10000)
       then ({| service.loader_logger := logger; service.batchSize := b |}, w)
       else ({| service.loader_logger := logger; service.batchSize := 1000 |},
             snd (log_Printf "Invalid batch size %d, using default %d"
                             [AInt b; AInt 1000] w)))
    /\ service.batchSize
         (fst (service.NewLoaderServiceWithBatchSize logger 10000 w)) = 10000
    /\ service.batchSize (fst (service.NewLoaderService logger w)) = 1000.
Proof.
  intros logger b w. split; [| split; reflexivity].
  unfold service.NewLoaderServiceWithBatchSize, service.MaxBatchSize,
    service.DefaultBatchSize, bind.
  destruct (b <=? 0) eqn:Hlo; destruct (10000 <? b) eqn:Hhi;
    destruct (1 <=? b) eqn:H1; destruct (b <=? 10000) eqn:H2;
    cbn; try reflexivity; lia.
Qed.

(** ** Methods the handlers refuse *)

Section MethodNotAllowed.

Variable DecodeClaimRequest : string -> models.ClaimRequest + string.
Variable DecodeReversalRequest : string -> models.ReversalRequest + string.
Context {S : Type} `{handlers.ServiceInterface S}.

(** C10: whatever the service behind the handler is, a request to
    [/claim] or [/reversal] whose method is not POST, and a request to
    [/health] whose method is not GET, is answered 405 with an
    [{error, message}] body, and the world is left as it was: no method
    of the service has run. *)
Theorem method_not_allowed_no_service_call :
  forall (h : handlers.HttpHandler S) (r : handlers.Request) (w : World),
    (handlers.Method r <> "POST" ->
       handlers.HttpHandler_SubmitClaim DecodeClaimRequest h r w
       = (method_not_allowed "Only POST method is allowed", w)
       /\ handlers.HttpHandler_ReverseClaim DecodeReversalRequest h r w
          = (method_not_allowed "Only POST method is allowed", w))
    /\ (handlers.Method r <> "GET" ->
          handlers.HttpHandler_HealthCheck h r w
          = (method_not_allowed "Only GET method is allowed", w)).
Proof.
  intros h r w. split.
  - intros Hm.
    unfold handlers.HttpHandler_SubmitClaim, handlers.HttpHandler_ReverseClaim,
      handlers.MethodPost.
    apply String.eqb_neq in Hm. rewrite Hm. cbn. split; reflexivity.
  - intros Hm.
    unfold handlers.HttpHandler_HealthCheck, handlers.MethodGet.
    apply String.eqb_neq in Hm. rewrite Hm. reflexivity.
Qed.

End MethodNotAllowed.

(** A GET sent to [/claim] and [/reversal] and a POST sent to [/health],
    in front of the claims service. *)
Lemma method_not_allowed_witness :
  (handlers.HttpHandler_SubmitClaim sample.DecodeClaimRequest
     sample.handler sample_reversal.get sample.world
   = (method_not_allowed "Only POST method is allowed", sample.world)
   /\ handlers.HttpHandler_ReverseClaim sample.DecodeReversalRequest
        sample.handler sample_reversal.get sample.world
      = (method_not_allowed "Only POST method is allowed", sample.world))
  /\ handlers.HttpHandler_HealthCheck sample.handler sample_reversal.post
       sample.world
     = (method_not_allowed "Only GET method is allowed", sample.world).
Proof.
  split.
  - apply (proj1 (method_not_allowed_no_service_call
                    sample.DecodeClaimRequest sample.DecodeReversalRequest
                    sample.handler sample_reversal.get sample.world)).
    discriminate.
  - apply (proj2 (method_not_allowed_no_service_call
                    sample.DecodeClaimRequest sample.DecodeReversalRequest
                    sample.handler sample_reversal.post sample.world)).
    discriminate.
Defined.

(** ** The validator *)

Lemma digits_all_digits :
  forall s n, strconv.digits s n <> None <-> all_digits s = true.
Proof.
  induction s as [| c s IH]; intros n; cbn.
  - split; [reflexivity | discriminate].
  - unfold is_digit, strconv.digit_val.
    assert (Hc : 0 <= strconv.byte_val c < 256).
    { unfold strconv.byte_val. pose proof (N_ascii_bounded c). lia. }
    destruct (9 <? (strconv.byte_val c - 48) mod 256) eqn:Hd.
    + split; [congruence |].
      intros Hall. apply andb_true_iff in Hall. destruct Hall as [Hall _].
      apply andb_true_iff in Hall. destruct Hall as [H1 H2].
      apply Z.leb_le in H1, H2. apply Z.ltb_lt in Hd.
      rewrite Z.mod_small in Hd by lia. lia.
    + rewrite IH. apply Z.ltb_ge in Hd.
      assert (Hr : (48 <=? strconv.byte_val c) && (strconv.byte_val c <=? 57)
                   = true).
      { destruct (Z.lt_ge_cases (strconv.byte_val c) 48) as [Hlt | Hge].
        - rewrite <- (Z.mod_add _ 1) in Hd by lia.
          rewrite Z.mod_small in Hd by lia. lia.
        - rewrite Z.mod_small in Hd by lia.
          apply andb_true_iff. split; apply Z.leb_le; lia. }
      rewrite Hr. reflexivity.
Qed.

(** On the strings of 1 to 18 bytes [Atoi] succeeds exactly on the signed
    decimals. *)
Lemma Atoi_signed_decimal :
  forall s,
    (0 < String.length s < 19)%nat ->
    (snd (strconv.Atoi s) = None <-> signed_decimal s = true).
Proof.
  intros s Hlen. unfold strconv.Atoi.
  replace ((0 <? Z.of_nat (String.length s))
           && (Z.of_nat (String.length s) <? 19)) with true
    by (symmetry; apply andb_true_iff; split; apply Z.ltb_lt; lia).
  destruct s as [| c rest]; [cbn in Hlen; lia |].
  unfold signed_decimal, unsigned_decimal.
  destruct (strconv.is_sign c).
  - destruct rest as [| c' rest'].
    + cbn. split; discriminate.
    + pose proof (digits_all_digits (String c' rest') 0) as Hd.
      destruct (strconv.digits (String c' rest') 0).
      * cbn [snd]. split; intros _; [apply Hd; discriminate | reflexivity].
      * cbn [snd]. split; [discriminate |].
        intros Hall. apply Hd in Hall. congruence.
  - pose proof (digits_all_digits (String c rest) 0) as Hd.
    destruct (strconv.digits (String c rest) 0).
    + cbn [snd]. split; intros _; [apply Hd; discriminate | reflexivity].
    + cbn [snd]. split; [discriminate |].
      intros Hall. apply Hd in Hall. congruence.
Qed.

(** What [ValidateNDC] and [ValidateNPI] let through: a signed decimal of
    the right length in bytes, the sign counted. *)
Lemma ValidateNDC_nil_iff :
  forall ndc,
    utility.ValidateNDC ndc = None
    <-> (9 <= String.length ndc <= 11)%nat /\ signed_decimal ndc = true.
Proof.
  intros ndc. unfold utility.ValidateNDC, utility.len.
  destruct ((Z.of_nat (String.length ndc) <? 9)
            || (11 <? Z.of_nat (String.length ndc))) eqn:Hlen.
  - split; [discriminate |].
    intros [Hl _]. apply orb_true_iff in Hlen.
    destruct Hlen as [Hlen | Hlen]; apply Z.ltb_lt in Hlen; lia.
  - apply orb_false_iff in Hlen. destruct Hlen as [H1 H2].
    apply Z.ltb_ge in H1, H2.
    rewrite <- Atoi_signed_decimal by lia.
    destruct (snd (strconv.Atoi ndc)).
    + split; [discriminate | intros [_ Hs]; discriminate].
    + split; [intros _; split; [lia | reflexivity] | reflexivity].
Qed.

Lemma ValidateNPI_nil_iff :
  forall npi,
    utility.ValidateNPI npi = None
    <-> String.length npi = 10%nat /\ signed_decimal npi = true.
Proof.
  intros npi. unfold utility.ValidateNPI, utility.len.
  destruct (Z.of_nat (String.length npi) =? 10) eqn:Hlen; cbn [negb].
  - apply Z.eqb_eq in Hlen.
    rewrite <- Atoi_signed_decimal by lia.
    destruct (snd (strconv.Atoi npi)).
    + split; [discriminate | intros [_ Hs]; discriminate].
    + split; [intros _; split; [lia | reflexivity] | reflexivity].
  - apply Z.eqb_neq in Hlen.
    split; [discriminate | intros [Hl _]; lia].
Qed.

(** The four checks run in the order drug code, provider identifier,
    quantity, price, and the first error is the result. *)
Lemma ValidateClaimRequest_first_error :
  forall request,
    utility.ValidateClaimRequest request =
    match utility.ValidateNDC (models.NDC request),
          utility.ValidateNPI (models.NPI request),
          utility.ValidateQuantity (models.Quantity request),
          utility.ValidatePrice (models.Price request) with
    | Some err, _, _, _ => Some err
    | None, Some err, _, _ => Some err
    | None, None, Some err, _ => Some err
    | None, None, None, r => r
    end.
Proof.
  intros request. unfold utility.ValidateClaimRequest.
  destruct (utility.ValidateNDC _); [reflexivity |].
  destruct (utility.ValidateNPI _); [reflexivity |].
  destruct (utility.ValidateQuantity _); [reflexivity |].
  destruct (utility.ValidatePrice _); reflexivity.
Qed.

(** C3: what the validator decides.  [ValidateClaimRequest] returns nil
    exactly when the drug code is a signed decimal of 9 to 11 bytes, the
    provider identifier a signed decimal of 10 bytes, the quantity is not
    [<= 0] and the price is not [< 0]; the sign, [+] or [-], counts in the
    length.  So a string of the right length that starts with a sign is
    let through although it is not a string of digits. *)
Theorem ValidateClaimRequest_nil_iff :
  forall request : models.ClaimRequest,
    utility.ValidateClaimRequest request = None
    <-> ((9 <= String.length (models.NDC request) <= 11)%nat
         /\ signed_decimal (models.NDC request) = true)
        /\ (String.length (models.NPI request) = 10%nat
            /\ signed_decimal (models.NPI request) = true)
        /\ SFleb (models.Quantity request) utility.zero = false
        /\ SFltb (models.Price request) utility.zero = false.
Proof.
  intros request. rewrite ValidateClaimRequest_first_error.
  rewrite <- ValidateNDC_nil_iff, <- ValidateNPI_nil_iff.
  unfold utility.ValidateQuantity, utility.ValidatePrice.
  destruct (utility.ValidateNDC (models.NDC request)) as [e |].
  { split; [discriminate | intros [H _]; discriminate]. }
  destruct (utility.ValidateNPI (models.NPI request)) as [e |].
  { split; [discriminate | intros (_ & H & _); discriminate]. }
  destruct (SFleb (models.Quantity request) utility.zero).
  { split; [discriminate | intros (_ & _ & H & _); discriminate]. }
  destruct (SFltb (models.Price request) utility.zero).
  { split; [discriminate | intros (_ & _ & _ & H); discriminate]. }
  split; [intros _; repeat split | reflexivity].
Qed.

(** The request with drug code [+12345678] and provider identifier
    [-123456789]: neither is made of digits, and the validator returns
    nil. *)
Lemma ValidateClaimRequest_accepts_signed :
  all_digits (models.NDC sample.signed_request) = false
  /\ all_digits (models.NPI sample.signed_request) = false
  /\ utility.ValidateNDC (models.NDC sample.signed_request) = None
  /\ utility.ValidateNPI (models.NPI sample.signed_request) = None
  /\ utility.ValidateClaimRequest sample.signed_request = None.
Proof.
  split; [reflexivity |]. split; [reflexivity |].
  split; [reflexivity |]. split; [reflexivity |].
  apply (proj2 (ValidateClaimRequest_nil_iff sample.signed_request)).
  cbn. repeat split; lia.
Defined.

(** ** Submitting a claim *)

Lemma find_pharmacy_none :
  forall npi t,
    repository.has_pharmacy_npi npi t = false ->
    find (fun p => (models.Pharmacy_NPI p =? npi)%string) (pharmacies t)
    = None.
Proof.
  intros npi t. unfold repository.has_pharmacy_npi.
  induction (pharmacies t) as [| p l IH]; cbn; [reflexivity |].
  destruct (models.Pharmacy_NPI p =? npi)%string; cbn; [discriminate | exact IH].
Qed.

Lemma GetPharmacyByNPI_absent :
  forall npi w,
    repository.has_pharmacy_npi npi (tables w) = false ->
    repository.GetPharmacyByNPI npi w
    = (match next_fault w with
       | Some e => (None, Some ("failed to get pharmacy by NPI: " ++ e))
       | None => (None, None)
       end, after_roundtrip w).
Proof.
  intros npi w Habs.
  unfold repository.GetPharmacyByNPI, repository.QueryRow, roundtrip, bind,
    next_fault, after_roundtrip.
  destruct (pop (db_faults w)) as [[e |] l]; cbn; [reflexivity |].
  rewrite (find_pharmacy_none _ _ Habs). reflexivity.
Qed.

(** C4, as the code has it: a request that fails validation gets the
    validator's error back and the world is untouched, so no call reached
    the repository; a request that passes validation but names a provider
    no pharmacy has gets an error after the one lookup round trip, which
    is the not-found error when the lookup was answered and the wrapped
    storage error when it failed; in all these cases the tables, the audit
    trail and the logs are as before. *)
Theorem SubmitClaim_rejections_persist_nothing :
  forall (cs : service.ClaimsService) (request : models.ClaimRequest)
         (w : World),
    (forall err,
        utility.ValidateClaimRequest request = Some err ->
        service.SubmitClaim cs request w = ((None, Some err), w))
    /\ (utility.ValidateClaimRequest request = None ->
        repository.has_pharmacy_npi (models.NPI request) (tables w) = false ->
        service.SubmitClaim cs request w
        = ((None,
            Some match next_fault w with
                 | None =>
                     "pharmacy with NPI " ++ models.NPI request ++ " not found"
                 | Some e =>
                     "failed to validate pharmacy: "
                       ++ "failed to get pharmacy by NPI: " ++ e
                 end),
           after_roundtrip w)
        /\ tables (after_roundtrip w) = tables w
        /\ audit (after_roundtrip w) = audit w
        /\ stdlog (after_roundtrip w) = stdlog w).
Proof.
  intros cs request w. split.
  - intros err Hv. unfold service.SubmitClaim, service.ValidateClaim.
    rewrite Hv. reflexivity.
  - intros Hv Habs. split; [| repeat split].
    unfold service.SubmitClaim, service.ValidateClaim. rewrite Hv.
    unfold bind at 1. rewrite (GetPharmacyByNPI_absent _ _ Habs).
    destruct (next_fault w); reflexivity.
Qed.

(** A request with a drug code of five digits against the database with
    one pharmacy, and a valid request against the empty database. *)
Lemma SubmitClaim_rejections_witness :
  service.SubmitClaim sample.claims_service
    {| models.NDC := "12345"; models.Quantity := sample.one;
       models.NPI := "1234567890"; models.Price := sample.twenty_five |}
    sample.world
  = ((None, Some "invalid NDC format: must be 9-11 digits"), sample.world)
  /\ fst (service.SubmitClaim sample.claims_service sample.request
            sample.empty_world)
     = (None, Some "pharmacy with NPI 1234567890 not found").
Proof.
  split.
  - apply (proj1 (SubmitClaim_rejections_persist_nothing
                    sample.claims_service _ sample.world)).
    reflexivity.
  - rewrite (proj1 (proj2 (SubmitClaim_rejections_persist_nothing
                             sample.claims_service sample.request
                             sample.empty_world)
                          eq_refl eq_refl)).
    reflexivity.
Defined.

(** C4 as stated fails when the lookup itself fails: the request is
    valid, no pharmacy has its provider identifier, and the error that
    comes back is the storage error, not the not-found error. *)
Lemma SubmitClaim_lookup_failure_is_not_not_found :
  utility.ValidateClaimRequest sample.request = None
  /\ repository.has_pharmacy_npi (models.NPI sample.request)
       (tables sample.timing_out_world) = false
  /\ fst (service.SubmitClaim sample.claims_service sample.request
            sample.timing_out_world)
     = (None,
        Some "failed to validate pharmacy: failed to get pharmacy by NPI: pq: canceling statement due to statement timeout")
  /\ fst (service.SubmitClaim sample.claims_service sample.request
            sample.timing_out_world)
     <> (None, Some ("pharmacy with NPI "
                       ++ models.NPI sample.request ++ " not found")).
Proof.
  repeat split; try reflexivity.
  vm_compute. discriminate.
Qed.

(** ** Reversing a claim *)

Lemma find_claim_id :
  forall id l c,
    find (fun c => (models.Claim_ID c =? id)%N) l = Some c ->
    models.Claim_ID c = id.
Proof.
  intros id l c Hf. apply find_some in Hf. destruct Hf as [_ Hf].
  apply N.eqb_eq in Hf. exact Hf.
Qed.

Lemma GetClaimByID_found :
  forall id w claim err w',
    repository.GetClaimByID id w = ((Some claim, err), w') ->
    models.Claim_ID claim = id.
Proof.
  intros id w claim err w'.
  unfold repository.GetClaimByID, repository.QueryRow, roundtrip, bind.
  destruct (pop (db_faults w)) as [[e |] l]; cbn; [discriminate |].
  destruct (find _ _) eqn:Hf; cbn; [| discriminate].
  intros Heq. injection Heq as <- _ _. exact (find_claim_id _ _ _ Hf).
Qed.

(** A commit that fails is not reported: [ReverseClaim] returns nil and no
    reversal row is left. *)
Lemma ReverseClaim_commit_failure_is_lost :
  fst (repository.ReverseClaim sample.claim_id "refund"
         sample_reversal.commit_fails) = None
  /\ reversals
       (tables (snd (repository.ReverseClaim sample.claim_id "refund"
                       sample_reversal.commit_fails))) = [].
Proof. split; vm_compute; reflexivity. Qed.

(** C5, as the code has it: when [ReverseClaim] succeeds, what it returns
    is the status [claim reversed] and the identifier of the claim that was
    reversed, the one of the request. *)
Theorem ReverseClaim_response_names_the_claim :
  forall (cs : service.ClaimsService) (request : models.ReversalRequest)
         (w w' : World) (response : option models.ReversalResponse),
    service.ReverseClaim cs request w = ((response, None), w') ->
    response
    = Some {| models.ReversalResponse_Status := "claim reversed";
              models.ReversalResponse_ClaimID := models.ClaimID request |}.
Proof.
  intros cs request w w' response.
  unfold service.ReverseClaim. unfold bind at 1.
  destruct (repository.GetClaimByID (models.ClaimID request) w)
    as [[claim err] w1] eqn:Hget.
  destruct err as [e |]; [discriminate |].
  destruct claim as [claim |]; [| discriminate].
  apply GetClaimByID_found in Hget.
  unfold bind at 1.
  destruct (repository.ReverseClaim _ _ w1) as [[e |] w2]; [discriminate |].
  unfold bind at 1.
  destruct (repository.GetPharmacyByNPI _ w2) as [[pharmacy perr] w3].
  unfold bind at 1.
  destruct (match perr with
            | Some e => log_Printf _ _
            | None => ret tt
            end w3) as [u w4].
  unfold bind at 1.
  destruct (core.LogEvent _ _ _ w4) as [u' w5].
  unfold ret. intros Heq. injection Heq as <- _. rewrite Hget. reflexivity.
Qed.

(** The reversal of the sample claim succeeds and returns the identifier
    of that claim. *)
Lemma ReverseClaim_response_witness :
  fst (fst (service.ReverseClaim sample.claims_service sample_reversal.request
              sample.world))
  = Some {| models.ReversalResponse_Status := "claim reversed";
            models.ReversalResponse_ClaimID := sample.claim_id |}.
Proof.
  apply (ReverseClaim_response_names_the_claim sample.claims_service
           sample_reversal.request sample.world
           (snd (service.ReverseClaim sample.claims_service
                   sample_reversal.request sample.world))).
  vm_compute. reflexivity.
Defined.

(** C5 as stated fails: the reversal of the sample claim succeeds, it
    leaves one new row in [reversals], and the identifier in the response
    is the claim's, not the one of that row. *)
Lemma ReverseClaim_response_is_not_the_reversal_id :
  fst (service.ReverseClaim sample.claims_service sample_reversal.request
         sample.world)
  = (Some {| models.ReversalResponse_Status := "claim reversed";
             models.ReversalResponse_ClaimID := sample.claim_id |}, None)
  /\ reversals (tables sample.world) = []
  /\ reversals
       (tables (snd (service.ReverseClaim sample.claims_service
                       sample_reversal.request sample.world)))
     = [sample_reversal.reversal]
  /\ sample.claim_id <> models.Reversal_ID sample_reversal.reversal.
Proof.
  split; [vm_compute; reflexivity |].
  split; [reflexivity |].
  split; [vm_compute; reflexivity |].
  vm_compute. discriminate.
Qed.

Lemma has_claim_id_find :
  forall id t,
    repository.has_claim_id id t = true ->
    exists c, find (fun c => (models.Claim_ID c =? id)%N) (claims t) = Some c.
Proof.
  intros id t. unfold repository.has_claim_id.
  induction (claims t) as [| c l IH]; cbn; [discriminate |].
  destruct (models.Claim_ID c =? id)%N; cbn; [eexists; reflexivity | exact IH].
Qed.

(** A reversal of a claim that exists and is already reversed, on a
    database that answers: the repository reports [claim already
    reversed], the service wraps it, and nothing changes. *)
Lemma service_ReverseClaim_already_reversed :
  forall cs request w,
    db_faults w = [] ->
    repository.has_claim_id (models.ClaimID request) (tables w) = true ->
    repository.has_reversal_of (models.ClaimID request) (tables w) = true ->
    service.ReverseClaim cs request w
    = ((None, Some "failed to reverse claim: claim already reversed"), w).
Proof.
  intros cs request w Hf Hc Hr.
  destruct (has_claim_id_find _ _ Hc) as [c Hfind].
  destruct w as [t seq faults ent dr clk aud sf lg]. cbn in *. subst faults.
  unfold service.ReverseClaim, repository.GetClaimByID, repository.QueryRow,
    roundtrip, bind, get_tables, ret. cbn.
  rewrite Hfind. cbn.
  unfold repository.ReverseClaim, repository.ExecuteInTransaction,
    repository.BeginTx, repository.QueryExists, repository.QueryRow,
    repository.Rollback, roundtrip, bind, get_tables, put_tables, ret. cbn.
  rewrite Hc. cbn. rewrite Hr. cbn. destruct t; reflexivity.
Qed.

Lemma same_db_refl : forall w, same_db w w.
Proof. intros w. repeat split. Qed.

Lemma same_db_trans :
  forall w1 w2 w3, same_db w1 w2 -> same_db w2 w3 -> same_db w1 w3.
Proof.
  intros w1 w2 w3 (H1 & H2 & H3) (H4 & H5 & H6).
  repeat split; congruence.
Qed.

Lemma log_Printf_same_db :
  forall fmt a w, same_db w (snd (log_Printf fmt a w)).
Proof. intros. repeat split. Qed.

Lemma LogEvent_same_db :
  forall l eventType payload w,
    same_db w (snd (core.LogEvent l eventType payload w)).
Proof.
  intros l eventType payload w.
  unfold core.LogEvent, core.os_Create, core.write_file, uuid_New,
    log_Printf, bind. cbn.
  destruct (pop (sink_faults w)) as [[e |] sf]; cbn; [repeat split |].
  destruct (core.encodable payload); repeat split.
Qed.

Lemma has_reversal_of_add :
  forall id r t,
    models.Reversal_ClaimID r = id ->
    repository.has_reversal_of id (add_reversal r t) = true.
Proof.
  intros id r t Hr. unfold repository.has_reversal_of, add_reversal. cbn.
  rewrite existsb_app. cbn. rewrite Hr, N.eqb_refl.
  rewrite orb_true_r. reflexivity.
Qed.

(** The transactional path on a database that answers: a claim that
    exists and has no reversal gets exactly one new row. *)
Lemma repository_ReverseClaim_fresh :
  forall claimID reason w,
    db_faults w = [] ->
    repository.has_claim_id claimID (tables w) = true ->
    repository.has_reversal_of claimID (tables w) = false ->
    repository.has_reversal_id (uuid.v4 (entropy w (drawn w))) (tables w)
    = false ->
    repository.ReverseClaim claimID reason w
    = (None,
       with_drawn (S (drawn w))
         (with_tables (add_reversal (new_reversal claimID w) (tables w)) w)).
Proof.
  intros claimID reason w Hf Hc Hr Hid.
  destruct w as [t seq faults ent dr clk aud sf lg]. cbn in *. subst faults.
  unfold repository.ReverseClaim, repository.ExecuteInTransaction,
    repository.BeginTx, repository.QueryExists, repository.QueryRow,
    repository.Exec, repository.Commit, repository.Rollback,
    roundtrip, bind, get_tables, put_tables, uuid_New, time_Now, ret. cbn.
  rewrite Hc. cbn. rewrite Hr. cbn.
  unfold repository.insert_reversal. cbn. rewrite Hid, Hc. cbn.
  reflexivity.
Qed.

(** The first reversal of a claim, seen from the service. *)
Lemma service_ReverseClaim_fresh :
  forall cs request w,
    db_faults w = [] ->
    repository.has_claim_id (models.ClaimID request) (tables w) = true ->
    repository.has_reversal_of (models.ClaimID request) (tables w) = false ->
    repository.has_reversal_id (uuid.v4 (entropy w (drawn w))) (tables w)
    = false ->
    exists w1,
      service.ReverseClaim cs request w
      = ((Some {| models.ReversalResponse_Status := "claim reversed";
                  models.ReversalResponse_ClaimID := models.ClaimID request |},
          None), w1)
      /\ tables w1
         = add_reversal (new_reversal (models.ClaimID request) w) (tables w)
      /\ db_faults w1 = [].
Proof.
  intros cs request w Hf Hc Hr Hid.
  destruct (has_claim_id_find _ _ Hc) as [c Hfind].
  pose proof (find_claim_id _ _ _ Hfind) as Hcid.
  unfold service.ReverseClaim. unfold bind at 1.
  assert (Hget : repository.GetClaimByID (models.ClaimID request) w
                 = ((Some c, None), w)).
  { destruct w as [t seq faults ent dr clk aud sf lg]. cbn in *. subst faults.
    unfold repository.GetClaimByID, repository.QueryRow, roundtrip, bind,
      get_tables, ret. cbn. rewrite Hfind. reflexivity. }
  rewrite Hget. unfold bind at 1.
  rewrite (repository_ReverseClaim_fresh _ _ _ Hf Hc Hr Hid).
  set (w2 := with_drawn _ _).
  unfold bind at 1.
  assert (Hph : exists pharmacy,
             repository.GetPharmacyByNPI (models.Claim_NPI c) w2
             = ((pharmacy, None), w2)).
  { subst w2. destruct w as [t seq faults ent dr clk aud sf lg].
    cbn in *. subst faults.
    unfold repository.GetPharmacyByNPI, repository.QueryRow, roundtrip, bind,
      get_tables, ret. cbn.
    destruct (find _ (pharmacies t)); eexists; reflexivity. }
  destruct Hph as [pharmacy Hph]. rewrite Hph.
  unfold bind at 1. unfold ret at 1. unfold bind at 1.
  pose proof (LogEvent_same_db (service.logger cs) "claim_reversed"
                (let logPayload :=
                   [("claim_id", VString (uuid.String (models.Claim_ID c)));
                    ("original_ndc", VString (models.Claim_NDC c));
                    ("original_quantity", VFloat (models.Claim_Quantity c));
                    ("original_npi", VString (models.Claim_NPI c));
                    ("original_price", VFloat (models.Claim_Price c));
                    ("reason", VString (models.Reason request))] in
                 match pharmacy with
                 | Some pharmacy0 =>
                     (logPayload
                        ++ [("chain", VString (models.Pharmacy_Chain pharmacy0))])%list
                 | None => logPayload
                 end) w2) as (Ht & _ & Hfl).
  cbv zeta in Ht, Hfl.
  destruct (core.LogEvent _ _ _ w2) as [u w3].
  cbn [snd] in Ht, Hfl.
  exists w3. unfold ret. rewrite Hcid. split; [reflexivity |].
  rewrite Ht, Hfl. subst w2. split; [reflexivity |]. exact Hf.
Qed.

(** C2: what the code does when the same claim is reversed twice.  On a
    database that answers, for a claim that exists and is not reversed yet,
    the first POST /reversal is answered 200; the second one is answered
    500 [Failed to reverse claim], not 409: the error of the repository,
    [claim already reversed], reaches the handler wrapped by the service
    and is not the text [claim is already reversed] the handler looks
    for. *)
Theorem second_reversal_is_answered_500 :
  forall (Decode : string -> models.ReversalRequest + string)
         (cs : service.ClaimsService) (body : string)
         (request : models.ReversalRequest) (w : World),
    Decode body = inl request ->
    models.ClaimID request <> uuid.Nil ->
    db_faults w = [] ->
    repository.has_claim_id (models.ClaimID request) (tables w) = true ->
    repository.has_reversal_of (models.ClaimID request) (tables w) = false ->
    repository.has_reversal_id (uuid.v4 (entropy w (drawn w))) (tables w)
    = false ->
    let h := handlers.Build_HttpHandler cs in
    let post := {| handlers.Method := "POST"; handlers.Body := body |} in
    let (first, w1) := handlers.HttpHandler_ReverseClaim Decode h post w in
    let (second, w2) := handlers.HttpHandler_ReverseClaim Decode h post w1 in
    first = reversed (models.ClaimID request)
    /\ second
       = failed_to_reverse "failed to reverse claim: claim already reversed"
    /\ handlers.StatusCode second <> 409
    /\ w2 = w1.
Proof.
  intros Decode cs body request w Hdec Hnil Hf Hc Hr Hid h post.
  apply N.eqb_neq in Hnil.
  destruct (service_ReverseClaim_fresh cs request w Hf Hc Hr Hid)
    as (w1 & Hfirst & Ht1 & Hf1).
  assert (Hc1 : repository.has_claim_id (models.ClaimID request) (tables w1)
                = true) by (rewrite Ht1; exact Hc).
  assert (Hr1 : repository.has_reversal_of (models.ClaimID request) (tables w1)
                = true) by (rewrite Ht1; apply has_reversal_of_add; reflexivity).
  pose proof (service_ReverseClaim_already_reversed cs request w1 Hf1 Hc1 Hr1)
    as Hsecond.
  unfold handlers.HttpHandler_ReverseClaim, handlers.MethodPost. subst post h.
  cbn [handlers.Method handlers.Body handlers.service String.eqb Ascii.eqb
       Bool.eqb negb].
  rewrite Hdec, Hnil.
  unfold handlers.ReverseClaim, handlers.ClaimsService_ServiceInterface.
  unfold bind at 1. rewrite Hfirst.
  unfold handlers.sendJSONResponse at 1. unfold ret at 1.
  unfold bind at 1. rewrite Hsecond.
  cbn. repeat split. discriminate.
Qed.

(** The sample claim reversed twice through the handler. *)
Lemma second_reversal_witness :
  fst (handlers.HttpHandler_ReverseClaim sample.DecodeReversalRequest
         sample.handler sample_reversal.post sample.world)
  = reversed sample.claim_id
  /\ fst (handlers.HttpHandler_ReverseClaim sample.DecodeReversalRequest
            sample.handler sample_reversal.post
            (snd (handlers.HttpHandler_ReverseClaim
                    sample.DecodeReversalRequest sample.handler
                    sample_reversal.post sample.world)))
     = failed_to_reverse "failed to reverse claim: claim already reversed".
Proof.
  pose proof (second_reversal_is_answered_500 sample.DecodeReversalRequest
                sample.claims_service sample.reversal_body
                sample_reversal.request sample.world) as H.
  cbv zeta in H. fold sample.handler in H. fold sample_reversal.post in H.
  destruct (handlers.HttpHandler_ReverseClaim sample.DecodeReversalRequest
              sample.handler sample_reversal.post sample.world)
    as [first w1].
  cbn [fst snd].
  destruct (handlers.HttpHandler_ReverseClaim sample.DecodeReversalRequest
              sample.handler sample_reversal.post w1) as [second w2].
  cbn [fst].
  destruct H as (H1 & H2 & _).
  - reflexivity.
  - discriminate.
  - reflexivity.
  - reflexivity.
  - reflexivity.
  - reflexivity.
  - split; assumption.
Defined.

Lemma claim_with_ID_text :
  forall x : string,
    ("claim with ID " ++ x =? "claim is already reversed")%string = false.
Proof. intros x. reflexivity. Qed.

(** No error of [service.ReverseClaim] has the text the handler maps to
    409. *)
Lemma service_ReverseClaim_error_text :
  forall cs request w response e w',
    service.ReverseClaim cs request w = ((response, Some e), w') ->
    (e =? "claim is already reversed")%string = false.
Proof.
  intros cs request w response e w'.
  unfold service.ReverseClaim.
  generalize (uuid.String (models.ClaimID request)). intros idtext.
  unfold bind at 1.
  destruct (repository.GetClaimByID _ w) as [[claim err] w1].
  destruct err as [e0 |].
  { unfold ret. intros Heq. injection Heq as _ <- _. reflexivity. }
  destruct claim as [claim |].
  2:{ unfold ret. intros Heq. injection Heq as _ <- _.
      apply claim_with_ID_text. }
  unfold bind at 1.
  destruct (repository.ReverseClaim _ _ w1) as [[e1 |] w2].
  { unfold ret. intros Heq. injection Heq as _ <- _. reflexivity. }
  unfold bind at 1.
  destruct (repository.GetPharmacyByNPI _ w2) as [[pharmacy perr] w3].
  unfold bind at 1.
  destruct (match perr with
            | Some e => log_Printf _ _
            | None => ret tt
            end w3) as [u w4].
  unfold bind at 1.
  destruct (core.LogEvent _ _ _ w4) as [u' w5].
  unfold ret. discriminate.
Qed.

(** So the reversal handler in front of the claims service answers 409 in
    no world and to no request. *)
Lemma reversal_handler_never_answers_409 :
  forall (Decode : string -> models.ReversalRequest + string)
         (cs : service.ClaimsService) (r : handlers.Request) (w : World),
    handlers.StatusCode
      (fst (handlers.HttpHandler_ReverseClaim Decode
              (handlers.Build_HttpHandler cs) r w)) <> 409.
Proof.
  intros Decode cs r w. unfold handlers.HttpHandler_ReverseClaim.
  destruct (negb _); [cbn; discriminate |].
  destruct (Decode _) as [request | err]; [| cbn; discriminate].
  destruct (_ =? uuid.Nil)%N; [cbn; discriminate |].
  unfold handlers.ReverseClaim, handlers.ClaimsService_ServiceInterface.
  cbn [handlers.service]. unfold bind.
  destruct (service.ReverseClaim cs request w) as [[response err] w1] eqn:Hs.
  destruct err as [e |]; [| cbn; discriminate].
  rewrite (service_ReverseClaim_error_text _ _ _ _ _ _ Hs).
  destruct (_ =? _)%string; cbn; discriminate.
Qed.

(** ** At most one reversal per claim *)

Lemma has_reversal_of_false_not_In :
  forall id t,
    repository.has_reversal_of id t = false ->
    ~ In id (map models.Reversal_ClaimID (reversals t)).
Proof.
  intros id t. unfold repository.has_reversal_of.
  induction (reversals t) as [| r l IH]; cbn; [tauto |].
  intros Hex. apply orb_false_iff in Hex. destruct Hex as [Hr Hl].
  apply N.eqb_neq in Hr. intros [Heq | Hin]; [congruence | exact (IH Hl Hin)].
Qed.

Lemma at_most_one_reversal_add :
  forall r t,
    at_most_one_reversal t ->
    repository.has_reversal_of (models.Reversal_ClaimID r) t = false ->
    at_most_one_reversal (add_reversal r t).
Proof.
  intros r t Hinv Hnew. unfold at_most_one_reversal, add_reversal. cbn.
  rewrite map_app. cbn.
  apply (Permutation_NoDup
           (l := models.Reversal_ClaimID r
                   :: map models.Reversal_ClaimID (reversals t))).
  - apply Permutation_cons_append.
  - constructor; [apply has_reversal_of_false_not_In; exact Hnew | exact Hinv].
Qed.

(** The transactional path keeps the invariant, whatever the schedule of
    faults: it inserts only after it has found no reversal of the claim. *)
Lemma repository_ReverseClaim_keeps_at_most_one :
  forall claimID reason w,
    at_most_one_reversal (tables w) ->
    at_most_one_reversal (tables (snd (repository.ReverseClaim claimID reason w))).
Proof.
  intros claimID reason w Hinv.
  destruct w as [t seq faults ent dr clk aud sf lg]. cbn in Hinv.
  unfold repository.ReverseClaim, repository.ExecuteInTransaction,
    repository.BeginTx, repository.QueryExists, repository.QueryRow,
    repository.Exec, repository.Commit, repository.Rollback,
    roundtrip, bind, get_tables, put_tables, uuid_New, time_Now, ret. cbn.
  repeat match goal with
  | |- _ => exact Hinv
  | |- context [pop ?l] => destruct l as [| [? |] ?]; cbn
  | |- context [repository.has_claim_id ?a ?b] =>
      destruct (repository.has_claim_id a b) eqn:?; cbn
  | |- context [repository.has_reversal_of ?a ?b] =>
      destruct (repository.has_reversal_of a b) eqn:?; cbn
  | |- context [repository.insert_reversal ?a ?b ?c] =>
      unfold repository.insert_reversal; cbn
  | |- context [repository.has_reversal_id ?a ?b] =>
      destruct (repository.has_reversal_id a b) eqn:?; cbn
  end.
  all: apply (at_most_one_reversal_add
                {| models.Reversal_ID := uuid.v4 (ent dr);
                   models.Reversal_ClaimID := claimID;
                   models.Reversal_Timestamp := clk |} t Hinv); assumption.
Qed.

(** C1: what the bulk path does.  On a database that answers, a batch of
    two reversal records with fresh, distinct identifiers and the same
    claim is accepted whole: both rows are in [reversals] afterwards, and
    the claim has two reversals.  The only unique key of the table is
    [id], on which the records do not collide. *)
Theorem BatchCreateReversals_two_reversals_of_one_claim :
  forall (r1 r2 : models.Reversal) (w : World),
    db_faults w = [] ->
    repository.has_claim_id (models.Reversal_ClaimID r1) (tables w) = true ->
    models.Reversal_ClaimID r2 = models.Reversal_ClaimID r1 ->
    repository.has_reversal_id (models.Reversal_ID r1) (tables w) = false ->
    repository.has_reversal_id (models.Reversal_ID r2) (tables w) = false ->
    models.Reversal_ID r1 <> models.Reversal_ID r2 ->
    let (err, w') := repository.BatchCreateReversals [r1; r2] w in
    err = None
    /\ reversals (tables w') = (reversals (tables w) ++ [r1; r2])%list
    /\ ~ at_most_one_reversal (tables w').
Proof.
  intros r1 r2 w Hf Hc Hsame Hid1 Hid2 Hne.
  destruct w as [t seq faults ent dr clk aud sf lg]. cbn in *. subst faults.
  unfold repository.BatchCreateReversals, repository.batchInsert,
    repository.exec_rows, repository.BeginTx, repository.Exec,
    repository.Commit, repository.Rollback,
    roundtrip, bind, get_tables, put_tables, ret. cbn.
  unfold repository.insert_reversal at 1. cbn. rewrite Hid1, Hc. cbn.
  unfold repository.insert_reversal at 1.
  assert (Hid2' : repository.has_reversal_id (models.Reversal_ID r2)
                    {| pharmacies := pharmacies t; claims := claims t;
                       reversals := reversals t ++ [r1] |} = false).
  { unfold repository.has_reversal_id in *. cbn. rewrite existsb_app, Hid2.
    cbn. apply N.eqb_neq in Hne. rewrite Hne. reflexivity. }
  rewrite Hid2'. cbn.
  unfold repository.has_claim_id in *. cbn. rewrite Hsame, Hc. cbn.
  split; [reflexivity |].
  split; [rewrite <- app_assoc; reflexivity |].
  unfold at_most_one_reversal. cbn. rewrite !map_app. cbn. rewrite Hsame.
  rewrite <- app_assoc. cbn.
  intros Hnd. apply NoDup_remove_2 in Hnd. apply Hnd.
  apply in_or_app. right. left. reflexivity.
Qed.

(** The two sample records loaded into the sample database. *)
Lemma BatchCreateReversals_witness :
  fst (repository.BatchCreateReversals
         [sample_batch.first; sample_batch.second] sample.world) = None
  /\ reversals
       (tables (snd (repository.BatchCreateReversals
                       [sample_batch.first; sample_batch.second]
                       sample.world)))
     = [sample_batch.first; sample_batch.second]
  /\ ~ at_most_one_reversal
         (tables (snd (repository.BatchCreateReversals
                         [sample_batch.first; sample_batch.second]
                         sample.world))).
Proof.
  pose proof (BatchCreateReversals_two_reversals_of_one_claim
                sample_batch.first sample_batch.second sample.world) as H.
  destruct (repository.BatchCreateReversals
              [sample_batch.first; sample_batch.second] sample.world)
    as [err w'].
  cbn [fst snd]. apply H.
  - reflexivity.
  - reflexivity.
  - reflexivity.
  - reflexivity.
  - reflexivity.
  - discriminate.
Defined.

(** ** The loader: tables that are already filled *)

Lemma next_fault_None :
  forall w, next_fault w = None ->
            pop (db_faults w) = (None, snd (pop (db_faults w))).
Proof.
  intros w. unfold next_fault. destruct (pop (db_faults w)) as [o l].
  cbn. intros ->. reflexivity.
Qed.

Lemma alreadyLoaded_counted :
  forall tableName count warning skipping name w,
    next_fault w = None ->
    0 < count (tables w) ->
    service.alreadyLoaded (repository.countRows tableName count)
      warning skipping name w
    = (true,
       skipped {| format := skipping;
                  args := (name ++ [AInt (count (tables w))])%list |} w).
Proof.
  intros tableName count warning skipping name w Hnf Hpos.
  unfold service.alreadyLoaded, repository.countRows, repository.QueryRow,
    roundtrip, bind, get_tables, ret, skipped, after_roundtrip, log_Printf.
  rewrite (next_fault_None _ Hnf). cbn.
  apply Z.ltb_lt in Hpos. rewrite Hpos. reflexivity.
Qed.

Lemma len_pos : forall (A : Type) (l : list A), l <> [] -> 0 < service.len l.
Proof.
  intros A [| a l] Hne; [congruence |]. unfold service.len. cbn. lia.
Qed.

Section Skip.

Variable Join : string -> string -> string.
Variable Base : string -> string.
Variable UnmarshalClaims : string -> list models.Claim + string.
Variable UnmarshalReversals : string -> list models.Reversal + string.
Variable arrival : list string -> list string.
Variable fs : service.FS.

(** C7, as the code has it: when the count query of a table is answered
    and reports at least one row, the load of that entity type returns
    nil at once; the tables, the sequence and the audit trail are as
    before, and the only trace is one log line. *)
Theorem loaders_skip_counted_tables :
  forall (ls : service.LoaderService) (dataDir : string) (w : World),
    next_fault w = None ->
    (pharmacies (tables w) <> [] ->
     service.LoadPharmaciesFromData Join fs ls dataDir w
     = (None,
        skipped
          {| format :=
               "Pharmacies already loaded (%d records found), skipping data loading";
             args := [AInt (service.len (pharmacies (tables w)))] |} w))
    /\ (claims (tables w) <> [] ->
        service.LoadClaimsFromData Join Base UnmarshalClaims arrival fs
          ls dataDir w
        = (None,
           skipped
             {| format :=
                  "%s already loaded (%d records found), skipping data loading";
                args := [AStr "claims";
                         AInt (service.len (claims (tables w)))] |} w))
    /\ (reversals (tables w) <> [] ->
        service.LoadReversalsFromData Join Base UnmarshalReversals arrival
          fs ls dataDir w
        = (None,
           skipped
             {| format :=
                  "%s already loaded (%d records found), skipping data loading";
                args := [AStr "reversals";
                         AInt (service.len (reversals (tables w)))] |} w))
    /\ (forall line,
           tables (skipped line w) = tables w
           /\ pharmacies_id_seq (skipped line w) = pharmacies_id_seq w
           /\ audit (skipped line w) = audit w).
Proof.
  intros ls dataDir w Hnf. repeat split.
  - intros Hne.
    unfold service.LoadPharmaciesFromData, repository.CountPharmacies.
    unfold bind at 1.
    rewrite (alreadyLoaded_counted _ _ _ _ _ _ Hnf (len_pos _ _ Hne)).
    reflexivity.
  - intros Hne.
    unfold service.LoadClaimsFromData, service.loadDataFromFiles,
      repository.CountClaims.
    unfold bind at 1.
    rewrite (alreadyLoaded_counted _ _ _ _ _ _ Hnf (len_pos _ _ Hne)).
    reflexivity.
  - intros Hne.
    unfold service.LoadReversalsFromData, service.loadDataFromFiles,
      repository.CountReversals.
    unfold bind at 1.
    rewrite (alreadyLoaded_counted _ _ _ _ _ _ Hnf (len_pos _ _ Hne)).
    reflexivity.
Qed.

End Skip.

(** The three loads against a database with a row in each table. *)
Lemma loaders_skip_witness :
  service.LoadPharmaciesFromData sample_loader.Join sample_loader.one_csv
    sample_loader.loader "./data" sample_loader.filled
  = (None,
     skipped
       {| format :=
            "Pharmacies already loaded (%d records found), skipping data loading";
          args := [AInt 1] |} sample_loader.filled)
  /\ service.LoadClaimsFromData sample_loader.Join sample_loader.Base
       sample_loader.UnmarshalClaims sample_loader.arrival
       sample_loader.one_csv sample_loader.loader "./data"
       sample_loader.filled
     = (None,
        skipped
          {| format :=
               "%s already loaded (%d records found), skipping data loading";
             args := [AStr "claims"; AInt 1] |} sample_loader.filled)
  /\ service.LoadReversalsFromData sample_loader.Join sample_loader.Base
       sample_loader.UnmarshalReversals sample_loader.arrival
       sample_loader.one_csv sample_loader.loader "./data"
       sample_loader.filled
     = (None,
        skipped
          {| format :=
               "%s already loaded (%d records found), skipping data loading";
             args := [AStr "reversals"; AInt 1] |} sample_loader.filled).
Proof.
  pose proof (loaders_skip_counted_tables
                sample_loader.Join sample_loader.Base
                sample_loader.UnmarshalClaims
                sample_loader.UnmarshalReversals sample_loader.arrival
                sample_loader.one_csv sample_loader.loader "./data"
                sample_loader.filled eq_refl) as (Hp & Hc & Hr & _).
  split; [| split].
  - apply Hp. discriminate.
  - apply Hc. discriminate.
  - apply Hr. discriminate.
Defined.

(** C7 as stated fails when the count query fails: the table has one
    pharmacy, the loader logs a warning, goes on, and inserts the row of
    the file. *)
Lemma LoadPharmaciesFromData_loads_when_count_fails :
  pharmacies (tables sample_loader.count_fails) = [sample.health]
  /\ fst (service.LoadPharmaciesFromData sample_loader.Join
            sample_loader.one_csv sample_loader.loader "./data"
            sample_loader.count_fails) = None
  /\ pharmacies
       (tables (snd (service.LoadPharmaciesFromData sample_loader.Join
                       sample_loader.one_csv sample_loader.loader "./data"
                       sample_loader.count_fails)))
     = [sample.health; sample_loader.saint].
Proof.
  split; [reflexivity |]. split; vm_compute; reflexivity.
Qed.

(** ** The loader: missing data *)

Lemma alreadyLoaded_not_skipped :
  forall tableName count warning skipping name w,
    count (tables w) <= 0 \/ next_fault w <> None ->
    fst (service.alreadyLoaded (repository.countRows tableName count)
           warning skipping name w) = false.
Proof.
  intros tableName count warning skipping name w Hc.
  unfold service.alreadyLoaded, repository.countRows, repository.QueryRow,
    roundtrip, bind, get_tables, ret, log_Printf.
  unfold next_fault in Hc.
  destruct (pop (db_faults w)) as [[e |] l]; cbn in *; [reflexivity |].
  destruct Hc as [Hc | Hc]; [| congruence].
  apply Z.ltb_ge in Hc. rewrite Hc. reflexivity.
Qed.

(** C8 as stated fails when the table is already filled: the pharmacies
    directory does not exist, and [LoadPharmaciesFromData] returns nil. *)
Lemma LoadPharmaciesFromData_nil_without_directory :
  service.IsNotExist sample_loader.no_data
    (sample_loader.Join "./data" "pharmacies") = true
  /\ fst (service.LoadPharmaciesFromData sample_loader.Join
            sample_loader.no_data sample_loader.loader "./data"
            sample.world) = None.
Proof. split; reflexivity. Qed.

(** ** The loader: pharmacy files *)

Lemma skips_log_Printf :
  forall fmt a w,
    skips (snd (log_Printf fmt a w))
    = (skips w + (if is_skip {| format := fmt; args := a |} then 1 else 0))%nat.
Proof.
  intros fmt a w. unfold skips, log_Printf. cbn [snd stdlog with_stdlog].
  rewrite filter_app, length_app. cbn [filter].
  destruct (is_skip _); reflexivity.
Qed.

Lemma LogEvent_skips :
  forall l eventType payload w,
    skips (snd (core.LogEvent l eventType payload w)) = skips w.
Proof.
  intros l eventType payload w.
  unfold core.LogEvent, core.os_Create, core.write_file, uuid_New, bind.
  cbn [snd fst].
  destruct (pop (sink_faults _)) as [[e |] sf].
  - rewrite skips_log_Printf. cbn. apply Nat.add_0_r.
  - destruct (core.encodable payload).
    + reflexivity.
    + rewrite skips_log_Printf. cbn. apply Nat.add_0_r.
Qed.

(** The audit events of a batch leave the database and the count of
    skipped rows alone. *)
Lemma forEach_LogEvent :
  forall (A : Type) (l : core.Logger) (eventType : string)
         (payload : A -> list (string * Value)) (xs : list A) (w : World),
    same_db w (snd (forEach xs (fun x => core.LogEvent l eventType (payload x)) w))
    /\ skips (snd (forEach xs (fun x => core.LogEvent l eventType (payload x)) w))
       = skips w.
Proof.
  intros A l eventType payload xs.
  induction xs as [| x xs IH]; intros w; cbn [forEach].
  - split; [apply same_db_refl | reflexivity].
  - unfold bind.
    pose proof (LogEvent_same_db l eventType (payload x) w) as Hdb.
    pose proof (LogEvent_skips l eventType (payload x) w) as Hsk.
    destruct (core.LogEvent l eventType (payload x) w) as [u w1].
    cbn [snd] in Hdb, Hsk.
    destruct (IH w1) as [Hdb' Hsk'].
    split; [exact (same_db_trans _ _ _ Hdb Hdb') | congruence].
Qed.

Lemma store_app :
  forall ps qs seq t,
    store (ps ++ qs) seq t
    = match store ps seq t with
      | Some (seq', t') => store qs seq' t'
      | None => None
      end.
Proof.
  induction ps as [| p ps IH]; intros qs seq t; cbn [store app].
  - reflexivity.
  - destruct (repository.insert_pharmacy _ _ _ _ _); [apply IH | reflexivity].
Qed.

(** The statements of a pharmacy batch that all succeed are the inserts
    of [store]. *)
Lemma exec_rows_store :
  forall ps w w',
    repository.exec_rows
      (fun p => repository.ExecPharmacy true (models.Pharmacy_NPI p)
                  (models.Pharmacy_Chain p)) ps w = (None, w') ->
    store ps (pharmacies_id_seq w) (tables w)
    = Some (pharmacies_id_seq w', tables w')
    /\ stdlog w' = stdlog w.
Proof.
  induction ps as [| p ps IH]; intros w w'; cbn [repository.exec_rows store].
  - unfold ret. intros Heq. injection Heq as <-. split; reflexivity.
  - unfold bind at 1. unfold repository.ExecPharmacy at 1.
    unfold bind at 1. unfold roundtrip at 1.
    destruct (pop (db_faults w)) as [[e |] l].
    + unfold ret. discriminate.
    + unfold bind at 1. unfold repository.nextval at 1.
      unfold bind at 1. unfold get_tables at 1.
      cbn [tables with_pharmacies_id_seq with_db_faults pharmacies_id_seq].
      destruct (repository.insert_pharmacy true (pharmacies_id_seq w + 1)
                  (models.Pharmacy_NPI p) (models.Pharmacy_Chain p) (tables w))
        as [t' | e].
      * unfold bind at 1. unfold put_tables at 1. unfold ret at 1.
        intros Hrest. apply IH in Hrest.
        cbn [tables with_tables pharmacies_id_seq with_pharmacies_id_seq
             with_db_faults stdlog] in Hrest.
        exact Hrest.
      * unfold ret. discriminate.
Qed.

Lemma BatchCreatePharmacies_store :
  forall ps w w',
    repository.BatchCreatePharmacies ps w = (None, w') ->
    store ps (pharmacies_id_seq w) (tables w)
    = Some (pharmacies_id_seq w', tables w')
    /\ stdlog w' = stdlog w.
Proof.
  intros ps w w'.
  unfold repository.BatchCreatePharmacies, repository.batchInsert.
  unfold bind at 1. unfold repository.BeginTx, bind at 1, roundtrip at 1.
  destruct (pop (db_faults w)) as [[e |] l]; [unfold ret; discriminate |].
  unfold bind at 1, get_tables at 1, ret at 1.
  unfold bind at 1, roundtrip at 1.
  cbn [db_faults with_db_faults tables].
  destruct (pop l) as [[e |] l1].
  { unfold repository.Rollback, put_tables, bind, ret. discriminate. }
  unfold bind at 1.
  destruct (repository.exec_rows _ ps _) as [[e |] w1] eqn:Hrows.
  { unfold repository.Rollback, put_tables, bind, ret. discriminate. }
  apply exec_rows_store in Hrows.
  cbn [tables pharmacies_id_seq with_db_faults stdlog] in Hrows.
  unfold repository.Commit, bind, roundtrip.
  destruct (pop (db_faults w1)) as [[e |] l2].
  { unfold put_tables, ret. discriminate. }
  unfold ret. intros Heq. injection Heq as <-. exact Hrows.
Qed.

Lemma processPharmaciesBatch_store :
  forall ls ps w w',
    service.processPharmaciesBatch ls ps w = (None, w') ->
    store ps (pharmacies_id_seq w) (tables w)
    = Some (pharmacies_id_seq w', tables w')
    /\ skips w' = skips w.
Proof.
  intros ls ps w w'. unfold service.processPharmaciesBatch.
  unfold bind at 1.
  destruct (repository.BatchCreatePharmacies ps w) as [[e |] w1] eqn:Hb.
  { unfold ret. discriminate. }
  apply BatchCreatePharmacies_store in Hb. destruct Hb as [Hst Hlog].
  unfold bind.
  pose proof (forEach_LogEvent models.Pharmacy (service.loader_logger ls)
                "pharmacy_loaded"
                (fun pharmacy =>
                   [("npi", VString (models.Pharmacy_NPI pharmacy));
                    ("chain", VString (models.Pharmacy_Chain pharmacy))])
                ps w1) as [(Ht & Hs & _) Hsk].
  destruct (forEach ps _ w1) as [u w2]. cbn [snd] in Ht, Hs, Hsk.
  unfold ret. intros Heq. injection Heq as <-.
  rewrite Ht, Hs, Hsk. split; [exact Hst |].
  unfold skips. rewrite Hlog. reflexivity.
Qed.

Lemma log_then :
  forall (A : Type) fmt a (k : M A) w,
    (log_Printf fmt a ;;; k) w = k (snd (log_Printf fmt a w)).
Proof. reflexivity. Qed.

Lemma len_nonpos_nil :
  forall (A : Type) (l : list A), (0 <? service.len l) = false -> l = [].
Proof.
  intros A [| a l] H; [reflexivity |].
  apply Z.ltb_ge in H. unfold service.len in H. cbn in H. lia.
Qed.

Lemma len_app_one :
  forall (A : Type) (l : list A) (a : A),
    service.len (l ++ [a]) = service.len l + 1.
Proof.
  intros A l a. unfold service.len. rewrite length_app. cbn. lia.
Qed.

Lemma len_cons :
  forall (A : Type) (l : list A) (a : A),
    service.len (a :: l) = service.len l + 1.
Proof. intros A l a. unfold service.len. cbn [List.length]. lia. Qed.

Lemma readLoop_store :
  forall ls filename lines batch totalLoaded lineNumber w n w',
    service.readLoop ls filename 2 lines batch totalLoaded lineNumber w
    = ((n, None), w') ->
    n = totalLoaded + service.len batch + service.len (valid_records lines)
    /\ skips w' = (skips w + List.length (filter malformed_row lines))%nat
    /\ store (batch ++ valid_records lines) (pharmacies_id_seq w) (tables w)
       = Some (pharmacies_id_seq w', tables w').
Proof.
  intros ls filename lines.
  induction lines as [| l lines IH];
    intros batch totalLoaded lineNumber w n w'.
  - cbn [service.readLoop valid_records filter List.length].
    unfold service.finish. rewrite app_nil_r, Nat.add_0_r.
    destruct (0 <? service.len batch) eqn:Hb.
    + unfold bind.
      destruct (service.processPharmaciesBatch ls batch w) as [[e |] w1] eqn:Hp;
        unfold ret; [discriminate |].
      intros Heq. injection Heq as <- <-.
      apply processPharmaciesBatch_store in Hp. destruct Hp as [Hst Hsk].
      unfold service.len at 3. cbn. split; [lia | split; assumption].
    + apply len_nonpos_nil in Hb. subst batch.
      unfold ret. intros Heq. injection Heq as <- <-.
      unfold service.len. cbn. split; [lia | split; reflexivity].
  - cbn [service.readLoop].
    destruct l as [line fields | line column reason].
    + unfold service.readRecord.
      replace (0 <? 2) with true by reflexivity.
      destruct (service.len fields =? 2) eqn:Hlen; cbn [negb].
      * (* two columns *)
        assert (Hab : exists a b, fields = [a; b]).
        { apply Z.eqb_eq in Hlen. unfold service.len in Hlen.
          destruct fields as [| a [| b [| c fields']]]; cbn in Hlen; try lia.
          exists a, b. reflexivity. }
        destruct Hab as (a & b & ->).
        replace (service.len [a; b] <? 2) with false by reflexivity.
        cbn [nth models.Pharmacy_NPI valid_records filter].
        unfold malformed_row at 1. cbn [valid_row].
        destruct (utility.ValidateNPI (strings.TrimSpace b)) as [e |] eqn:Hv;
          cbn [negb List.length].
        -- (* the NPI is refused: one log line *)
           rewrite log_then. intros Hrun. apply IH in Hrun.
           rewrite skips_log_Printf in Hrun. cbn [is_skip format] in Hrun.
           cbn in Hrun. destruct Hrun as (Hn & Hsk & Hst).
           split; [exact Hn | split; [lia | exact Hst]].
        -- (* the row is taken *)
           change {| models.Pharmacy_ID := 0;
                     models.Pharmacy_NPI := strings.TrimSpace b;
                     models.Pharmacy_Chain := strings.TrimSpace a |}
             with (pharmacy_of [a; b]).
           destruct (service.batchSize ls
                     <=? service.len (batch ++ [pharmacy_of [a; b]])) eqn:Hfull.
           ++ unfold bind at 1.
              destruct (service.processPharmaciesBatch ls
                          (batch ++ [pharmacy_of [a; b]]) w)
                as [[e |] w1] eqn:Hp; cbv beta iota;
                [unfold ret; discriminate |].
              apply processPharmaciesBatch_store in Hp.
              destruct Hp as [Hst1 Hsk1].
              intros Hrun. apply IH in Hrun.
              destruct Hrun as (Hn & Hsk & Hst).
              rewrite len_app_one in Hn. rewrite len_cons.
              split; [unfold service.len in *; cbn in *; lia |].
              split; [lia |].
              replace (batch ++ pharmacy_of [a; b] :: valid_records lines)%list
                with ((batch ++ [pharmacy_of [a; b]]) ++ valid_records lines)%list
                by (rewrite <- app_assoc; reflexivity).
              rewrite store_app, Hst1. exact Hst.
           ++ intros Hrun. apply IH in Hrun.
              destruct Hrun as (Hn & Hsk & Hst).
              rewrite len_app_one in Hn. rewrite len_cons.
              split; [lia | split; [exact Hsk |]].
              rewrite <- app_assoc in Hst. exact Hst.
      * (* another number of columns: the reader reports it *)
        assert (Hinvalid : valid_row (service.Fields line fields) = false).
        { apply Z.eqb_neq in Hlen. unfold service.len in Hlen.
          destruct fields as [| a [| b [| c fields']]]; cbn in Hlen;
            try reflexivity. lia. }
        cbn [valid_records filter]. unfold malformed_row at 1.
        rewrite Hinvalid. cbn [negb List.length].
        replace (("record on line " ++ service.itoa line
                    ++ ": wrong number of fields" =? service.EOF)%string)
          with false by reflexivity.
        rewrite log_then. intros Hrun. apply IH in Hrun.
        rewrite skips_log_Printf in Hrun. cbn [is_skip format] in Hrun.
        cbn in Hrun. destruct Hrun as (Hn & Hsk & Hst).
        split; [exact Hn | split; [lia | exact Hst]].
    + (* a line the reader cannot lex *)
      unfold service.readRecord.
      cbn [valid_records filter]. unfold malformed_row at 1.
      cbn [valid_row negb List.length].
      replace (("parse error on line " ++ service.itoa line ++ ", column "
                  ++ service.itoa column ++ ": " ++ reason
                =? service.EOF)%string)
        with false by reflexivity.
      rewrite log_then. intros Hrun. apply IH in Hrun.
      rewrite skips_log_Printf in Hrun. cbn [is_skip format] in Hrun.
      cbn in Hrun. destruct Hrun as (Hn & Hsk & Hst).
      split; [exact Hn | split; [lia | exact Hst]].
Qed.

Lemma valid_records_length :
  forall rows,
    List.length (valid_records rows) = List.length (filter valid_row rows).
Proof.
  induction rows as [| l rows IH]; [reflexivity |].
  cbn [valid_records filter].
  destruct l as [line fields | line column reason].
  - destruct (valid_row (service.Fields line fields)); cbn [List.length];
      congruence.
  - cbn [valid_row]. exact IH.
Qed.

(** C9, as the code has it: take a pharmacy file whose header has two
    columns and whose load ends without an error, that is, no batch
    insert failed.  With N valid rows and M malformed rows after the
    header, the load reports N records, it has passed over M rows with
    one log line each, and what it handed to the batch inserts is exactly
    the records of the valid rows in the order of the file: the sequence
    and the tables are those [store] leaves. *)
Theorem loadPharmaciesFromCSV_two_column_file :
  forall (fs : service.FS) (ls : service.LoaderService) (filename : string)
         (line : Z) (c1 c2 : string) (rows : list service.CsvLine)
         (w w' : World) (n : Z),
    service.Open fs filename = inl (service.Fields line [c1; c2] :: rows) ->
    service.loadPharmaciesFromCSV fs ls filename w = ((n, None), w') ->
    n = Z.of_nat (List.length (filter valid_row rows))
    /\ skips w' = (skips w + List.length (filter malformed_row rows))%nat
    /\ store (valid_records rows) (pharmacies_id_seq w) (tables w)
       = Some (pharmacies_id_seq w', tables w').
Proof.
  intros fs ls filename line c1 c2 rows w w' n Hopen.
  unfold service.loadPharmaciesFromCSV. rewrite Hopen.
  unfold service.NewReader, service.Read.
  cbn [service.rest service.FieldsPerRecord service.readRecord].
  replace (0 <? 0) with false by reflexivity.
  replace (0 =? 0) with true by reflexivity.
  replace (service.len [c1; c2]) with 2 by reflexivity.
  cbn [service.rest service.FieldsPerRecord].
  intros Hrun. apply readLoop_store in Hrun.
  destruct Hrun as (Hn & Hsk & Hst).
  rewrite <- valid_records_length.
  split; [exact Hn | split; [exact Hsk | exact Hst]].
Qed.

(** The mixed sample file loaded into the empty database: one record
    loaded, two rows passed over. *)
Lemma loadPharmaciesFromCSV_witness :
  fst (service.loadPharmaciesFromCSV (sample_csv.files sample_csv.mixed)
         sample_loader.loader "pharmacies.csv" sample.empty_world)
  = (1, None)
  /\ skips (snd (service.loadPharmaciesFromCSV
                   (sample_csv.files sample_csv.mixed) sample_loader.loader
                   "pharmacies.csv" sample.empty_world)) = 2%nat
  /\ pharmacies
       (tables (snd (service.loadPharmaciesFromCSV
                       (sample_csv.files sample_csv.mixed)
                       sample_loader.loader "pharmacies.csv"
                       sample.empty_world)))
     = [sample_csv.saint].
Proof.
  destruct (service.loadPharmaciesFromCSV (sample_csv.files sample_csv.mixed)
              sample_loader.loader "pharmacies.csv" sample.empty_world)
    as [[n err] w'] eqn:Hrun.
  assert (Herr : err = None).
  { apply (f_equal (fun r => snd (fst r))) in Hrun.
    vm_compute in Hrun. congruence. }
  subst err.
  destruct (loadPharmaciesFromCSV_two_column_file
              (sample_csv.files sample_csv.mixed) sample_loader.loader
              "pharmacies.csv" 1 "chain" "npi" (tl sample_csv.mixed)
              sample.empty_world w' n eq_refl Hrun) as (Hn & Hsk & Hst).
  cbn [fst snd].
  split; [rewrite Hn; reflexivity |].
  split; [rewrite Hsk; reflexivity |].
  assert (Hs : store (valid_records (tl sample_csv.mixed))
                 (pharmacies_id_seq sample.empty_world)
                 (tables sample.empty_world)
               = Some (1, {| pharmacies := [sample_csv.saint];
                             claims := []; reversals := [] |}))
    by reflexivity.
  rewrite Hs in Hst. injection Hst as _ Ht. rewrite <- Ht. reflexivity.
Defined.

(** C9 as stated fails twice.  In a file whose header has three columns
    the row of three columns, malformed by the count of its columns, is
    inserted.  And with a batch of one record, a first row that the
    database refuses ends the file: the second row, a valid one, is never
    read, nothing is inserted, and no row was passed over with a log
    line. *)
Lemma loadPharmaciesFromCSV_wide_row_and_abort :
  (valid_row (service.Fields 2 ["saint"; "9876543210"; "Porto"]) = false
   /\ fst (service.loadPharmaciesFromCSV (sample_csv.files sample_csv.wide)
             sample_loader.loader "pharmacies.csv" sample.empty_world)
      = (1, None)
   /\ pharmacies
        (tables (snd (service.loadPharmaciesFromCSV
                        (sample_csv.files sample_csv.wide)
                        sample_loader.loader "pharmacies.csv"
                        sample.empty_world)))
      = [sample_csv.saint])
  /\ (List.length (filter valid_row (tl sample_csv.bad_chain)) = 2%nat
      /\ fst (service.loadPharmaciesFromCSV
                (sample_csv.files sample_csv.bad_chain) sample_csv.eager
                "pharmacies.csv" sample.empty_world)
         = (0, Some sample_csv.refused)
      /\ pharmacies
           (tables (snd (service.loadPharmaciesFromCSV
                           (sample_csv.files sample_csv.bad_chain)
                           sample_csv.eager "pharmacies.csv"
                           sample.empty_world)))
         = []
      /\ skips (snd (service.loadPharmaciesFromCSV
                       (sample_csv.files sample_csv.bad_chain)
                       sample_csv.eager "pharmacies.csv"
                       sample.empty_world)) = 0%nat).
Proof.
  split.
  - split; [reflexivity |]. split; vm_compute; reflexivity.
  - split; [reflexivity |]. split; [vm_compute; reflexivity |].
    split; vm_compute; reflexivity.
Qed.

Lemma finish_error_is_batch_failure :
  forall ls batch totalLoaded w n e w',
    service.finish ls batch totalLoaded w = ((n, Some e), w') ->
    batch_failure e.
Proof.
  intros ls batch totalLoaded w n e w'. unfold service.finish.
  destruct (0 <? service.len batch); [| unfold ret; discriminate].
  unfold bind.
  destruct (service.processPharmaciesBatch ls batch w) as [[e0 |] w1];
    unfold ret; [| discriminate].
  intros Heq. injection Heq as _ <- _. left. exists e0. reflexivity.
Qed.

(** Whatever the header, a file load that ends in an error ends in the
    error of a failed batch insert: no malformed row ends it. *)
Lemma readLoop_error_is_batch_failure :
  forall ls filename lines fieldsPerRecord batch totalLoaded lineNumber
         w n e w',
    service.readLoop ls filename fieldsPerRecord lines batch totalLoaded
      lineNumber w = ((n, Some e), w') ->
    batch_failure e.
Proof.
  intros ls filename lines.
  induction lines as [| l lines IH];
    intros fieldsPerRecord batch totalLoaded lineNumber w n e w';
    cbn [service.readLoop].
  - apply finish_error_is_batch_failure.
  - destruct (service.readRecord fieldsPerRecord l) as [[record err] fpr].
    destruct err as [e0 |].
    + destruct (e0 =? service.EOF)%string.
      * apply finish_error_is_batch_failure.
      * rewrite log_then. apply IH.
    + destruct (service.len record <? 2); [rewrite log_then; apply IH |].
      destruct (utility.ValidateNPI _); [rewrite log_then; apply IH |].
      destruct (service.batchSize ls <=? _); [| apply IH].
      unfold bind at 1.
      destruct (service.processPharmaciesBatch ls _ w) as [[e0 |] w1];
        cbv beta iota.
      * unfold ret. intros Heq. injection Heq as _ <- _.
        right. exists (lineNumber + 1), e0. reflexivity.
      * apply IH.
Qed.

(** The column checks of an insert into [claims], one after the other;
    what is left is the row that passes them all. *)
Ltac claim_columns :=
  unfold repository.insert_claim;
  try (destruct (repository.varchar 11 _) as [ndc' |]);
  try (destruct (repository.numeric_10_2 (models.Claim_Quantity _))
         as [quantity' | ?]);
  try (destruct (repository.varchar 10 _) as [npi' |]);
  try (destruct (repository.numeric_10_2 (models.Claim_Price _))
         as [price' | ?]);
  try discriminate.

(** ** Transactions *)

Lemma batchInsert_error_rolls_back :
  forall (A : Type) (exec : A -> M error) (values : list A) (w w' : World)
         (e : string),
    repository.batchInsert exec values w = (Some e, w') ->
    tables w' = tables w.
Proof.
  intros A exec values w w' e.
  unfold repository.batchInsert, repository.BeginTx.
  unfold bind at 1. unfold bind at 1. unfold roundtrip at 1.
  destruct (pop (db_faults w)) as [[e0 |] l].
  { unfold ret. intros Heq. injection Heq as _ <-. reflexivity. }
  unfold bind at 1. unfold get_tables at 1. unfold ret at 1.
  cbn [tables with_db_faults].
  unfold bind at 1. unfold roundtrip at 1.
  cbn [db_faults with_db_faults].
  destruct (pop l) as [[e1 |] l1].
  { unfold repository.Rollback, put_tables, bind, ret.
    intros Heq. injection Heq as _ <-. reflexivity. }
  unfold bind at 1.
  destruct (repository.exec_rows exec values _) as [[e2 |] w2].
  { unfold repository.Rollback, put_tables, bind, ret.
    intros Heq. injection Heq as _ <-. reflexivity. }
  unfold repository.Commit, bind, roundtrip.
  destruct (pop (db_faults w2)) as [[e3 |] l3].
  - unfold put_tables, ret. intros Heq. injection Heq as _ <-. reflexivity.
  - unfold ret. discriminate.
Qed.

(** X1: a bulk insert is all or nothing.  When [BatchCreatePharmacies],
    [BatchCreateClaims] or [BatchCreateReversals] returns an error, be it
    from the begin, the prepare, one of the rows or the commit, the three
    tables are what they were before the call: the rows of the batch that
    had gone in are rolled back. *)
Theorem bulk_insert_error_leaves_the_tables :
  forall (w w' : World) (e : string),
    (forall ps,
        repository.BatchCreatePharmacies ps w = (Some e, w') ->
        tables w' = tables w)
    /\ (forall cs,
           repository.BatchCreateClaims cs w = (Some e, w') ->
           tables w' = tables w)
    /\ (forall rs,
           repository.BatchCreateReversals rs w = (Some e, w') ->
           tables w' = tables w).
Proof.
  intros w w' e. repeat split; intros values;
    apply batchInsert_error_rolls_back.
Qed.

(** A batch whose first row is accepted and whose second row has a chain
    the schema refuses: the error comes back and the first row is gone
    too. *)
Lemma bulk_insert_error_witness :
  fst (repository.BatchCreatePharmacies sample_tx.refused_second
         sample.empty_world)
  = Some "failed to execute insert: pq: new row for relation pharmacies violates check constraint valid_chain"
  /\ tables (snd (repository.BatchCreatePharmacies sample_tx.refused_second
                    sample.empty_world))
     = tables sample.empty_world.
Proof.
  split; [vm_compute; reflexivity |].
  apply (proj1 (bulk_insert_error_leaves_the_tables sample.empty_world
                  (snd (repository.BatchCreatePharmacies
                          sample_tx.refused_second sample.empty_world))
                  "failed to execute insert: pq: new row for relation pharmacies violates check constraint valid_chain")
               sample_tx.refused_second).
  vm_compute. reflexivity.
Defined.

(** X2: [ExecuteInTransaction] returns the error of the function it runs
    and never the one of the commit.  If the transaction cannot begin the
    function is not run.  Otherwise the result is the result of the
    function; the tables are those the function left only when it
    returned nil and the commit went through, and those from before the
    call in every other case, a failed commit included, which the caller
    cannot tell from a success. *)
Theorem ExecuteInTransaction_returns_fn_error :
  forall (fn : repository.Tx -> M error) (w : World),
    (forall e,
        next_fault w = Some e ->
        repository.ExecuteInTransaction fn w
        = (Some ("failed to begin transaction: " ++ e), after_roundtrip w))
    /\ (next_fault w = None ->
        forall err w1,
          fn (tables w) (after_roundtrip w) = (err, w1) ->
          fst (repository.ExecuteInTransaction fn w) = err
          /\ tables (snd (repository.ExecuteInTransaction fn w))
             = match err, next_fault w1 with
               | None, None => tables w1
               | _, _ => tables w
               end).
Proof.
  intros fn w.
  unfold repository.ExecuteInTransaction, repository.BeginTx, next_fault,
    after_roundtrip.
  split.
  - intros e He.
    unfold bind at 1. unfold bind at 1. unfold roundtrip at 1.
    destruct (pop (db_faults w)) as [o l]. cbn in He. subst o. reflexivity.
  - intros He err w1 Hfn.
    destruct (bind _ _ w) as [r w2] eqn:Hrun. cbn [fst snd].
    revert Hrun.
    unfold bind at 1, bind at 1, roundtrip at 1.
    destruct (pop (db_faults w)) as [o l]. cbn in He. subst o.
    cbn [snd] in Hfn.
    unfold bind at 1, get_tables at 1, ret at 1.
    cbn [tables with_db_faults].
    unfold bind at 1. rewrite Hfn.
    destruct err as [e |].
    + unfold repository.Rollback, put_tables, bind, ret.
      intros Heq. injection Heq as <- <-. split; reflexivity.
    + unfold repository.Commit, bind, roundtrip.
      destruct (pop (db_faults w1)) as [[e |] l1];
        unfold put_tables, ret; intros Heq; injection Heq as <- <-;
        split; reflexivity.
Qed.

(** The sample reversal inserted in a transaction whose commit fails: the
    result is nil and the row is not there. *)
Lemma ExecuteInTransaction_witness :
  fst (repository.ExecuteInTransaction sample_tx.insert
         sample_tx.commit_fails) = None
  /\ tables (snd (repository.ExecuteInTransaction sample_tx.insert
                    sample_tx.commit_fails))
     = tables sample.world.
Proof.
  apply (proj2 (ExecuteInTransaction_returns_fn_error
                  sample_tx.insert sample_tx.commit_fails) eq_refl None
               (snd (sample_tx.insert (tables sample_tx.commit_fails)
                       (after_roundtrip sample_tx.commit_fails)))).
  vm_compute. reflexivity.
Defined.

Lemma repository_ReverseClaim_cases :
  forall claimID reason w err w',
    repository.ReverseClaim claimID reason w = (err, w') ->
    tables w' = tables w
    \/ (err = None
        /\ repository.has_claim_id claimID (tables w) = true
        /\ repository.has_reversal_of claimID (tables w) = false
        /\ tables w'
           = add_reversal (new_reversal claimID w) (tables w)).
Proof.
  intros claimID reason w err w' Hrun.
  apply (f_equal (fun p => (fst p, tables (snd p)))) in Hrun.
  cbn [fst snd] in Hrun. revert Hrun.
  destruct w as [t seq faults ent dr clk aud sf lg].
  unfold repository.ReverseClaim, repository.ExecuteInTransaction,
    repository.BeginTx, repository.QueryExists, repository.QueryRow,
    repository.Exec, repository.Commit, repository.Rollback,
    roundtrip, bind, get_tables, put_tables, uuid_New, time_Now, ret,
    new_reversal. cbn.
  repeat match goal with
  | |- (_, ?a) = (_, _) -> _ =>
      let H := fresh in intros H; injection H as <- <-
  | |- ?a = ?a \/ _ => left; reflexivity
  | |- context [pop ?l] => destruct l as [| [? |] ?]; cbn
  | |- context [repository.has_claim_id ?a ?b] =>
      destruct (repository.has_claim_id a b) eqn:?; cbn
  | |- context [repository.has_reversal_of ?a ?b] =>
      destruct (repository.has_reversal_of a b) eqn:?; cbn
  | |- context [repository.insert_reversal ?a ?b ?c] =>
      unfold repository.insert_reversal; cbn
  | |- context [repository.has_reversal_id ?a ?b] =>
      destruct (repository.has_reversal_id a b) eqn:?; cbn
  end.
  all: right; repeat split; assumption.
Qed.

(** X3: what [repository.ReverseClaim] does to the tables, whatever the
    schedule of faults.  Either it leaves them as they were, or it has
    returned nil for a claim that was stored and had no reversal, and the
    one change is a new row of [reversals] for that claim, with a fresh
    version-4 identifier and the time of the call.  An error always means
    that nothing changed. *)
Theorem repository_ReverseClaim_effect :
  forall (claimID : uuid.UUID) (reason : string) (w : World),
    let (err, w') := repository.ReverseClaim claimID reason w in
    (err <> None -> tables w' = tables w)
    /\ (tables w' = tables w
        \/ (err = None
            /\ repository.has_claim_id claimID (tables w) = true
            /\ repository.has_reversal_of claimID (tables w) = false
            /\ tables w'
               = add_reversal (new_reversal claimID w) (tables w))).
Proof.
  intros claimID reason w.
  destruct (repository.ReverseClaim claimID reason w) as [err w'] eqn:Hrun.
  apply repository_ReverseClaim_cases in Hrun.
  split; [| exact Hrun].
  destruct Hrun as [Hsame | (-> & _)]; [intros _; exact Hsame |].
  intros Hne. contradiction Hne. reflexivity.
Qed.

(** The first reversal of the sample claim adds the row, the second one
    fails and adds nothing. *)
Lemma repository_ReverseClaim_witness :
  tables (snd (repository.ReverseClaim sample.claim_id "refund" sample.world))
  = add_reversal (new_reversal sample.claim_id sample.world)
      (tables sample.world)
  /\ tables (snd (repository.ReverseClaim sample.claim_id "refund"
                    sample_loader.filled))
     = tables sample_loader.filled.
Proof.
  split.
  - pose proof (repository_ReverseClaim_effect sample.claim_id "refund"
                  sample.world) as H.
    destruct (repository.ReverseClaim sample.claim_id "refund" sample.world)
      as [err w'] eqn:Hrun.
    destruct H as [_ [H | (_ & _ & _ & H)]]; [| exact H].
    apply (f_equal (fun p => reversals (tables (snd p)))) in Hrun.
    cbn [snd] in Hrun. rewrite H in Hrun. vm_compute in Hrun.
    discriminate.
  - pose proof (repository_ReverseClaim_effect sample.claim_id "refund"
                  sample_loader.filled) as H.
    destruct (repository.ReverseClaim sample.claim_id "refund"
                sample_loader.filled) as [err w'] eqn:Hrun.
    apply (proj1 H).
    apply (f_equal fst) in Hrun. cbn [fst] in Hrun. rewrite <- Hrun.
    vm_compute. discriminate.
Defined.

(** ** Invariants of the tables *)

Section Keeps.

Variable I : Tables -> Prop.

Lemma keeps_ret : forall (A : Type) (a : A), keeps I (ret a).
Proof. intros A a w Hw. exact Hw. Qed.

Lemma keeps_bind :
  forall (A B : Type) (m : M A) (k : A -> M B),
    keeps I m -> (forall a, keeps I (k a)) -> keeps I (bind m k).
Proof.
  intros A B m k Hm Hk w Hw. unfold bind.
  specialize (Hm w Hw). destruct (m w) as [a w1]. apply Hk. exact Hm.
Qed.

Lemma keeps_same_tables :
  forall (A : Type) (m : M A),
    (forall w, tables (snd (m w)) = tables w) -> keeps I m.
Proof. intros A m Hm w Hw. rewrite Hm. exact Hw. Qed.

Lemma keeps_roundtrip : keeps I roundtrip.
Proof.
  apply keeps_same_tables. intros w. unfold roundtrip.
  destruct (pop (db_faults w)); reflexivity.
Qed.

Lemma keeps_get_tables : keeps I get_tables.
Proof. apply keeps_same_tables. reflexivity. Qed.

Lemma keeps_log_Printf : forall fmt a, keeps I (log_Printf fmt a).
Proof. intros. apply keeps_same_tables. reflexivity. Qed.

Lemma keeps_uuid_New : keeps I uuid_New.
Proof. apply keeps_same_tables. reflexivity. Qed.

Lemma keeps_time_Now : keeps I time_Now.
Proof. apply keeps_same_tables. reflexivity. Qed.

Lemma keeps_nextval : keeps I repository.nextval.
Proof. apply keeps_same_tables. reflexivity. Qed.

Lemma keeps_LogEvent :
  forall l eventType payload, keeps I (core.LogEvent l eventType payload).
Proof.
  intros. apply keeps_same_tables. intros w.
  apply (LogEvent_same_db l eventType payload w).
Qed.

Lemma keeps_forEach :
  forall (A : Type) (body : A -> M unit) (l : list A),
    (forall a, keeps I (body a)) -> keeps I (forEach l body).
Proof.
  intros A body l Hbody. induction l as [| x l IH]; cbn [forEach].
  - apply keeps_ret.
  - apply keeps_bind; [apply Hbody | intros _; exact IH].
Qed.

Lemma keeps_QueryRow :
  forall (A : Type) (select : Tables -> option A),
    keeps I (repository.QueryRow select).
Proof.
  intros A select. unfold repository.QueryRow.
  apply keeps_bind; [apply keeps_roundtrip |].
  intros [e |]; [apply keeps_ret |].
  apply keeps_bind; [apply keeps_get_tables |].
  intros t. destruct (select t); apply keeps_ret.
Qed.

Lemma keeps_Exec :
  forall stmt : Tables -> Tables + string,
    (forall t t', stmt t = inl t' -> I t -> I t') ->
    keeps I (repository.Exec stmt).
Proof.
  intros stmt Hstmt w Hw.
  unfold repository.Exec, roundtrip, bind, get_tables, put_tables, ret.
  destruct (pop (db_faults w)) as [[e |] l]; cbn; [exact Hw |].
  destruct (stmt (tables w)) as [t' | e] eqn:Hs; cbn; [| exact Hw].
  exact (Hstmt _ _ Hs Hw).
Qed.

Lemma keeps_ExecPharmacy :
  forall (do_nothing : bool) (npi chain : string),
    (forall id t t',
        repository.insert_pharmacy do_nothing id npi chain t = inl t' ->
        I t -> I t') ->
    keeps I (repository.ExecPharmacy do_nothing npi chain).
Proof.
  intros do_nothing npi chain Hstmt w Hw.
  unfold repository.ExecPharmacy, repository.nextval, roundtrip, bind,
    get_tables, put_tables, ret.
  destruct (pop (db_faults w)) as [[e |] l]; cbn; [exact Hw |].
  destruct (repository.insert_pharmacy _ _ _ _ _) as [t' | e] eqn:Hs; cbn;
    [| exact Hw].
  exact (Hstmt _ _ _ Hs Hw).
Qed.

Lemma keeps_exec_rows :
  forall (A : Type) (exec : A -> M error) (values : list A),
    (forall a, keeps I (exec a)) ->
    keeps I (repository.exec_rows exec values).
Proof.
  intros A exec values Hexec.
  induction values as [| row rest IH]; cbn [repository.exec_rows].
  - apply keeps_ret.
  - apply keeps_bind; [apply Hexec |].
    intros [e |]; [apply keeps_ret | exact IH].
Qed.

(** A transaction goes back to tables that had the property, or stays
    where its statements, which keep it, have brought it. *)
Lemma keeps_batchInsert :
  forall (A : Type) (exec : A -> M error) (values : list A),
    (forall a, keeps I (exec a)) ->
    keeps I (repository.batchInsert exec values).
Proof.
  intros A exec values Hexec w Hw.
  pose proof (keeps_exec_rows A exec values Hexec) as Hrows.
  unfold repository.batchInsert, repository.BeginTx.
  unfold bind at 1. unfold bind at 1. unfold roundtrip at 1.
  destruct (pop (db_faults w)) as [[e0 |] l]; [exact Hw |].
  unfold bind at 1. unfold get_tables at 1. unfold ret at 1.
  cbn [tables with_db_faults].
  unfold bind at 1. unfold roundtrip at 1.
  cbn [db_faults with_db_faults].
  destruct (pop l) as [[e1 |] l1]; [exact Hw |].
  unfold bind at 1.
  specialize (Hrows (with_db_faults l1 (with_db_faults l w)) Hw).
  destruct (repository.exec_rows exec values _) as [[e2 |] w2];
    [exact Hw |].
  unfold repository.Commit, bind, roundtrip.
  destruct (pop (db_faults w2)) as [[e3 |] l3]; [exact Hw | exact Hrows].
Qed.

Lemma keeps_ExecuteInTransaction :
  forall fn : repository.Tx -> M error,
    (forall tx, keeps I (fn tx)) ->
    keeps I (repository.ExecuteInTransaction fn).
Proof.
  intros fn Hfn w Hw.
  unfold repository.ExecuteInTransaction, repository.BeginTx.
  unfold bind at 1. unfold bind at 1. unfold roundtrip at 1.
  destruct (pop (db_faults w)) as [[e0 |] l]; [exact Hw |].
  unfold bind at 1. unfold get_tables at 1. unfold ret at 1.
  cbn [tables with_db_faults].
  unfold bind at 1.
  specialize (Hfn (tables w) (with_db_faults l w) Hw).
  destruct (fn (tables w) (with_db_faults l w)) as [[e1 |] w1];
    [exact Hw |].
  unfold repository.Commit, bind, roundtrip.
  destruct (pop (db_faults w1)) as [[e2 |] l2]; [exact Hw | exact Hfn].
Qed.

End Keeps.

Create HintDb keeps.

#[local] Hint Resolve keeps_ret keeps_roundtrip keeps_get_tables
  keeps_log_Printf keeps_uuid_New keeps_time_Now keeps_nextval
  keeps_LogEvent keeps_QueryRow : keeps.

(** One step through a computation: a bind, a case distinction on what
    was computed, or a computation that is known to keep the property. *)
Ltac keeps_step :=
  cbv beta;
  match goal with
  | |- keeps _ (bind _ _) => apply keeps_bind; [| intros ?]
  | |- keeps _ (match ?x with _ => _ end) => destruct x
  | |- keeps _ _ => solve [auto with keeps]
  end.

Section Operations.

Variable I : Tables -> Prop.

Hypothesis Hpharmacy :
  forall do_nothing id npi chain t t',
    repository.insert_pharmacy do_nothing id npi chain t = inl t' ->
    I t -> I t'.
Hypothesis Hclaim :
  forall do_nothing c t t',
    repository.insert_claim do_nothing c t = inl t' -> I t -> I t'.
Hypothesis Hreversal :
  forall r t t',
    repository.insert_reversal true r t = inl t' -> I t -> I t'.
Hypothesis Hreverse :
  forall claimID reason, keeps I (repository.ReverseClaim claimID reason).

Lemma keeps_GetPharmacyByNPI :
  forall npi, keeps I (repository.GetPharmacyByNPI npi).
Proof. intros npi. unfold repository.GetPharmacyByNPI. repeat keeps_step. Qed.

Lemma keeps_GetClaimByID :
  forall id, keeps I (repository.GetClaimByID id).
Proof. intros id. unfold repository.GetClaimByID. repeat keeps_step. Qed.

Lemma keeps_countRows :
  forall tableName count, keeps I (repository.countRows tableName count).
Proof. intros. unfold repository.countRows. repeat keeps_step. Qed.

Lemma keeps_CreateClaim :
  forall claim, keeps I (repository.CreateClaim claim).
Proof.
  intros claim. unfold repository.CreateClaim.
  apply keeps_bind; [apply keeps_Exec; apply Hclaim |].
  intros [e |]; apply keeps_ret.
Qed.

Lemma keeps_SubmitClaim :
  forall cs request, keeps I (service.SubmitClaim cs request).
Proof.
  intros cs request. unfold service.SubmitClaim.
  pose proof keeps_GetPharmacyByNPI. pose proof keeps_CreateClaim.
  repeat keeps_step.
Qed.

Lemma keeps_service_ReverseClaim :
  forall cs request, keeps I (service.ReverseClaim cs request).
Proof.
  intros cs request. unfold service.ReverseClaim.
  pose proof keeps_GetPharmacyByNPI. pose proof keeps_GetClaimByID.
  repeat keeps_step.
Qed.

Lemma keeps_BatchCreatePharmacies :
  forall ps, keeps I (repository.BatchCreatePharmacies ps).
Proof.
  intros ps. apply keeps_batchInsert. intros p.
  apply keeps_ExecPharmacy. intros id. apply Hpharmacy.
Qed.

Lemma keeps_BatchCreateClaims :
  forall cs, keeps I (repository.BatchCreateClaims cs).
Proof.
  intros cs. apply keeps_batchInsert. intros c.
  apply keeps_Exec. apply Hclaim.
Qed.

Lemma keeps_BatchCreateReversals :
  forall rs, keeps I (repository.BatchCreateReversals rs).
Proof.
  intros rs. apply keeps_batchInsert. intros r.
  apply keeps_Exec. apply Hreversal.
Qed.

Lemma keeps_processPharmaciesBatch :
  forall ls ps, keeps I (service.processPharmaciesBatch ls ps).
Proof.
  intros ls ps. unfold service.processPharmaciesBatch.
  apply keeps_bind; [apply keeps_BatchCreatePharmacies |].
  intros [e |]; [apply keeps_ret |].
  apply keeps_bind; [| intros _; apply keeps_ret].
  apply keeps_forEach. intros p. apply keeps_LogEvent.
Qed.

Lemma keeps_processClaimsBatch :
  forall ls cs, keeps I (service.processClaimsBatch ls cs).
Proof.
  intros ls cs. unfold service.processClaimsBatch.
  apply keeps_bind; [apply keeps_BatchCreateClaims |].
  intros [e |]; [apply keeps_ret |].
  apply keeps_bind; [| intros _; apply keeps_ret].
  apply keeps_forEach. intros c. apply keeps_LogEvent.
Qed.

Lemma keeps_processReversalsBatch :
  forall ls rs, keeps I (service.processReversalsBatch ls rs).
Proof.
  intros ls rs. unfold service.processReversalsBatch.
  apply keeps_bind; [apply keeps_BatchCreateReversals |].
  intros [e |]; [apply keeps_ret |].
  apply keeps_bind; [| intros _; apply keeps_ret].
  apply keeps_forEach. intros r. apply keeps_LogEvent.
Qed.

Lemma keeps_finish :
  forall ls batch totalLoaded,
    keeps I (service.finish ls batch totalLoaded).
Proof.
  intros ls batch totalLoaded. unfold service.finish.
  pose proof keeps_processPharmaciesBatch. repeat keeps_step.
Qed.

Lemma keeps_readLoop :
  forall ls filename lines fieldsPerRecord batch totalLoaded lineNumber,
    keeps I (service.readLoop ls filename fieldsPerRecord lines batch
               totalLoaded lineNumber).
Proof.
  intros ls filename lines.
  pose proof keeps_processPharmaciesBatch. pose proof keeps_finish.
  induction lines as [| l lines IH];
    intros fieldsPerRecord batch totalLoaded lineNumber;
    cbn [service.readLoop]; [auto |].
  destruct (service.readRecord fieldsPerRecord l) as [[record err] fpr].
  repeat keeps_step.
Qed.

Lemma keeps_loadPharmaciesFromCSV :
  forall fs ls filename,
    keeps I (service.loadPharmaciesFromCSV fs ls filename).
Proof.
  intros fs ls filename. unfold service.loadPharmaciesFromCSV.
  pose proof keeps_readLoop.
  destruct (service.Open fs filename) as [file | e]; [| apply keeps_ret].
  destruct (service.Read (service.NewReader file)) as [[record err] reader].
  repeat keeps_step.
Qed.

Lemma keeps_loadFiles :
  forall fs ls files totalLoaded,
    keeps I (service.loadFiles fs ls files totalLoaded).
Proof.
  intros fs ls files. pose proof keeps_loadPharmaciesFromCSV.
  induction files as [| file files IH]; intros totalLoaded;
    cbn [service.loadFiles]; repeat keeps_step.
Qed.

Lemma keeps_alreadyLoaded :
  forall tableName count warning skipping name,
    keeps I (service.alreadyLoaded (repository.countRows tableName count)
               warning skipping name).
Proof.
  intros. unfold service.alreadyLoaded. pose proof keeps_countRows.
  repeat keeps_step.
Qed.

Lemma keeps_LoadPharmaciesFromData :
  forall Join fs ls dataDir,
    keeps I (service.LoadPharmaciesFromData Join fs ls dataDir).
Proof.
  intros Join fs ls dataDir.
  unfold service.LoadPharmaciesFromData, repository.CountPharmacies.
  pose proof keeps_alreadyLoaded. pose proof keeps_loadFiles.
  apply keeps_bind; [auto |]. intros [|]; [apply keeps_ret |].
  destruct (service.IsNotExist fs _); [apply keeps_ret |].
  destruct (service.Glob fs _) as [files err].
  repeat keeps_step.
Qed.

Lemma keeps_consume :
  forall (T : Type) ls (batchProcessor : list T -> M error) dataTypeName
         data batch totalItems,
    (forall b, keeps I (batchProcessor b)) ->
    keeps I (service.consume ls batchProcessor dataTypeName data batch
               totalItems).
Proof.
  intros T ls batchProcessor dataTypeName data batch totalItems Hbp.
  revert batch totalItems.
  induction data as [| item data IH]; intros batch totalItems;
    cbn [service.consume]; repeat keeps_step.
Qed.

Lemma keeps_drain :
  forall (T : Type) Base ls (fileLoader : string -> list T + string)
         (batchProcessor : list T -> M error) dataTypeName queue batch
         totalItems,
    (forall b, keeps I (batchProcessor b)) ->
    keeps I (service.drain Base ls fileLoader batchProcessor dataTypeName
               queue batch totalItems).
Proof.
  intros T Base ls fileLoader batchProcessor dataTypeName queue batch
    totalItems Hbp.
  pose proof (fun data batch totalItems =>
                keeps_consume T ls batchProcessor dataTypeName data batch
                  totalItems Hbp).
  revert batch totalItems.
  induction queue as [| filename queue IH]; intros batch totalItems;
    cbn [service.drain]; repeat keeps_step.
Qed.

Lemma keeps_loadDataFromFiles :
  forall (T : Type) Join Base arrival fs ls dataDir subDir filePattern
         tableName count (fileLoader : string -> list T + string)
         (batchProcessor : list T -> M error) dataTypeName,
    (forall b, keeps I (batchProcessor b)) ->
    keeps I (service.loadDataFromFiles Join Base arrival fs ls dataDir
               subDir filePattern (repository.countRows tableName count)
               fileLoader batchProcessor dataTypeName).
Proof.
  intros T Join Base arrival fs ls dataDir subDir filePattern tableName
    count fileLoader batchProcessor dataTypeName Hbp.
  unfold service.loadDataFromFiles.
  pose proof keeps_alreadyLoaded.
  pose proof (fun queue batch totalItems =>
                keeps_drain T Base ls fileLoader batchProcessor dataTypeName
                  queue batch totalItems Hbp).
  apply keeps_bind; [auto |]. intros [|]; [apply keeps_ret |].
  destruct (service.Glob fs _) as [files err].
  repeat keeps_step.
Qed.

Lemma keeps_LoadClaimsFromData :
  forall Join Base UnmarshalClaims arrival fs ls dataDir,
    keeps I (service.LoadClaimsFromData Join Base UnmarshalClaims arrival fs
               ls dataDir).
Proof.
  intros. unfold service.LoadClaimsFromData, repository.CountClaims.
  apply keeps_loadDataFromFiles. apply keeps_processClaimsBatch.
Qed.

Lemma keeps_LoadReversalsFromData :
  forall Join Base UnmarshalReversals arrival fs ls dataDir,
    keeps I (service.LoadReversalsFromData Join Base UnmarshalReversals
               arrival fs ls dataDir).
Proof.
  intros. unfold service.LoadReversalsFromData, repository.CountReversals.
  apply keeps_loadDataFromFiles. apply keeps_processReversalsBatch.
Qed.

Lemma keeps_HttpHandler_SubmitClaim :
  forall Decode cs r,
    keeps I (handlers.HttpHandler_SubmitClaim Decode
               (handlers.Build_HttpHandler cs) r).
Proof.
  intros Decode cs r. unfold handlers.HttpHandler_SubmitClaim,
    handlers.sendErrorResponse, handlers.sendJSONResponse,
    handlers.ValidateClaim, handlers.SubmitClaim,
    handlers.ClaimsService_ServiceInterface.
  cbn [handlers.service].
  pose proof keeps_SubmitClaim. repeat keeps_step.
Qed.

Lemma keeps_HttpHandler_ReverseClaim :
  forall Decode cs r,
    keeps I (handlers.HttpHandler_ReverseClaim Decode
               (handlers.Build_HttpHandler cs) r).
Proof.
  intros Decode cs r. unfold handlers.HttpHandler_ReverseClaim,
    handlers.sendErrorResponse, handlers.sendJSONResponse,
    handlers.ReverseClaim, handlers.ClaimsService_ServiceInterface.
  cbn [handlers.service].
  pose proof keeps_service_ReverseClaim. repeat keeps_step.
Qed.

End Operations.

(** The body of the reversal transaction follows the generic scheme when
    the property is kept by every insert of a reversal. *)
Lemma keeps_repository_ReverseClaim :
  forall (I : Tables -> Prop),
    (forall r t t',
        repository.insert_reversal false r t = inl t' -> I t -> I t') ->
    forall claimID reason,
      keeps I (repository.ReverseClaim claimID reason).
Proof.
  intros I Hins claimID reason. unfold repository.ReverseClaim.
  apply keeps_ExecuteInTransaction. intros tx.
  unfold repository.QueryExists.
  pose proof (fun r => keeps_Exec I _ (Hins r)).
  repeat keeps_step.
Qed.


(** *** Rows are only added *)

Lemma extends_refl : forall t, extends t t.
Proof.
  intros t. repeat split; exists []; rewrite app_nil_r; reflexivity.
Qed.

Lemma extends_trans :
  forall t0 t1 t2, extends t0 t1 -> extends t1 t2 -> extends t0 t2.
Proof.
  intros t0 t1 t2 ((ps & Hp) & (cs & Hc) & (rs & Hr))
    ((ps' & Hp') & (cs' & Hc') & (rs' & Hr')).
  repeat split.
  - exists (ps ++ ps')%list. rewrite Hp', Hp, app_assoc. reflexivity.
  - exists (cs ++ cs')%list. rewrite Hc', Hc, app_assoc. reflexivity.
  - exists (rs ++ rs')%list. rewrite Hr', Hr, app_assoc. reflexivity.
Qed.

Lemma insert_pharmacy_extends :
  forall t0 do_nothing id npi chain t t',
    repository.insert_pharmacy do_nothing id npi chain t = inl t' ->
    extends t0 t -> extends t0 t'.
Proof.
  intros t0 do_nothing id npi chain t t' Hins Ht.
  apply (extends_trans _ _ _ Ht). revert Hins.
  unfold repository.insert_pharmacy.
  destruct (repository.varchar 10 npi) as [npi' |]; [| discriminate].
  destruct (repository.varchar 20 chain) as [chain' |]; [| discriminate].
  destruct (negb _); [discriminate |].
  destruct (_ || _).
  - destruct do_nothing; [| discriminate].
    intros Heq. injection Heq as <-. apply extends_refl.
  - intros Heq. injection Heq as <-.
    repeat split; cbn; eexists;
      try reflexivity; rewrite app_nil_r; reflexivity.
Qed.

Lemma insert_claim_extends :
  forall t0 do_nothing c t t',
    repository.insert_claim do_nothing c t = inl t' ->
    extends t0 t -> extends t0 t'.
Proof.
  intros t0 do_nothing c t t' Hins Ht.
  apply (extends_trans _ _ _ Ht). revert Hins. claim_columns.
  destruct (repository.has_claim_id _ _).
  - destruct do_nothing; [| discriminate].
    intros Heq. injection Heq as <-. apply extends_refl.
  - destruct (negb _); [discriminate |].
    intros Heq. injection Heq as <-.
    repeat split; cbn; eexists;
      try reflexivity; rewrite app_nil_r; reflexivity.
Qed.

Lemma insert_reversal_extends :
  forall t0 do_nothing r t t',
    repository.insert_reversal do_nothing r t = inl t' ->
    extends t0 t -> extends t0 t'.
Proof.
  intros t0 do_nothing r t t' Hins Ht.
  apply (extends_trans _ _ _ Ht). revert Hins.
  unfold repository.insert_reversal.
  destruct (repository.has_reversal_id _ _).
  - destruct do_nothing; [| discriminate].
    intros Heq. injection Heq as <-. apply extends_refl.
  - destruct (negb _); [discriminate |].
    intros Heq. injection Heq as <-.
    repeat split; cbn; eexists;
      try reflexivity; rewrite app_nil_r; reflexivity.
Qed.

(** X5: the tables are append-only.  After a request to [/claim] or
    [/reversal] and after each of the three loads, every table starts
    with the rows it had before, in the same order: no operation of the
    program removes or changes a stored row, whatever the request, the
    files and the schedule of faults. *)
Theorem operations_only_add_rows :
  forall (Join : string -> string -> string) (Base : string -> string)
         (UnmarshalClaims : string -> list models.Claim + string)
         (UnmarshalReversals : string -> list models.Reversal + string)
         (arrival : list string -> list string) (fs : service.FS)
         (DecodeClaimRequest : string -> models.ClaimRequest + string)
         (DecodeReversalRequest : string -> models.ReversalRequest + string)
         (cs : service.ClaimsService) (ls : service.LoaderService)
         (r : handlers.Request) (dataDir : string) (w : World),
    extends (tables w)
      (tables (snd (handlers.HttpHandler_SubmitClaim DecodeClaimRequest
                      (handlers.Build_HttpHandler cs) r w)))
    /\ extends (tables w)
         (tables (snd (handlers.HttpHandler_ReverseClaim
                         DecodeReversalRequest
                         (handlers.Build_HttpHandler cs) r w)))
    /\ extends (tables w)
         (tables (snd (service.LoadPharmaciesFromData Join fs ls dataDir w)))
    /\ extends (tables w)
         (tables (snd (service.LoadClaimsFromData Join Base UnmarshalClaims
                         arrival fs ls dataDir w)))
    /\ extends (tables w)
         (tables (snd (service.LoadReversalsFromData Join Base
                         UnmarshalReversals arrival fs ls dataDir w))).
Proof.
  intros Join Base UnmarshalClaims UnmarshalReversals arrival fs
    DecodeClaimRequest DecodeReversalRequest cs ls r dataDir w.
  pose proof (extends_refl (tables w)) as Hw.
  split; [| split; [| split; [| split]]].
  - apply (keeps_HttpHandler_SubmitClaim (extends (tables w))
             (insert_claim_extends (tables w))); exact Hw.
  - apply (keeps_HttpHandler_ReverseClaim (extends (tables w))
             (keeps_repository_ReverseClaim (extends (tables w))
                (insert_reversal_extends (tables w) false))); exact Hw.
  - apply (keeps_LoadPharmaciesFromData (extends (tables w))
             (insert_pharmacy_extends (tables w))); exact Hw.
  - apply (keeps_LoadClaimsFromData (extends (tables w))
             (insert_claim_extends (tables w))); exact Hw.
  - apply (keeps_LoadReversalsFromData (extends (tables w))
             (insert_reversal_extends (tables w) true)); exact Hw.
Qed.

(** ** A claim that is accepted *)





(** The columns on some numbers: 25.999 is kept as 26, 1.005 as 1.01
    (its shortest text is [1.005], though the [float64] is below it),
    1.004 as 1, 99999999.994 as 99999999.99; 99999999.995 and 10^8 are
    refused, and so is an infinity; NaN is kept. *)
Lemma numeric_10_2_examples :
  repository.numeric_10_2 (sample_decimals.thousandths 25999)
  = inl (repository.hundredths 2600)
  /\ repository.numeric_10_2 (sample_decimals.thousandths 1005)
     = inl (repository.hundredths 101)
  /\ repository.numeric_10_2 (sample_decimals.thousandths 1004)
     = inl (repository.hundredths 100)
  /\ repository.numeric_10_2 (sample_decimals.thousandths 99999999994)
     = inl (repository.hundredths 9999999999)
  /\ repository.numeric_10_2 (sample_decimals.thousandths 99999999995)
     = inr "pq: numeric field overflow"
  /\ repository.numeric_10_2 (repository.of_Z 100000000)
     = inr "pq: numeric field overflow"
  /\ repository.numeric_10_2 (S754_infinity false)
     = inr "pq: numeric field overflow"
  /\ repository.numeric_10_2 S754_nan = inl S754_nan
  /\ repository.numeric_10_2 sample.one = inl sample.one
  /\ repository.numeric_10_2 sample.twenty_five = inl sample.twenty_five.
Proof. vm_compute. repeat split. Qed.

Lemma varchar_fits :
  forall n s, (String.length s <= n)%nat -> repository.varchar n s = Some s.
Proof.
  intros n s Hlen. unfold repository.varchar.
  apply Nat.leb_le in Hlen. rewrite Hlen. reflexivity.
Qed.




Lemma validated_lengths :
  forall request,
    utility.ValidateClaimRequest request = None ->
    (String.length (models.NDC request) <= 11)%nat
    /\ (String.length (models.NPI request) <= 10)%nat.
Proof.
  intros request Hv. rewrite ValidateClaimRequest_first_error in Hv.
  destruct (utility.ValidateNDC _) eqn:Hndc; [discriminate |].
  destruct (utility.ValidateNPI _) eqn:Hnpi; [discriminate |].
  apply ValidateNDC_nil_iff in Hndc. apply ValidateNPI_nil_iff in Hnpi.
  lia.
Qed.




(** ** The audit trail does not reach the answers *)

Lemma respects_ret : forall (A : Type) (a : A), respects (ret a).
Proof. intros A a w w' Hw. split; [reflexivity | exact Hw]. Qed.

Lemma respects_bind :
  forall (A B : Type) (m : M A) (k : A -> M B),
    respects m -> (forall a, respects (k a)) -> respects (bind m k).
Proof.
  intros A B m k Hm Hk w w' Hw. unfold bind.
  destruct (Hm w w' Hw) as [Ha Hw1].
  destruct (m w) as [a w1]. destruct (m w') as [a' w1'].
  cbn [fst snd] in Ha, Hw1. subst a'. apply Hk. exact Hw1.
Qed.

Ltac same_inputs_tac :=
  intros [t seq faults ent dr clk aud sf lg]
         [t' seq' faults' ent' dr' clk' aud' sf' lg']
         (Ht & Hseq & Hf & Hent & Hdr & Hclk);
  cbn in Ht, Hseq, Hf, Hent, Hdr, Hclk; subst t' seq' faults' ent' dr' clk'.

Lemma respects_roundtrip : respects roundtrip.
Proof.
  same_inputs_tac. unfold roundtrip. cbn.
  destruct (pop faults) as [o l]. cbn. repeat split.
Qed.

Lemma respects_get_tables : respects get_tables.
Proof. same_inputs_tac. repeat split. Qed.

Lemma respects_put_tables : forall t, respects (put_tables t).
Proof. intros t0. same_inputs_tac. repeat split. Qed.

Lemma respects_log_Printf : forall fmt a, respects (log_Printf fmt a).
Proof. intros fmt a. same_inputs_tac. repeat split. Qed.

Lemma respects_uuid_New : respects uuid_New.
Proof. same_inputs_tac. repeat split. Qed.

Lemma respects_time_Now : respects time_Now.
Proof. same_inputs_tac. repeat split. Qed.

Lemma respects_nextval : respects repository.nextval.
Proof. same_inputs_tac. repeat split. Qed.

(** [LogEvent] returns nothing, and what it does depends on the audit
    directory only for the audit directory and the log. *)
Lemma respects_LogEvent :
  forall l eventType payload, respects (core.LogEvent l eventType payload).
Proof.
  intros l eventType payload. same_inputs_tac.
  unfold core.LogEvent, core.os_Create, core.write_file, uuid_New,
    log_Printf, bind. cbn.
  destruct (pop sf) as [[e |] sf1]; destruct (pop sf') as [[e' |] sf1'];
    cbn; destruct (core.encodable payload); repeat split.
Qed.

Create HintDb respects.

#[local] Hint Resolve respects_ret respects_roundtrip respects_get_tables
  respects_put_tables respects_log_Printf respects_uuid_New
  respects_time_Now respects_nextval respects_LogEvent : respects.

Ltac respects_step :=
  cbv beta;
  match goal with
  | |- respects (bind _ _) => apply respects_bind; [| intros ?]
  | |- respects (match ?x with _ => _ end) => destruct x
  | |- respects _ => solve [auto with respects]
  end.

Lemma respects_forEach :
  forall (A : Type) (body : A -> M unit) (l : list A),
    (forall a, respects (body a)) -> respects (forEach l body).
Proof.
  intros A body l Hbody. induction l as [| x l IH]; cbn [forEach].
  - apply respects_ret.
  - apply respects_bind; [apply Hbody | intros _; exact IH].
Qed.

Lemma respects_QueryRow :
  forall (A : Type) (select : Tables -> option A),
    respects (repository.QueryRow select).
Proof.
  intros A select. unfold repository.QueryRow. repeat respects_step.
Qed.

Lemma respects_Exec :
  forall stmt : Tables -> Tables + string, respects (repository.Exec stmt).
Proof. intros stmt. unfold repository.Exec. repeat respects_step. Qed.

Lemma respects_ExecPharmacy :
  forall do_nothing npi chain,
    respects (repository.ExecPharmacy do_nothing npi chain).
Proof.
  intros. unfold repository.ExecPharmacy. repeat respects_step.
Qed.

Lemma respects_BeginTx : respects repository.BeginTx.
Proof. unfold repository.BeginTx. repeat respects_step. Qed.

Lemma respects_Commit : forall tx, respects (repository.Commit tx).
Proof. intros tx. unfold repository.Commit. repeat respects_step. Qed.

#[local] Hint Resolve respects_QueryRow respects_Exec respects_ExecPharmacy
  respects_BeginTx respects_Commit : respects.

Lemma respects_ExecuteInTransaction :
  forall fn : repository.Tx -> M error,
    (forall tx, respects (fn tx)) ->
    respects (repository.ExecuteInTransaction fn).
Proof.
  intros fn Hfn.
  unfold repository.ExecuteInTransaction, repository.Rollback.
  repeat respects_step.
Qed.

Lemma respects_exec_rows :
  forall (A : Type) (exec : A -> M error) (values : list A),
    (forall a, respects (exec a)) ->
    respects (repository.exec_rows exec values).
Proof.
  intros A exec values Hexec.
  induction values as [| row rest IH]; cbn [repository.exec_rows];
    repeat respects_step.
Qed.

Lemma respects_batchInsert :
  forall (A : Type) (exec : A -> M error) (values : list A),
    (forall a, respects (exec a)) ->
    respects (repository.batchInsert exec values).
Proof.
  intros A exec values Hexec.
  pose proof (respects_exec_rows A exec values Hexec).
  unfold repository.batchInsert, repository.Rollback.
  repeat respects_step.
Qed.

Lemma respects_GetPharmacyByNPI :
  forall npi, respects (repository.GetPharmacyByNPI npi).
Proof.
  intros npi. unfold repository.GetPharmacyByNPI. repeat respects_step.
Qed.

Lemma respects_GetClaimByID :
  forall id, respects (repository.GetClaimByID id).
Proof. intros id. unfold repository.GetClaimByID. repeat respects_step. Qed.

Lemma respects_CreateClaim :
  forall claim, respects (repository.CreateClaim claim).
Proof.
  intros claim. unfold repository.CreateClaim. repeat respects_step.
Qed.

Lemma respects_repository_ReverseClaim :
  forall claimID reason, respects (repository.ReverseClaim claimID reason).
Proof.
  intros claimID reason. unfold repository.ReverseClaim.
  apply respects_ExecuteInTransaction. intros tx.
  unfold repository.QueryExists. repeat respects_step.
Qed.

Lemma respects_countRows :
  forall tableName count, respects (repository.countRows tableName count).
Proof. intros. unfold repository.countRows. repeat respects_step. Qed.

#[local] Hint Resolve respects_GetPharmacyByNPI respects_GetClaimByID
  respects_CreateClaim respects_repository_ReverseClaim respects_countRows
  : respects.

Lemma respects_SubmitClaim :
  forall cs request, respects (service.SubmitClaim cs request).
Proof.
  intros cs request. unfold service.SubmitClaim. repeat respects_step.
Qed.

Lemma respects_service_ReverseClaim :
  forall cs request, respects (service.ReverseClaim cs request).
Proof.
  intros cs request. unfold service.ReverseClaim. repeat respects_step.
Qed.

Lemma respects_HttpHandler_SubmitClaim :
  forall Decode cs r,
    respects (handlers.HttpHandler_SubmitClaim Decode
                (handlers.Build_HttpHandler cs) r).
Proof.
  intros Decode cs r. unfold handlers.HttpHandler_SubmitClaim,
    handlers.sendErrorResponse, handlers.sendJSONResponse,
    handlers.ValidateClaim, handlers.SubmitClaim,
    handlers.ClaimsService_ServiceInterface.
  cbn [handlers.service].
  pose proof respects_SubmitClaim. repeat respects_step.
Qed.

Lemma respects_HttpHandler_ReverseClaim :
  forall Decode cs r,
    respects (handlers.HttpHandler_ReverseClaim Decode
                (handlers.Build_HttpHandler cs) r).
Proof.
  intros Decode cs r. unfold handlers.HttpHandler_ReverseClaim,
    handlers.sendErrorResponse, handlers.sendJSONResponse,
    handlers.ReverseClaim, handlers.ClaimsService_ServiceInterface.
  cbn [handlers.service].
  pose proof respects_service_ReverseClaim. repeat respects_step.
Qed.

Lemma respects_processPharmaciesBatch :
  forall ls ps, respects (service.processPharmaciesBatch ls ps).
Proof.
  intros ls ps.
  unfold service.processPharmaciesBatch, repository.BatchCreatePharmacies.
  apply respects_bind.
  - apply respects_batchInsert. intros p. apply respects_ExecPharmacy.
  - intros [e |]; [apply respects_ret |].
    apply respects_bind; [| intros _; apply respects_ret].
    apply respects_forEach. intros p. apply respects_LogEvent.
Qed.

Lemma respects_processClaimsBatch :
  forall ls cs, respects (service.processClaimsBatch ls cs).
Proof.
  intros ls cs.
  unfold service.processClaimsBatch, repository.BatchCreateClaims.
  apply respects_bind.
  - apply respects_batchInsert. intros c. apply respects_Exec.
  - intros [e |]; [apply respects_ret |].
    apply respects_bind; [| intros _; apply respects_ret].
    apply respects_forEach. intros c. apply respects_LogEvent.
Qed.

Lemma respects_processReversalsBatch :
  forall ls rs, respects (service.processReversalsBatch ls rs).
Proof.
  intros ls rs.
  unfold service.processReversalsBatch, repository.BatchCreateReversals.
  apply respects_bind.
  - apply respects_batchInsert. intros r. apply respects_Exec.
  - intros [e |]; [apply respects_ret |].
    apply respects_bind; [| intros _; apply respects_ret].
    apply respects_forEach. intros r. apply respects_LogEvent.
Qed.

Lemma respects_finish :
  forall ls batch totalLoaded,
    respects (service.finish ls batch totalLoaded).
Proof.
  intros ls batch totalLoaded. unfold service.finish.
  pose proof respects_processPharmaciesBatch. repeat respects_step.
Qed.

Lemma respects_readLoop :
  forall ls filename lines fieldsPerRecord batch totalLoaded lineNumber,
    respects (service.readLoop ls filename fieldsPerRecord lines batch
                totalLoaded lineNumber).
Proof.
  intros ls filename lines.
  pose proof respects_processPharmaciesBatch. pose proof respects_finish.
  induction lines as [| l lines IH];
    intros fieldsPerRecord batch totalLoaded lineNumber;
    cbn [service.readLoop]; [auto |].
  destruct (service.readRecord fieldsPerRecord l) as [[record err] fpr].
  repeat respects_step.
Qed.

Lemma respects_loadPharmaciesFromCSV :
  forall fs ls filename,
    respects (service.loadPharmaciesFromCSV fs ls filename).
Proof.
  intros fs ls filename. unfold service.loadPharmaciesFromCSV.
  pose proof respects_readLoop.
  destruct (service.Open fs filename) as [file | e]; [| apply respects_ret].
  destruct (service.Read (service.NewReader file)) as [[record err] reader].
  repeat respects_step.
Qed.

Lemma respects_loadFiles :
  forall fs ls files totalLoaded,
    respects (service.loadFiles fs ls files totalLoaded).
Proof.
  intros fs ls files. pose proof respects_loadPharmaciesFromCSV.
  induction files as [| file files IH]; intros totalLoaded;
    cbn [service.loadFiles]; repeat respects_step.
Qed.

Lemma respects_alreadyLoaded :
  forall tableName count warning skipping name,
    respects (service.alreadyLoaded (repository.countRows tableName count)
                warning skipping name).
Proof.
  intros. unfold service.alreadyLoaded. repeat respects_step.
Qed.

Lemma respects_LoadPharmaciesFromData :
  forall Join fs ls dataDir,
    respects (service.LoadPharmaciesFromData Join fs ls dataDir).
Proof.
  intros Join fs ls dataDir.
  unfold service.LoadPharmaciesFromData, repository.CountPharmacies.
  pose proof respects_alreadyLoaded. pose proof respects_loadFiles.
  apply respects_bind; [auto |]. intros [|]; [apply respects_ret |].
  destruct (service.IsNotExist fs _); [apply respects_ret |].
  destruct (service.Glob fs _) as [files err].
  repeat respects_step.
Qed.

Lemma respects_consume :
  forall (T : Type) ls (batchProcessor : list T -> M error) dataTypeName
         data batch totalItems,
    (forall b, respects (batchProcessor b)) ->
    respects (service.consume ls batchProcessor dataTypeName data batch
                totalItems).
Proof.
  intros T ls batchProcessor dataTypeName data batch totalItems Hbp.
  revert batch totalItems.
  induction data as [| item data IH]; intros batch totalItems;
    cbn [service.consume]; repeat respects_step.
Qed.

Lemma respects_drain :
  forall (T : Type) Base ls (fileLoader : string -> list T + string)
         (batchProcessor : list T -> M error) dataTypeName queue batch
         totalItems,
    (forall b, respects (batchProcessor b)) ->
    respects (service.drain Base ls fileLoader batchProcessor dataTypeName
                queue batch totalItems).
Proof.
  intros T Base ls fileLoader batchProcessor dataTypeName queue batch
    totalItems Hbp.
  pose proof (fun data batch totalItems =>
                respects_consume T ls batchProcessor dataTypeName data batch
                  totalItems Hbp).
  revert batch totalItems.
  induction queue as [| filename queue IH]; intros batch totalItems;
    cbn [service.drain]; repeat respects_step.
Qed.

Lemma respects_loadDataFromFiles :
  forall (T : Type) Join Base arrival fs ls dataDir subDir filePattern
         tableName count (fileLoader : string -> list T + string)
         (batchProcessor : list T -> M error) dataTypeName,
    (forall b, respects (batchProcessor b)) ->
    respects (service.loadDataFromFiles Join Base arrival fs ls dataDir
                subDir filePattern (repository.countRows tableName count)
                fileLoader batchProcessor dataTypeName).
Proof.
  intros T Join Base arrival fs ls dataDir subDir filePattern tableName
    count fileLoader batchProcessor dataTypeName Hbp.
  unfold service.loadDataFromFiles.
  pose proof respects_alreadyLoaded.
  pose proof (fun queue batch totalItems =>
                respects_drain T Base ls fileLoader batchProcessor
                  dataTypeName queue batch totalItems Hbp).
  apply respects_bind; [auto |]. intros [|]; [apply respects_ret |].
  destruct (service.Glob fs _) as [files err].
  repeat respects_step.
Qed.

(** X8: the audit trail does not reach the answers.  Take two worlds
    with the same database, schedule of database faults, random source
    and clock; the audit directory, the failures of file creation there
    and the log may differ.  Then a request to [/claim] or [/reversal]
    gets the same response in both, each of the three loads returns the
    same result in both, and the two worlds still agree afterwards: a
    failure to write an audit file changes no answer and no row. *)
Theorem answers_do_not_depend_on_the_audit_directory :
  forall (Join : string -> string -> string) (Base : string -> string)
         (UnmarshalClaims : string -> list models.Claim + string)
         (UnmarshalReversals : string -> list models.Reversal + string)
         (arrival : list string -> list string) (fs : service.FS)
         (DecodeClaimRequest : string -> models.ClaimRequest + string)
         (DecodeReversalRequest : string -> models.ReversalRequest + string)
         (cs : service.ClaimsService) (ls : service.LoaderService)
         (r : handlers.Request) (dataDir : string) (w w' : World),
    same_inputs w w' ->
    (fst (handlers.HttpHandler_SubmitClaim DecodeClaimRequest
            (handlers.Build_HttpHandler cs) r w')
     = fst (handlers.HttpHandler_SubmitClaim DecodeClaimRequest
              (handlers.Build_HttpHandler cs) r w)
     /\ same_inputs
          (snd (handlers.HttpHandler_SubmitClaim DecodeClaimRequest
                  (handlers.Build_HttpHandler cs) r w))
          (snd (handlers.HttpHandler_SubmitClaim DecodeClaimRequest
                  (handlers.Build_HttpHandler cs) r w')))
    /\ (fst (handlers.HttpHandler_ReverseClaim DecodeReversalRequest
               (handlers.Build_HttpHandler cs) r w')
        = fst (handlers.HttpHandler_ReverseClaim DecodeReversalRequest
                 (handlers.Build_HttpHandler cs) r w)
        /\ same_inputs
             (snd (handlers.HttpHandler_ReverseClaim DecodeReversalRequest
                     (handlers.Build_HttpHandler cs) r w))
             (snd (handlers.HttpHandler_ReverseClaim DecodeReversalRequest
                     (handlers.Build_HttpHandler cs) r w')))
    /\ (fst (service.LoadPharmaciesFromData Join fs ls dataDir w')
        = fst (service.LoadPharmaciesFromData Join fs ls dataDir w)
        /\ same_inputs
             (snd (service.LoadPharmaciesFromData Join fs ls dataDir w))
             (snd (service.LoadPharmaciesFromData Join fs ls dataDir w')))
    /\ (fst (service.LoadClaimsFromData Join Base UnmarshalClaims arrival fs
               ls dataDir w')
        = fst (service.LoadClaimsFromData Join Base UnmarshalClaims arrival
                 fs ls dataDir w)
        /\ same_inputs
             (snd (service.LoadClaimsFromData Join Base UnmarshalClaims
                     arrival fs ls dataDir w))
             (snd (service.LoadClaimsFromData Join Base UnmarshalClaims
                     arrival fs ls dataDir w')))
    /\ (fst (service.LoadReversalsFromData Join Base UnmarshalReversals
               arrival fs ls dataDir w')
        = fst (service.LoadReversalsFromData Join Base UnmarshalReversals
                 arrival fs ls dataDir w)
        /\ same_inputs
             (snd (service.LoadReversalsFromData Join Base
                     UnmarshalReversals arrival fs ls dataDir w))
             (snd (service.LoadReversalsFromData Join Base
                     UnmarshalReversals arrival fs ls dataDir w'))).
Proof.
  intros Join Base UnmarshalClaims UnmarshalReversals arrival fs
    DecodeClaimRequest DecodeReversalRequest cs ls r dataDir w w' Hw.
  split; [| split; [| split; [| split]]].
  - exact (respects_HttpHandler_SubmitClaim _ _ _ w w' Hw).
  - exact (respects_HttpHandler_ReverseClaim _ _ _ w w' Hw).
  - exact (respects_LoadPharmaciesFromData _ _ _ _ w w' Hw).
  - unfold service.LoadClaimsFromData, repository.CountClaims.
    apply respects_loadDataFromFiles; [| exact Hw].
    apply respects_processClaimsBatch.
  - unfold service.LoadReversalsFromData, repository.CountReversals.
    apply respects_loadDataFromFiles; [| exact Hw].
    apply respects_processReversalsBatch.
Qed.

(** The reversal of the sample claim with an audit directory that cannot
    be written: the response and the tables are those of the run in
    which the audit file is written. *)
Lemma audit_directory_witness :
  fst (handlers.HttpHandler_ReverseClaim sample.DecodeReversalRequest
         sample.handler sample_reversal.post read_only_audit)
  = fst (handlers.HttpHandler_ReverseClaim sample.DecodeReversalRequest
           sample.handler sample_reversal.post sample.world)
  /\ same_inputs
       (snd (handlers.HttpHandler_ReverseClaim sample.DecodeReversalRequest
               sample.handler sample_reversal.post sample.world))
       (snd (handlers.HttpHandler_ReverseClaim sample.DecodeReversalRequest
               sample.handler sample_reversal.post read_only_audit)).
Proof.
  apply (answers_do_not_depend_on_the_audit_directory
           sample_loader.Join sample_loader.Base
           sample_loader.UnmarshalClaims sample_loader.UnmarshalReversals
           sample_loader.arrival sample_loader.one_csv
           sample.DecodeClaimRequest sample.DecodeReversalRequest
           sample.claims_service sample_loader.loader
           sample_reversal.post "./data" sample.world read_only_audit).
  repeat split.
Defined.

(** ** The answers of the claim handler *)

Lemma GetPharmacyByNPI_world :
  forall npi w,
    snd (repository.GetPharmacyByNPI npi w) = after_roundtrip w.
Proof.
  intros npi w.
  unfold repository.GetPharmacyByNPI, repository.QueryRow, roundtrip, bind,
    get_tables, ret, after_roundtrip.
  destruct (pop (db_faults w)) as [[e |] l]; cbn; [reflexivity |].
  destruct (find _ _); reflexivity.
Qed.

Lemma insert_claim_fits :
  forall c t t',
    (String.length (models.Claim_NDC c) <= 11)%nat ->
    (String.length (models.Claim_NPI c) <= 10)%nat ->
    repository.insert_claim false c t = inl t' ->
    exists quantity' price',
      repository.numeric_10_2 (models.Claim_Quantity c) = inl quantity'
      /\ repository.numeric_10_2 (models.Claim_Price c) = inl price'
      /\ t' = add_claim (kept c quantity' price') t.
Proof.
  intros c t t' Hndc Hnpi. unfold repository.insert_claim.
  rewrite (varchar_fits _ _ Hndc), (varchar_fits _ _ Hnpi).
  destruct (repository.numeric_10_2 (models.Claim_Quantity c))
    as [quantity' | e]; [| discriminate].
  destruct (repository.numeric_10_2 (models.Claim_Price c))
    as [price' | e]; [| discriminate].
  destruct (repository.has_claim_id _ _); [discriminate |].
  destruct (negb _); [discriminate |].
  intros Heq. injection Heq as <-. exists quantity', price'.
  repeat split.
Qed.

(** What [CreateClaim] leaves: the tables as they were with an error,
    the tables after the insert with nil. *)
Lemma CreateClaim_cases :
  forall c w err w',
    repository.CreateClaim c w = (err, w') ->
    match err with
    | Some _ => tables w' = tables w
    | None => repository.insert_claim false c (tables w) = inl (tables w')
    end.
Proof.
  intros c w err w'.
  unfold repository.CreateClaim, repository.Exec, roundtrip, bind,
    get_tables, put_tables, ret.
  destruct (pop (db_faults w)) as [[e |] l]; cbn.
  { intros Heq. injection Heq as <- <-. reflexivity. }
  destruct (repository.insert_claim false c (tables w)) as [t' | e] eqn:Hins;
    cbn; intros Heq; injection Heq as <- <-; reflexivity.
Qed.

(** [SubmitClaim] under any schedule of faults: an error and the tables
    as they were, or the response for the new claim and the tables with
    that claim added. *)
Lemma SubmitClaim_cases :
  forall cs request w response err w',
    service.SubmitClaim cs request w = ((response, err), w') ->
    (err <> None /\ tables w' = tables w)
    \/ (err = None
        /\ response
           = Some (submitted (models.Claim_ID (new_claim request w)))
        /\ exists quantity' price',
             repository.numeric_10_2 (models.Quantity request)
             = inl quantity'
             /\ repository.numeric_10_2 (models.Price request) = inl price'
             /\ tables w'
                = add_claim (kept (new_claim request w) quantity' price')
                    (tables w)).
Proof.
  intros cs request w response err w'.
  unfold service.SubmitClaim, service.ValidateClaim.
  destruct (utility.ValidateClaimRequest request) as [e |] eqn:Hv.
  { unfold ret. intros Heq. injection Heq as _ <- <-.
    left. split; [discriminate | reflexivity]. }
  destruct (validated_lengths _ Hv) as [Hndc Hnpi].
  unfold bind at 1.
  pose proof (GetPharmacyByNPI_world (models.NPI request) w) as Hw1.
  destruct (repository.GetPharmacyByNPI (models.NPI request) w)
    as [[pharmacy perr] w1].
  cbn [snd] in Hw1. subst w1.
  destruct perr as [e |].
  { unfold ret. intros Heq. injection Heq as _ <- <-.
    left. split; [discriminate | reflexivity]. }
  destruct pharmacy as [pharmacy |].
  2:{ unfold ret. intros Heq. injection Heq as _ <- <-.
      left. split; [discriminate | reflexivity]. }
  unfold bind at 1, uuid_New at 1. unfold bind at 1, time_Now at 1.
  change {| models.Claim_ID :=
              uuid.v4 (entropy (after_roundtrip w) (drawn (after_roundtrip w)));
            models.Claim_NDC := models.NDC request;
            models.Claim_Quantity := models.Quantity request;
            models.Claim_NPI := models.NPI request;
            models.Claim_Price := models.Price request;
            models.Claim_Timestamp :=
              clock (with_drawn (S (drawn (after_roundtrip w)))
                       (after_roundtrip w)) |}
    with (new_claim request w).
  unfold bind at 1.
  destruct (repository.CreateClaim (new_claim request w) _)
    as [cerr w2] eqn:Hcreate.
  apply CreateClaim_cases in Hcreate.
  destruct cerr as [e |].
  { unfold ret. intros Heq. injection Heq as _ <- <-.
    left. split; [discriminate | exact Hcreate]. }
  apply insert_claim_fits in Hcreate; [| exact Hndc | exact Hnpi].
  unfold bind at 1.
  pose proof (LogEvent_same_db (service.logger cs) "claim_submitted"
                [("claim_id",
                  VString (uuid.String
                             (models.Claim_ID (new_claim request w))));
                 ("ndc", VString (models.Claim_NDC (new_claim request w)));
                 ("quantity",
                  VFloat (models.Claim_Quantity (new_claim request w)));
                 ("npi", VString (models.Claim_NPI (new_claim request w)));
                 ("price", VFloat (models.Claim_Price (new_claim request w)));
                 ("chain", VString (models.Pharmacy_Chain pharmacy))] w2)
    as (Ht & _).
  destruct (core.LogEvent _ _ _ w2) as [u w3]. cbn [snd] in Ht.
  unfold ret. intros Heq. injection Heq as <- <- <-.
  right. split; [reflexivity |]. split; [reflexivity |].
  rewrite Ht. exact Hcreate.
Qed.

(** X9: a claim is stored exactly when [/claim] answers 201.  Whatever
    the request and the schedule of faults, if the claim handler in front
    of the claims service answers 201, the body of the request was
    decoded, the one change of the tables is the new row of [claims] with
    the two codes of the request and its quantity and price as the
    [DECIMAL(10,2)] columns hold them, and the response carries the
    identifier of that row; with every other status the tables are what
    they were. *)
Theorem claim_stored_iff_created :
  forall (Decode : string -> models.ClaimRequest + string)
         (cs : service.ClaimsService) (r : handlers.Request) (w : World),
    let (answer, w') :=
      handlers.HttpHandler_SubmitClaim Decode
        (handlers.Build_HttpHandler cs) r w in
    (handlers.StatusCode answer = 201 ->
     exists request quantity' price',
       Decode (handlers.Body r) = inl request
       /\ answer = created (models.Claim_ID (new_claim request w))
       /\ repository.numeric_10_2 (models.Quantity request) = inl quantity'
       /\ repository.numeric_10_2 (models.Price request) = inl price'
       /\ tables w'
          = add_claim (kept (new_claim request w) quantity' price')
              (tables w))
    /\ (handlers.StatusCode answer <> 201 -> tables w' = tables w).
Proof.
  intros Decode cs r w.
  unfold handlers.HttpHandler_SubmitClaim, handlers.sendErrorResponse,
    handlers.sendJSONResponse, handlers.ValidateClaim, handlers.SubmitClaim,
    handlers.ClaimsService_ServiceInterface.
  cbn [handlers.service].
  destruct (negb _).
  { unfold ret. split; [discriminate | reflexivity]. }
  destruct (Decode (handlers.Body r)) as [request | e].
  2:{ unfold ret. split; [discriminate | reflexivity]. }
  unfold bind at 1, ret at 1.
  destruct (service.ValidateClaim cs request).
  { unfold ret. split; [discriminate | reflexivity]. }
  unfold bind.
  destruct (service.SubmitClaim cs request w) as [[response err] w1] eqn:Hs.
  apply SubmitClaim_cases in Hs.
  destruct Hs as [[Herr Ht] | (-> & -> & quantity' & price' & Hq & Hp & Ht)].
  - destruct err as [e |]; [| congruence].
    destruct (e =? _)%string; unfold ret;
      (split; [discriminate | intros _; exact Ht]).
  - unfold ret. split; [| intros Hne; contradiction Hne; reflexivity].
    intros _. exists request, quantity', price'. repeat split; assumption.
Qed.

(** The sample request sent to the sample database. *)
Lemma claim_created_witness :
  fst (handlers.HttpHandler_SubmitClaim sample_claim.Decode sample.handler
         sample_claim.post sample.world)
  = created (models.Claim_ID (new_claim sample.request sample.world))
  /\ tables (snd (handlers.HttpHandler_SubmitClaim sample_claim.Decode
                    sample.handler sample_claim.post sample.world))
     = add_claim (new_claim sample.request sample.world)
         (tables sample.world).
Proof.
  pose proof (claim_stored_iff_created sample_claim.Decode
                sample.claims_service sample_claim.post sample.world) as H.
  fold sample.handler in H.
  destruct (handlers.HttpHandler_SubmitClaim sample_claim.Decode
              sample.handler sample_claim.post sample.world)
    as [answer w'] eqn:Hrun.
  assert (Hs : handlers.StatusCode answer = 201).
  { apply (f_equal fst) in Hrun. cbn [fst] in Hrun. rewrite <- Hrun.
    vm_compute. reflexivity. }
  destruct H as [H _].
  destruct (H Hs) as (request & quantity' & price' & Hd & Ha & Hq & Hp & Ht).
  assert (Hd' : sample_claim.Decode (handlers.Body sample_claim.post)
                = inl sample.request) by reflexivity.
  rewrite Hd' in Hd. injection Hd as <-.
  assert (Hq' : repository.numeric_10_2 (models.Quantity sample.request)
                = inl (models.Quantity sample.request)) by reflexivity.
  assert (Hp' : repository.numeric_10_2 (models.Price sample.request)
                = inl (models.Price sample.request)) by reflexivity.
  rewrite Hq' in Hq. rewrite Hp' in Hp.
  injection Hq as <-. injection Hp as <-.
  cbn [fst snd]. split; [exact Ha | exact Ht].
Defined.

Lemma has_pharmacy_npi_as_find :
  forall npi t,
    repository.has_pharmacy_npi npi t
    = match find (fun p => (models.Pharmacy_NPI p =? npi)%string)
              (pharmacies t) with
      | Some _ => true
      | None => false
      end.
Proof.
  intros npi t. unfold repository.has_pharmacy_npi.
  induction (pharmacies t) as [| p l IH]; cbn; [reflexivity |].
  destruct (models.Pharmacy_NPI p =? npi)%string; cbn;
    [reflexivity | exact IH].
Qed.

Lemma GetPharmacyByNPI_result :
  forall npi w,
    repository.GetPharmacyByNPI npi w
    = (match next_fault w with
       | Some e => (None, Some ("failed to get pharmacy by NPI: " ++ e))
       | None =>
           (find (fun p => (models.Pharmacy_NPI p =? npi)%string)
              (pharmacies (tables w)), None)
       end, after_roundtrip w).
Proof.
  intros npi w.
  unfold repository.GetPharmacyByNPI, repository.QueryRow, roundtrip, bind,
    get_tables, ret, next_fault, after_roundtrip.
  destruct (pop (db_faults w)) as [[e |] l]; cbn; [reflexivity |].
  destruct (find _ _); reflexivity.
Qed.

Lemma GetClaimByID_result :
  forall id w,
    repository.GetClaimByID id w
    = (match next_fault w with
       | Some e => (None, Some ("failed to get claim by ID: " ++ e))
       | None =>
           (find (fun c => (models.Claim_ID c =? id)%N) (claims (tables w)),
            None)
       end, after_roundtrip w).
Proof.
  intros id w.
  unfold repository.GetClaimByID, repository.QueryRow, roundtrip, bind,
    get_tables, ret, next_fault, after_roundtrip.
  destruct (pop (db_faults w)) as [[e |] l]; cbn; [reflexivity |].
  destruct (find _ _); reflexivity.
Qed.

(** Two texts that differ within their literal heads. *)
Ltac texts_differ :=
  match goal with
  | |- context [String.eqb ?a ?b] => change (String.eqb a b) with false
  end.

(** The one error of [SubmitClaim] that the handler reads as a missing
    pharmacy comes from a lookup that was answered and found nothing. *)
Lemma SubmitClaim_not_found_text :
  forall cs request w response err w',
    utility.ValidateClaimRequest request = None ->
    service.SubmitClaim cs request w = ((response, err), w') ->
    match err with
    | Some e =>
        (e =? "pharmacy with NPI " ++ models.NPI request ++ " not found")%string
        = true
    | None => False
    end
    <-> next_fault w = None
        /\ repository.has_pharmacy_npi (models.NPI request) (tables w) = false.
Proof.
  intros cs request w response err w' Hv.
  unfold service.SubmitClaim, service.ValidateClaim. rewrite Hv.
  rewrite has_pharmacy_npi_as_find.
  unfold bind at 1. rewrite GetPharmacyByNPI_result.
  destruct (next_fault w) as [e0 |].
  { unfold ret. intros Heq. injection Heq as _ <- _. cbv beta iota.
    texts_differ.
    split; [discriminate | intros [H _]; discriminate]. }
  destruct (find _ (pharmacies (tables w))) as [pharmacy |].
  2:{ unfold ret. intros Heq. injection Heq as _ <- _. cbv beta iota.
      rewrite String.eqb_refl. split; [intros _; split |]; reflexivity. }
  unfold ret at 1.
  unfold bind at 1, uuid_New at 1. unfold bind at 1, time_Now at 1.
  unfold bind at 1.
  destruct (repository.CreateClaim _ _) as [[e1 |] w2].
  { unfold ret. intros Heq. injection Heq as _ <- _. cbv beta iota.
    texts_differ.
    split; [discriminate | intros [_ H]; discriminate]. }
  unfold bind at 1.
  destruct (core.LogEvent _ _ _ w2) as [u w3].
  unfold ret. intros Heq. injection Heq as _ <- _.
  split; [contradiction | intros [_ H]; discriminate].
Qed.

(** X10: when [/claim] answers 400 and 404 to a POST whose body was
    decoded.  It answers 400 exactly when the validator refuses the
    request, and then the world is untouched; it answers 404 exactly when
    the validator accepts the request, the lookup of the pharmacy was
    answered and no pharmacy has the provider identifier of the request.
    A lookup that fails is not a 404. *)
Theorem claim_handler_400_and_404 :
  forall (Decode : string -> models.ClaimRequest + string)
         (cs : service.ClaimsService) (body : string)
         (request : models.ClaimRequest) (w : World),
    Decode body = inl request ->
    let (answer, w') :=
      handlers.HttpHandler_SubmitClaim Decode
        (handlers.Build_HttpHandler cs)
        {| handlers.Method := "POST"; handlers.Body := body |} w in
    (handlers.StatusCode answer = 400
     <-> utility.ValidateClaimRequest request <> None)
    /\ (handlers.StatusCode answer = 400 -> w' = w)
    /\ (handlers.StatusCode answer = 404
        <-> utility.ValidateClaimRequest request = None
            /\ next_fault w = None
            /\ repository.has_pharmacy_npi (models.NPI request) (tables w)
               = false).
Proof.
  intros Decode cs body request w Hd.
  unfold handlers.HttpHandler_SubmitClaim, handlers.sendErrorResponse,
    handlers.sendJSONResponse, handlers.ValidateClaim, handlers.SubmitClaim,
    handlers.ClaimsService_ServiceInterface, handlers.MethodPost.
  cbn [handlers.service handlers.Method handlers.Body String.eqb Ascii.eqb
       Bool.eqb negb].
  rewrite Hd. unfold bind at 1, ret at 1. unfold service.ValidateClaim.
  destruct (utility.ValidateClaimRequest request) as [e |] eqn:Hv.
  { unfold ret. cbn.
    split; [split; [discriminate | reflexivity] |].
    split; [reflexivity |].
    split; [discriminate | intros [H _]; discriminate]. }
  unfold bind.
  destruct (service.SubmitClaim cs request w) as [[response err] w1] eqn:Hs.
  pose proof (SubmitClaim_not_found_text _ _ _ _ _ _ Hv Hs) as Htext.
  destruct err as [e |].
  - destruct (e =? _)%string; unfold ret; cbn.
    + split; [split; [discriminate | congruence] |].
      split; [discriminate |].
      split; [intros _; split; [reflexivity | apply Htext; reflexivity] |].
      reflexivity.
    + split; [split; [discriminate | congruence] |].
      split; [discriminate |].
      split; [discriminate |].
      intros [_ H]. apply Htext in H. discriminate.
  - unfold ret. cbn.
    split; [split; [discriminate | congruence] |].
    split; [discriminate |].
    split; [discriminate |].
    intros [_ H]. apply Htext in H. contradiction.
Qed.

(** The sample request sent to the empty database, and a request with a
    drug code of five digits. *)
Lemma claim_handler_404_witness :
  handlers.StatusCode
    (fst (handlers.HttpHandler_SubmitClaim sample_claim.Decode
            sample.handler sample_claim.post sample.empty_world))
  = 404.
Proof.
  pose proof (claim_handler_400_and_404 sample_claim.Decode
                sample.claims_service sample_claim.body sample.request
                sample.empty_world eq_refl) as H.
  fold sample_claim.post in H. fold sample.handler in H.
  destruct (handlers.HttpHandler_SubmitClaim sample_claim.Decode
              sample.handler sample_claim.post sample.empty_world)
    as [answer w'].
  cbn [fst]. apply H. repeat split.
Defined.

(** ** The answers of the reversal handler *)

Lemma find_claim_has_claim_id :
  forall id t c,
    find (fun c => (models.Claim_ID c =? id)%N) (claims t) = Some c ->
    repository.has_claim_id id t = true.
Proof.
  intros id t c. unfold repository.has_claim_id.
  induction (claims t) as [| c' l IH]; cbn; [discriminate |].
  destruct (models.Claim_ID c' =? id)%N; cbn; [reflexivity | exact IH].
Qed.

Lemma find_claim_none :
  forall id t,
    find (fun c => (models.Claim_ID c =? id)%N) (claims t) = None ->
    repository.has_claim_id id t = false.
Proof.
  intros id t. unfold repository.has_claim_id.
  induction (claims t) as [| c' l IH]; cbn; [reflexivity |].
  destruct (models.Claim_ID c' =? id)%N; cbn; [discriminate | exact IH].
Qed.

(** [service.ReverseClaim] under any schedule of faults.  With an error
    the tables are as they were, and the error is the not-found text
    exactly when the lookup was answered and found no claim.  With nil
    the claim was stored, the response names it, and the tables are as
    they were or have the one new reversal. *)
Lemma service_ReverseClaim_cases :
  forall cs request w response err w',
    service.ReverseClaim cs request w = ((response, err), w') ->
    match err with
    | Some e =>
        tables w' = tables w
        /\ ((e =? "claim with ID " ++ uuid.String (models.ClaimID request)
                    ++ " not found")%string = true
            <-> next_fault w = None
                /\ repository.has_claim_id (models.ClaimID request) (tables w)
                   = false)
    | None =>
        response
        = Some {| models.ReversalResponse_Status := "claim reversed";
                  models.ReversalResponse_ClaimID := models.ClaimID request |}
        /\ repository.has_claim_id (models.ClaimID request) (tables w) = true
        /\ (tables w' = tables w
            \/ (repository.has_reversal_of (models.ClaimID request) (tables w)
                = false
                /\ tables w'
                   = add_reversal (new_reversal (models.ClaimID request) w)
                       (tables w)))
    end.
Proof.
  intros cs request w response err w'.
  unfold service.ReverseClaim.
  generalize (uuid.String (models.ClaimID request)). intros idtext.
  unfold bind at 1. rewrite GetClaimByID_result.
  destruct (next_fault w) as [e0 |] eqn:Hnf.
  { unfold ret. intros Heq. injection Heq as _ <- <-.
    split; [reflexivity |]. texts_differ.
    split; [discriminate | intros [H _]; discriminate]. }
  destruct (find _ (claims (tables w))) as [claim |] eqn:Hfind.
  2:{ unfold ret. intros Heq. injection Heq as _ <- <-.
      split; [reflexivity |]. rewrite String.eqb_refl.
      split; [intros _; split; [reflexivity |] | reflexivity].
      exact (find_claim_none _ _ Hfind). }
  pose proof (find_claim_id _ _ _ Hfind) as Hcid.
  pose proof (find_claim_has_claim_id _ _ _ Hfind) as Hhas.
  unfold bind at 1.
  destruct (repository.ReverseClaim _ _ (after_roundtrip w))
    as [rerr w2] eqn:Hrev.
  apply repository_ReverseClaim_cases in Hrev.
  change (tables (after_roundtrip w)) with (tables w) in Hrev.
  change (new_reversal (models.ClaimID request) (after_roundtrip w))
    with (new_reversal (models.ClaimID request) w) in Hrev.
  destruct rerr as [e1 |].
  { unfold ret. intros Heq. injection Heq as _ <- <-.
    destruct Hrev as [Hsame | (Hnone & _)]; [| discriminate].
    split; [exact Hsame |]. texts_differ.
    split; [discriminate | intros [_ H]; congruence]. }
  unfold bind at 1. rewrite GetPharmacyByNPI_result.
  assert (Hend : forall payload w3,
             tables w3 = tables w2 ->
             (core.LogEvent (service.logger cs) "claim_reversed" payload ;;;
              ret (Some {| models.ReversalResponse_Status := "claim reversed";
                           models.ReversalResponse_ClaimID :=
                             models.Claim_ID claim |}, @None string)) w3
             = ((response, err), w') ->
             response
             = Some {| models.ReversalResponse_Status := "claim reversed";
                       models.ReversalResponse_ClaimID :=
                         models.ClaimID request |}
             /\ err = None /\ tables w' = tables w2).
  { intros payload w3 Ht3. unfold bind.
    pose proof (LogEvent_same_db (service.logger cs) "claim_reversed"
                  payload w3) as (Ht5 & _).
    destruct (core.LogEvent _ _ _ w3) as [u w5]. cbn [snd] in Ht5.
    unfold ret. intros Heq. injection Heq as <- <- <-.
    rewrite Hcid, Ht5. repeat split. exact Ht3. }
  assert (Hgoal : response
                  = Some {| models.ReversalResponse_Status := "claim reversed";
                            models.ReversalResponse_ClaimID :=
                              models.ClaimID request |}
                  /\ err = None /\ tables w' = tables w2 ->
                  match err with
                  | Some e =>
                      tables w' = tables w
                      /\ ((e =? "claim with ID " ++ idtext
                                  ++ " not found")%string = true
                          <-> None = @None string
                              /\ repository.has_claim_id
                                   (models.ClaimID request) (tables w)
                                 = false)
                  | None =>
                      response
                      = Some {| models.ReversalResponse_Status :=
                                  "claim reversed";
                                models.ReversalResponse_ClaimID :=
                                  models.ClaimID request |}
                      /\ repository.has_claim_id (models.ClaimID request)
                           (tables w) = true
                      /\ (tables w' = tables w
                          \/ (repository.has_reversal_of
                                (models.ClaimID request) (tables w) = false
                              /\ tables w'
                                 = add_reversal
                                     (new_reversal (models.ClaimID request)
                                        w) (tables w)))
                  end).
  { intros (Hresp & -> & Ht). split; [exact Hresp |]. split; [exact Hhas |].
    rewrite Ht. destruct Hrev as [Hsame | (_ & _ & Hr & Hadd)];
      [left; exact Hsame | right; split; assumption]. }
  destruct (next_fault w2) as [pe |].
  - rewrite log_then. intros Hrun. apply Hgoal.
    refine (Hend _ _ _ Hrun). reflexivity.
  - unfold bind at 1, ret at 1. intros Hrun. apply Hgoal.
    refine (Hend _ _ _ Hrun). reflexivity.
Qed.

(** X11: a reversal is stored only when [/reversal] answers 200.
    Whatever the request and the schedule of faults, with a status other
    than 200 the tables are what they were.  With 200 the body was
    decoded, the response names the claim of the request, that claim was
    stored, and the tables either have the one new row of [reversals] for
    it or are what they were: the second case is a commit that failed,
    which the handler still answers 200. *)
Theorem reversal_stored_only_with_200 :
  forall (Decode : string -> models.ReversalRequest + string)
         (cs : service.ClaimsService) (r : handlers.Request) (w : World),
    let (answer, w') :=
      handlers.HttpHandler_ReverseClaim Decode
        (handlers.Build_HttpHandler cs) r w in
    (handlers.StatusCode answer <> 200 -> tables w' = tables w)
    /\ (handlers.StatusCode answer = 200 ->
        exists request,
          Decode (handlers.Body r) = inl request
          /\ answer = reversed (models.ClaimID request)
          /\ repository.has_claim_id (models.ClaimID request) (tables w)
             = true
          /\ (tables w' = tables w
              \/ (repository.has_reversal_of (models.ClaimID request)
                    (tables w) = false
                  /\ tables w'
                     = add_reversal
                         (new_reversal (models.ClaimID request) w)
                         (tables w)))).
Proof.
  intros Decode cs r w.
  unfold handlers.HttpHandler_ReverseClaim, handlers.sendErrorResponse,
    handlers.sendJSONResponse, handlers.ReverseClaim,
    handlers.ClaimsService_ServiceInterface.
  cbn [handlers.service].
  destruct (negb _).
  { unfold ret. split; [reflexivity | discriminate]. }
  destruct (Decode (handlers.Body r)) as [request | e].
  2:{ unfold ret. split; [reflexivity | discriminate]. }
  destruct (_ =? uuid.Nil)%N.
  { unfold ret. split; [reflexivity | discriminate]. }
  unfold bind.
  destruct (service.ReverseClaim cs request w) as [[response err] w1] eqn:Hs.
  apply service_ReverseClaim_cases in Hs.
  destruct err as [e |].
  - destruct Hs as [Ht _].
    destruct (e =? _)%string;
      [| destruct (e =? _)%string]; unfold ret;
      (split; [intros _; exact Ht | discriminate]).
  - destruct Hs as (-> & Hhas & Ht). unfold ret.
    split; [intros Hne; contradiction Hne; reflexivity |].
    intros _. exists request. repeat split; assumption.
Qed.

(** The reversal of the sample claim: 200 and the new row. *)
Lemma reversal_stored_witness :
  fst (handlers.HttpHandler_ReverseClaim sample.DecodeReversalRequest
         sample.handler sample_reversal.post sample.world)
  = reversed sample.claim_id
  /\ repository.has_claim_id sample.claim_id (tables sample.world) = true.
Proof.
  pose proof (reversal_stored_only_with_200 sample.DecodeReversalRequest
                sample.claims_service sample_reversal.post sample.world)
    as H.
  fold sample.handler in H.
  destruct (handlers.HttpHandler_ReverseClaim sample.DecodeReversalRequest
              sample.handler sample_reversal.post sample.world)
    as [answer w'] eqn:Hrun.
  assert (Hs : handlers.StatusCode answer = 200).
  { apply (f_equal fst) in Hrun. cbn [fst] in Hrun. rewrite <- Hrun.
    vm_compute. reflexivity. }
  destruct H as [_ H]. destruct (H Hs) as (request & Hd & Ha & Hhas & _).
  assert (Hd' : sample.DecodeReversalRequest
                  (handlers.Body sample_reversal.post)
                = inl sample_reversal.request) by reflexivity.
  rewrite Hd' in Hd. injection Hd as <-.
  cbn [fst]. split; assumption.
Defined.

(** X12: when [/reversal] answers 400 and 404 to a POST.  It answers 400
    exactly when the body cannot be decoded or the claim identifier in
    it is the nil UUID, and then the world is untouched: the service was
    not called.  It answers 404 exactly when the body was decoded, the
    identifier is not nil, the lookup of the claim was answered and no
    claim has that identifier.  A lookup that fails is not a 404. *)
Theorem reversal_handler_400_and_404 :
  forall (Decode : string -> models.ReversalRequest + string)
         (cs : service.ClaimsService) (body : string) (w : World),
    let (answer, w') :=
      handlers.HttpHandler_ReverseClaim Decode
        (handlers.Build_HttpHandler cs)
        {| handlers.Method := "POST"; handlers.Body := body |} w in
    (handlers.StatusCode answer = 400
     <-> match Decode body with
         | inl request => models.ClaimID request = uuid.Nil
         | inr _ => True
         end)
    /\ (handlers.StatusCode answer = 400 -> w' = w)
    /\ (handlers.StatusCode answer = 404
        <-> exists request,
              Decode body = inl request
              /\ models.ClaimID request <> uuid.Nil
              /\ next_fault w = None
              /\ repository.has_claim_id (models.ClaimID request) (tables w)
                 = false).
Proof.
  intros Decode cs body w.
  unfold handlers.HttpHandler_ReverseClaim, handlers.sendErrorResponse,
    handlers.sendJSONResponse, handlers.ReverseClaim,
    handlers.ClaimsService_ServiceInterface, handlers.MethodPost.
  cbn [handlers.service handlers.Method handlers.Body String.eqb Ascii.eqb
       Bool.eqb negb].
  destruct (Decode body) as [request | e].
  2:{ unfold ret. cbn [handlers.StatusCode].
      split; [split; [intros _; exact I | reflexivity] |].
      split; [reflexivity |].
      split; [discriminate | intros (request & Hd & _); discriminate]. }
  destruct (models.ClaimID request =? uuid.Nil)%N eqn:Hnil.
  { apply N.eqb_eq in Hnil. unfold ret. cbn [handlers.StatusCode].
    split; [split; [intros _; exact Hnil | reflexivity] |].
    split; [reflexivity |].
    split; [discriminate |].
    intros (request' & Hd & Hne & _). injection Hd as <-. contradiction. }
  apply N.eqb_neq in Hnil.
  unfold bind.
  destruct (service.ReverseClaim cs request w) as [[response err] w1] eqn:Hs.
  destruct err as [e |].
  - pose proof (service_ReverseClaim_error_text _ _ _ _ _ _ Hs) as H409.
    apply service_ReverseClaim_cases in Hs.
    destruct Hs as [_ Htext].
    destruct (e =? "claim with ID " ++ _)%string.
    + unfold ret. cbn [handlers.StatusCode].
      split; [split; [discriminate | contradiction] |].
      split; [discriminate |].
      split; [| reflexivity].
      intros _. exists request.
      destruct (proj1 Htext eq_refl) as [Hnf Hhas]. repeat split; assumption.
    + rewrite H409. unfold ret. cbn [handlers.StatusCode].
      split; [split; [discriminate | contradiction] |].
      split; [discriminate |].
      split; [discriminate |].
      intros (request' & Hd & _ & Hnf & Hhas). injection Hd as <-.
      assert (false = true) by (apply Htext; split; assumption).
      discriminate.
  - apply service_ReverseClaim_cases in Hs.
    destruct Hs as (_ & Hhas & _). unfold ret. cbn [handlers.StatusCode].
    split; [split; [discriminate | contradiction] |].
    split; [discriminate |].
    split; [discriminate |].
    intros (request' & Hd & _ & _ & Hno). injection Hd as <-. congruence.
Qed.

(** A reversal of the sample claim asked of the empty database. *)
Lemma reversal_handler_404_witness :
  handlers.StatusCode
    (fst (handlers.HttpHandler_ReverseClaim sample.DecodeReversalRequest
            sample.handler sample_reversal.post sample.empty_world))
  = 404.
Proof.
  pose proof (reversal_handler_400_and_404 sample.DecodeReversalRequest
                sample.claims_service sample.reversal_body
                sample.empty_world) as H.
  fold sample_reversal.post in H. fold sample.handler in H.
  destruct (handlers.HttpHandler_ReverseClaim sample.DecodeReversalRequest
              sample.handler sample_reversal.post sample.empty_world)
    as [answer w'].
  cbn [fst]. apply H. exists sample_reversal.request.
  repeat split. discriminate.
Defined.

(** ** The loads of claims and reversals *)

Lemma alreadyLoaded_skips_iff :
  forall tableName count warning skipping name w,
    fst (service.alreadyLoaded (repository.countRows tableName count)
           warning skipping name w) = true
    <-> next_fault w = None /\ 0 < count (tables w).
Proof.
  intros tableName count warning skipping name w. split.
  - intros Hskip.
    destruct (next_fault w) as [e |] eqn:Hnf.
    + rewrite alreadyLoaded_not_skipped in Hskip; [discriminate |].
      right. rewrite Hnf. discriminate.
    + split; [reflexivity |].
      destruct (Z.lt_ge_cases 0 (count (tables w))) as [Hpos | Hle];
        [exact Hpos |].
      rewrite alreadyLoaded_not_skipped in Hskip; [discriminate |].
      left. lia.
  - intros [Hnf Hpos].
    rewrite (alreadyLoaded_counted _ _ _ _ _ _ Hnf Hpos). reflexivity.
Qed.

(** Past the count and the listing of the directory, nothing that
    happens to a file or to a batch reaches the result. *)
Lemma loadDataFromFiles_result :
  forall (T : Type) Join Base arrival fs ls dataDir subDir filePattern
         tableName count (fileLoader : string -> list T + string)
         (batchProcessor : list T -> M error) dataTypeName w,
    fst (service.loadDataFromFiles Join Base arrival fs ls dataDir subDir
           filePattern (repository.countRows tableName count) fileLoader
           batchProcessor dataTypeName w)
    = if fst (service.alreadyLoaded (repository.countRows tableName count)
                "Warning: Failed to check %s count: %v"
                "%s already loaded (%d records found), skipping data loading"
                [AStr dataTypeName] w)
      then None
      else match snd (service.Glob fs (Join (Join dataDir subDir)
                                         filePattern)) with
           | Some e =>
               Some ("failed to read " ++ dataTypeName ++ " directory: " ++ e)
           | None => None
           end.
Proof.
  intros. unfold service.loadDataFromFiles. unfold bind at 1.
  destruct (service.alreadyLoaded _ _ _ _ w) as [[|] w1]; [reflexivity |].
  cbn [fst].
  destruct (service.Glob fs _) as [files [e |]]; [reflexivity |].
  cbn [snd].
  destruct (service.len files =? 0); [reflexivity |].
  rewrite log_then. unfold bind at 1.
  destruct (service.drain _ _ _ _ _ _ _ _ _) as [[batch totalItems] w2].
  unfold bind at 1.
  destruct (0 <? service.len batch).
  - unfold bind at 1.
    destruct (batchProcessor batch w2) as [[e |] w3]; reflexivity.
  - reflexivity.
Qed.

Lemma json_loads_listing :
  forall (Join : string -> string -> string) (Base : string -> string)
         (UnmarshalClaims : string -> list models.Claim + string)
         (UnmarshalReversals : string -> list models.Reversal + string)
         (arrival : list string -> list string) (fs : service.FS)
         (ls : service.LoaderService) (dataDir : string) (w : World)
         (e : string),
    (fst (service.LoadClaimsFromData Join Base UnmarshalClaims arrival fs ls
            dataDir w) = Some e
     <-> (next_fault w <> None \/ claims (tables w) = [])
         /\ exists g,
              snd (service.Glob fs (Join (Join dataDir "claims") "*.json"))
              = Some g
              /\ e = "failed to read claims directory: " ++ g)
    /\ (fst (service.LoadReversalsFromData Join Base UnmarshalReversals
               arrival fs ls dataDir w) = Some e
        <-> (next_fault w <> None \/ reversals (tables w) = [])
            /\ exists g,
                 snd (service.Glob fs (Join (Join dataDir "reverts")
                                         "*.json"))
                 = Some g
                 /\ e = "failed to read reversals directory: " ++ g).
Proof.
  intros Join Base UnmarshalClaims UnmarshalReversals arrival fs ls dataDir
    w e.
  assert (Hgen : forall (A : Type) (rows : Tables -> list A) tableName
                        warning skipping name,
             fst (service.alreadyLoaded
                    (repository.countRows tableName
                       (fun t => Z.of_nat (List.length (rows t))))
                    warning skipping name w) = false
             <-> next_fault w <> None \/ rows (tables w) = []).
  { intros A rows tableName warning skipping name.
    pose proof (alreadyLoaded_skips_iff tableName
                  (fun t => Z.of_nat (List.length (rows t)))
                  warning skipping name w) as Hiff.
    destruct (fst (service.alreadyLoaded _ _ _ _ w)).
    - split; [discriminate |].
      destruct (proj1 Hiff eq_refl) as [Hnf Hpos].
      cbv beta in Hpos.
      intros [H | H]; [contradiction |]. rewrite H in Hpos. cbn in Hpos. lia.
    - split; [| reflexivity]. intros _.
      destruct (next_fault w) as [f |]; [left; discriminate |].
      right. destruct (rows (tables w)) as [| a l] eqn:Hrows;
        [reflexivity |].
      assert (false = true); [| discriminate].
      apply Hiff. split; [reflexivity |]. cbn. lia. }
  split.
  - unfold service.LoadClaimsFromData, repository.CountClaims.
    rewrite loadDataFromFiles_result.
    match goal with
    | |- context [fst (service.alreadyLoaded
                         (repository.countRows ?tn _) ?wa ?sk ?nm w)] =>
        pose proof (Hgen _ claims tn wa sk nm) as Hskip
    end.
    revert Hskip.
    destruct (fst (service.alreadyLoaded _ _ _ _ w)); intros Hskip.
    + split; [discriminate |].
      intros [H _]. apply Hskip in H. discriminate.
    + destruct (snd (service.Glob fs _)) as [g |].
      * split.
        -- intros Heq. injection Heq as <-.
           split; [apply Hskip; reflexivity |].
           exists g. split; reflexivity.
        -- intros (_ & g' & Hg & ->). injection Hg as <-. reflexivity.
      * split; [discriminate | intros (_ & g' & Hg & _); discriminate].
  - unfold service.LoadReversalsFromData, repository.CountReversals.
    rewrite loadDataFromFiles_result.
    match goal with
    | |- context [fst (service.alreadyLoaded
                         (repository.countRows ?tn _) ?wa ?sk ?nm w)] =>
        pose proof (Hgen _ reversals tn wa sk nm) as Hskip
    end.
    revert Hskip.
    destruct (fst (service.alreadyLoaded _ _ _ _ w)); intros Hskip.
    + split; [discriminate |].
      intros [H _]. apply Hskip in H. discriminate.
    + destruct (snd (service.Glob fs _)) as [g |].
      * split.
        -- intros Heq. injection Heq as <-.
           split; [apply Hskip; reflexivity |].
           exists g. split; reflexivity.
        -- intros (_ & g' & Hg & ->). injection Hg as <-. reflexivity.
      * split; [discriminate | intros (_ & g' & Hg & _); discriminate].
Qed.

(** X13: the loads of claims and of reversals fail only on the listing
    of their directory.  Let the decoder return, with items or with an
    error, on the text of every listed file that can be read: a text on
    which it panics, as on a time stamp of fewer than two bytes, ends
    the process.  Then [LoadClaimsFromData] returns an error exactly
    when the load is not skipped (the count query failed, or the table is
    empty) and the listing of the files of the [claims] directory fails,
    and the error is that of the listing; the same holds for
    [LoadReversalsFromData] and the [reverts] directory.  A file that
    cannot be read, a text the decoder returns an error for, a batch the
    database refuses and a transaction that fails are logged and never
    reach the result. *)
Theorem json_loads_fail_only_on_the_listing :
  forall (Join : string -> string -> string) (Base : string -> string)
         (DecodeClaims :
            string -> CustomTime.Outcome (list models.Claim + string))
         (DecodeReversals :
            string -> CustomTime.Outcome (list models.Reversal + string))
         (arrival : list string -> list string) (fs : service.FS)
         (ls : service.LoaderService) (dataDir : string) (w : World)
         (e : string),
    (returns_on DecodeClaims
       (texts fs
          (fst (service.Glob fs (Join (Join dataDir "claims") "*.json")))) ->
     (fst (service.LoadClaimsFromData Join Base (returned DecodeClaims)
             arrival fs ls dataDir w) = Some e
      <-> (next_fault w <> None \/ claims (tables w) = [])
          /\ exists g,
               snd (service.Glob fs (Join (Join dataDir "claims") "*.json"))
               = Some g
               /\ e = "failed to read claims directory: " ++ g))
    /\ (returns_on DecodeReversals
          (texts fs
             (fst (service.Glob fs
                     (Join (Join dataDir "reverts") "*.json")))) ->
        (fst (service.LoadReversalsFromData Join Base
                (returned DecodeReversals) arrival fs ls dataDir w) = Some e
         <-> (next_fault w <> None \/ reversals (tables w) = [])
             /\ exists g,
                  snd (service.Glob fs (Join (Join dataDir "reverts")
                                          "*.json"))
                  = Some g
                  /\ e = "failed to read reversals directory: " ++ g)).
Proof.
  intros Join Base DecodeClaims DecodeReversals arrival fs ls dataDir w e.
  destruct (json_loads_listing Join Base (returned DecodeClaims)
              (returned DecodeReversals) arrival fs ls dataDir w e)
    as [Hclaims Hreversals].
  split; intros _; assumption.
Qed.

(** The load of claims into the empty database from a directory whose
    listing fails. *)
Lemma json_loads_witness :
  fst (service.LoadClaimsFromData sample_loader.Join sample_loader.Base
         sample_loader.UnmarshalClaims sample_loader.arrival
         sample_json.unreadable sample_loader.loader "./data"
         sample.empty_world)
  = Some "failed to read claims directory: syntax error in pattern".
Proof.
  apply (proj1 (json_loads_fail_only_on_the_listing
                  sample_loader.Join sample_loader.Base
                  (fun text =>
                     CustomTime.Returns (sample_loader.UnmarshalClaims text))
                  (fun text =>
                     CustomTime.Returns
                       (sample_loader.UnmarshalReversals text))
                  sample_loader.arrival
                  sample_json.unreadable sample_loader.loader "./data"
                  sample.empty_world
                  "failed to read claims directory: syntax error in pattern")).
  - intros text [].
  - split; [right; reflexivity |].
    exists "syntax error in pattern". split; reflexivity.
Defined.

(** ** A pharmacy file the database accepts *)

(** The database of [w] answers and holds the sequence value and the
    tables given. *)
Lemma exec_rows_succeeds :
  forall ps w seq1 t1,
    db_faults w = [] ->
    store ps (pharmacies_id_seq w) (tables w) = Some (seq1, t1) ->
    exists w1,
      repository.exec_rows
        (fun p => repository.ExecPharmacy true (models.Pharmacy_NPI p)
                    (models.Pharmacy_Chain p)) ps w = (None, w1)
      /\ tables w1 = t1 /\ pharmacies_id_seq w1 = seq1 /\ db_faults w1 = [].
Proof.
  induction ps as [| p ps IH]; intros w seq1 t1 Hf;
    cbn [store repository.exec_rows].
  - intros Heq. injection Heq as <- <-. exists w. repeat split. exact Hf.
  - destruct (repository.insert_pharmacy true (pharmacies_id_seq w + 1)
                (models.Pharmacy_NPI p) (models.Pharmacy_Chain p) (tables w))
      as [t' | e] eqn:Hins; [| discriminate].
    intros Hst.
    unfold bind at 1. unfold repository.ExecPharmacy at 1.
    unfold bind at 1, roundtrip at 1. rewrite Hf. cbn [pop].
    unfold bind at 1, repository.nextval at 1.
    unfold bind at 1, get_tables at 1.
    cbn [tables with_pharmacies_id_seq with_db_faults pharmacies_id_seq].
    rewrite Hins.
    unfold bind at 1, put_tables at 1, ret at 1.
    apply IH; [reflexivity | exact Hst].
Qed.

Lemma BatchCreatePharmacies_succeeds :
  forall ps w seq1 t1,
    db_faults w = [] ->
    store ps (pharmacies_id_seq w) (tables w) = Some (seq1, t1) ->
    exists w1,
      repository.BatchCreatePharmacies ps w = (None, w1)
      /\ tables w1 = t1 /\ pharmacies_id_seq w1 = seq1 /\ db_faults w1 = [].
Proof.
  intros ps w seq1 t1 Hf Hst.
  unfold repository.BatchCreatePharmacies, repository.batchInsert.
  unfold bind at 1. unfold repository.BeginTx, bind at 1, roundtrip at 1.
  rewrite Hf. cbn [pop].
  unfold bind at 1, get_tables at 1, ret at 1.
  unfold bind at 1, roundtrip at 1.
  cbn [db_faults with_db_faults tables pop].
  unfold bind at 1.
  destruct (exec_rows_succeeds ps (with_db_faults [] (with_db_faults [] w))
              seq1 t1 eq_refl Hst) as (w1 & Hrun & Ht & Hs & Hf1).
  rewrite Hrun.
  unfold repository.Commit, bind, roundtrip. rewrite Hf1. cbn [pop].
  unfold ret. eexists. split; [reflexivity |].
  cbn [tables pharmacies_id_seq db_faults with_db_faults].
  repeat split; assumption.
Qed.

Lemma processPharmaciesBatch_succeeds :
  forall ls ps w seq1 t1,
    db_faults w = [] ->
    store ps (pharmacies_id_seq w) (tables w) = Some (seq1, t1) ->
    exists w1,
      service.processPharmaciesBatch ls ps w = (None, w1)
      /\ tables w1 = t1 /\ pharmacies_id_seq w1 = seq1 /\ db_faults w1 = [].
Proof.
  intros ls ps w seq1 t1 Hf Hst. unfold service.processPharmaciesBatch.
  destruct (BatchCreatePharmacies_succeeds ps w seq1 t1 Hf Hst)
    as (w1 & Hrun & Ht & Hs & Hf1).
  unfold bind at 1. rewrite Hrun. unfold bind.
  pose proof (forEach_LogEvent models.Pharmacy (service.loader_logger ls)
                "pharmacy_loaded"
                (fun pharmacy =>
                   [("npi", VString (models.Pharmacy_NPI pharmacy));
                    ("chain", VString (models.Pharmacy_Chain pharmacy))])
                ps w1) as [(Ht2 & Hs2 & Hf2) _].
  destruct (forEach ps _ w1) as [u w2]. cbn [snd] in Ht2, Hs2, Hf2.
  unfold ret. exists w2. split; [reflexivity |].
  rewrite Ht2, Hs2, Hf2. repeat split; assumption.
Qed.

Lemma readLoop_succeeds :
  forall ls filename lines batch totalLoaded lineNumber w seq1 t1,
    db_faults w = [] ->
    store (batch ++ valid_records lines) (pharmacies_id_seq w) (tables w)
    = Some (seq1, t1) ->
    exists w1,
      service.readLoop ls filename 2 lines batch totalLoaded lineNumber w
      = ((totalLoaded + service.len batch
          + service.len (valid_records lines), None), w1)
      /\ tables w1 = t1 /\ pharmacies_id_seq w1 = seq1 /\ db_faults w1 = [].
Proof.
  intros ls filename lines.
  induction lines as [| l lines IH];
    intros batch totalLoaded lineNumber w seq1 t1 Hf.
  - cbn [service.readLoop valid_records]. rewrite app_nil_r.
    unfold service.finish. intros Hst.
    destruct (0 <? service.len batch) eqn:Hb.
    + destruct (processPharmaciesBatch_succeeds ls batch w seq1 t1 Hf Hst)
        as (w1 & Hrun & Hrest).
      unfold bind. rewrite Hrun. unfold ret. exists w1.
      split; [| exact Hrest].
      unfold service.len at 3. cbn. rewrite Z.add_0_r. reflexivity.
    + apply len_nonpos_nil in Hb. subst batch.
      cbn [store] in Hst. injection Hst as <- <-.
      unfold ret. exists w. split; [| repeat split; exact Hf].
      unfold service.len. cbn. rewrite !Z.add_0_r. reflexivity.
  - cbn [service.readLoop].
    assert (Hskip : forall fmt a n,
               store (batch ++ valid_records lines) (pharmacies_id_seq w)
                 (tables w) = Some (seq1, t1) ->
               exists w1,
                 service.readLoop ls filename 2 lines batch totalLoaded n
                   (snd (log_Printf fmt a w))
                 = ((totalLoaded + service.len batch
                     + service.len (valid_records lines), None), w1)
                 /\ tables w1 = t1 /\ pharmacies_id_seq w1 = seq1
                 /\ db_faults w1 = []).
    { intros fmt a n Hst. apply IH; [exact Hf | exact Hst]. }
    destruct l as [line fields | line column reason].
    + unfold service.readRecord.
      replace (0 <? 2) with true by reflexivity.
      destruct (service.len fields =? 2) eqn:Hlen; cbn [negb].
      * assert (Hab : exists a b, fields = [a; b]).
        { apply Z.eqb_eq in Hlen. unfold service.len in Hlen.
          destruct fields as [| a [| b [| c fields']]]; cbn in Hlen; try lia.
          exists a, b. reflexivity. }
        destruct Hab as (a & b & ->).
        replace (service.len [a; b] <? 2) with false by reflexivity.
        cbn [nth models.Pharmacy_NPI valid_records valid_row].
        destruct (utility.ValidateNPI (strings.TrimSpace b)) as [e |] eqn:Hv.
        -- rewrite log_then. apply Hskip.
        -- change {| models.Pharmacy_ID := 0;
                     models.Pharmacy_NPI := strings.TrimSpace b;
                     models.Pharmacy_Chain := strings.TrimSpace a |}
             with (pharmacy_of [a; b]).
           rewrite len_cons.
           replace (batch ++ pharmacy_of [a; b] :: valid_records lines)%list
             with ((batch ++ [pharmacy_of [a; b]]) ++ valid_records lines)%list
             by (rewrite <- app_assoc; reflexivity).
           destruct (service.batchSize ls
                     <=? service.len (batch ++ [pharmacy_of [a; b]])).
           ++ rewrite store_app.
              destruct (store (batch ++ [pharmacy_of [a; b]]) _ _)
                as [[seq2 t2] |] eqn:Hst1; [| discriminate].
              intros Hst.
              destruct (processPharmaciesBatch_succeeds ls _ w seq2 t2 Hf
                          Hst1) as (w2 & Hrun & Ht2 & Hs2 & Hf2).
              unfold bind at 1. rewrite Hrun. cbv beta iota.
              subst seq2 t2.
              destruct (IH [] (totalLoaded
                               + service.len (batch ++ [pharmacy_of [a; b]]))
                          (lineNumber + 1) w2 seq1 t1 Hf2 Hst)
                as (w1 & Hrun1 & Hrest).
              exists w1. split; [| exact Hrest]. rewrite Hrun1.
              rewrite len_app_one. unfold service.len at 2. cbn.
              f_equal. f_equal. lia.
           ++ intros Hst.
              destruct (IH (batch ++ [pharmacy_of [a; b]])%list totalLoaded
                          (lineNumber + 1) w seq1 t1 Hf Hst)
                as (w1 & Hrun1 & Hrest).
              exists w1. split; [| exact Hrest]. rewrite Hrun1.
              rewrite len_app_one. f_equal. f_equal. lia.
      * assert (Hinvalid : valid_row (service.Fields line fields) = false).
        { apply Z.eqb_neq in Hlen. unfold service.len in Hlen.
          destruct fields as [| a [| b [| c fields']]]; cbn in Hlen;
            try reflexivity. lia. }
        cbn [valid_records]. rewrite Hinvalid.
        replace (("record on line " ++ service.itoa line
                    ++ ": wrong number of fields" =? service.EOF)%string)
          with false by reflexivity.
        rewrite log_then. apply Hskip.
    + unfold service.readRecord. cbn [valid_records].
      replace (("parse error on line " ++ service.itoa line ++ ", column "
                  ++ service.itoa column ++ ": " ++ reason
                =? service.EOF)%string)
        with false by reflexivity.
      rewrite log_then. apply Hskip.
Qed.

Lemma valid_records_npi :
  forall rows p,
    In p (valid_records rows) ->
    utility.ValidateNPI (models.Pharmacy_NPI p) = None.
Proof.
  induction rows as [| l rows IH]; intros p; cbn [valid_records];
    [intros [] |].
  destruct l as [line fields | line column reason]; [| apply IH].
  destruct (valid_row (service.Fields line fields)) eqn:Hv; [| apply IH].
  intros [<- | Hin]; [| exact (IH p Hin)].
  destruct fields as [| a [| b [| c fields']]]; try discriminate.
  cbn [valid_row] in Hv. unfold pharmacy_of. cbn [nth models.Pharmacy_NPI].
  destruct (utility.ValidateNPI (strings.TrimSpace b));
    [discriminate | reflexivity].
Qed.

Lemma valid_chain_fits :
  forall chain,
    repository.valid_chain chain = true ->
    repository.varchar 20 chain = Some chain.
Proof.
  intros chain Hv. apply varchar_fits. unfold repository.valid_chain in Hv.
  apply orb_true_iff in Hv. destruct Hv as [Hv | Hv];
    [apply orb_true_iff in Hv; destruct Hv as [Hv | Hv] |];
    apply String.eqb_eq in Hv; subst chain; cbn; lia.
Qed.

(** Records with an identifier of ten bytes and one of the three chains
    are never refused: a record whose identifier is taken is passed
    over. *)
Lemma store_accepts :
  forall ps seq t,
    (forall p, In p ps ->
               String.length (models.Pharmacy_NPI p) = 10%nat
               /\ repository.valid_chain (models.Pharmacy_Chain p) = true) ->
    exists seq1 t1, store ps seq t = Some (seq1, t1).
Proof.
  induction ps as [| p ps IH]; intros seq t Hps; cbn [store].
  - exists seq, t. reflexivity.
  - destruct (Hps p (or_introl eq_refl)) as [Hnpi Hchain].
    unfold repository.insert_pharmacy.
    rewrite (varchar_fits 10 (models.Pharmacy_NPI p)) by lia.
    rewrite (valid_chain_fits _ Hchain), Hchain. cbn [negb].
    destruct (_ || _); apply IH; intros q Hq; apply Hps; right; exact Hq.
Qed.

Lemma loadPharmaciesFromCSV_accepted :
  forall fs ls filename line c1 c2 rows w,
    service.Open fs filename = inl (service.Fields line [c1; c2] :: rows) ->
    db_faults w = [] ->
    (forall p, In p (valid_records rows) ->
               repository.valid_chain (models.Pharmacy_Chain p) = true) ->
    exists w1,
      service.loadPharmaciesFromCSV fs ls filename w
      = ((service.len (valid_records rows), None), w1)
      /\ store (valid_records rows) (pharmacies_id_seq w) (tables w)
         = Some (pharmacies_id_seq w1, tables w1)
      /\ db_faults w1 = [].
Proof.
  intros fs ls filename line c1 c2 rows w Hopen Hf Hchains.
  destruct (store_accepts (valid_records rows) (pharmacies_id_seq w)
              (tables w)) as (seq1 & t1 & Hst).
  { intros p Hin. split; [| exact (Hchains p Hin)].
    apply (ValidateNPI_nil_iff (models.Pharmacy_NPI p)).
    exact (valid_records_npi _ _ Hin). }
  destruct (readLoop_succeeds ls filename rows [] 0 1 w seq1 t1 Hf Hst)
    as (w1 & Hrun & Ht & Hs & Hf1).
  exists w1.
  unfold service.loadPharmaciesFromCSV. rewrite Hopen.
  unfold service.NewReader, service.Read.
  cbn [service.rest service.FieldsPerRecord service.readRecord].
  replace (0 <? 0) with false by reflexivity.
  replace (0 =? 0) with true by reflexivity.
  replace (service.len [c1; c2]) with 2 by reflexivity.
  cbn [service.rest service.FieldsPerRecord].
  rewrite Hrun, Hst, Ht, Hs. split; [| split; [reflexivity | exact Hf1]].
  unfold service.len. cbn. reflexivity.
Qed.

(** X14: a pharmacy file is loaded whole when the database accepts it.
    Take a file whose header has two columns, a database that answers,
    and let every valid row name one of the three chains of the schema.
    Then [loadPharmaciesFromCSV] returns the number of valid rows and no
    error, whatever the batch size, and the sequence and the tables
    afterwards are those [store] leaves for the records of the valid
    rows in the order of the file; a row whose provider identifier is
    stored already is passed over in silence. *)
Theorem loadPharmaciesFromCSV_accepted_file :
  forall (fs : service.FS) (ls : service.LoaderService) (filename : string)
         (line : Z) (c1 c2 : string) (rows : list service.CsvLine)
         (w : World),
    service.Open fs filename = inl (service.Fields line [c1; c2] :: rows) ->
    db_faults w = [] ->
    (forall p, In p (valid_records rows) ->
               repository.valid_chain (models.Pharmacy_Chain p) = true) ->
    exists w1,
      service.loadPharmaciesFromCSV fs ls filename w
      = ((Z.of_nat (List.length (filter valid_row rows)), None), w1)
      /\ store (valid_records rows) (pharmacies_id_seq w) (tables w)
         = Some (pharmacies_id_seq w1, tables w1).
Proof.
  intros fs ls filename line c1 c2 rows w Hopen Hf Hchains.
  destruct (loadPharmaciesFromCSV_accepted fs ls filename line c1 c2 rows w
              Hopen Hf Hchains) as (w1 & Hrun & Hst & _).
  exists w1. rewrite Hrun. split; [| exact Hst].
  rewrite <- valid_records_length. reflexivity.
Qed.

(** The mixed sample file loaded into the empty database with a batch
    of one record. *)
Lemma loadPharmaciesFromCSV_accepted_witness :
  exists w1,
    service.loadPharmaciesFromCSV (sample_csv.files sample_csv.mixed)
      sample_csv.eager "pharmacies.csv" sample.empty_world
    = ((1, None), w1)
    /\ Some (1, {| pharmacies := [sample_csv.saint]; claims := [];
                   reversals := [] |})
       = Some (pharmacies_id_seq w1, tables w1).
Proof.
  apply (loadPharmaciesFromCSV_accepted_file
           (sample_csv.files sample_csv.mixed) sample_csv.eager
           "pharmacies.csv" 1 "chain" "npi" (tl sample_csv.mixed)
           sample.empty_world eq_refl eq_refl).
  intros p [<- | []]. reflexivity.
Defined.

(** ** Loading a batch again *)

Section Replay.

Variable A : Type.
Variable ins : A -> Tables -> Tables + string.

(** [present x t]: the key of [x] is in [t]. *)
Variable present : A -> Tables -> Prop.

Hypothesis ins_present :
  forall x t t', ins x t = inl t' -> present x t'.
Hypothesis ins_extends :
  forall x t t', ins x t = inl t' -> extends t t'.
Hypothesis present_extends :
  forall x t t', extends t t' -> present x t -> present x t'.
Hypothesis ins_again :
  forall x t t' t2, ins x t = inl t' -> present x t2 -> ins x t2 = inl t2.

Lemma exec_rows_leaves_keys :
  forall xs w w1,
    repository.exec_rows (fun x => repository.Exec (ins x)) xs w = (None, w1) ->
    extends (tables w) (tables w1)
    /\ forall x, In x xs ->
                 present x (tables w1) /\ skipped_when_present ins present x.
Proof.
  induction xs as [| x xs IH]; intros w w1; cbn [repository.exec_rows].
  - unfold ret. intros Heq. injection Heq as <-.
    split; [apply extends_refl | intros x []].
  - unfold bind at 1. unfold repository.Exec at 1.
    unfold bind at 1, roundtrip at 1.
    destruct (pop (db_faults w)) as [[e |] l]; [unfold ret; discriminate |].
    unfold bind at 1, get_tables at 1. cbn [tables with_db_faults].
    destruct (ins x (tables w)) as [t' | e] eqn:Hins;
      [| unfold ret; discriminate].
    unfold bind at 1, put_tables at 1, ret at 1.
    intros Hrest. apply IH in Hrest. cbn [tables with_tables] in Hrest.
    destruct Hrest as [Hext Hkeys].
    pose proof (ins_extends _ _ _ Hins) as Hext1.
    split; [exact (extends_trans _ _ _ Hext1 Hext) |].
    intros y [<- | Hin]; [| exact (Hkeys y Hin)].
    split.
    + exact (present_extends _ _ _ Hext (ins_present _ _ _ Hins)).
    + intros t2 Hp. exact (ins_again _ _ _ _ Hins Hp).
Qed.

Lemma batchInsert_leaves_keys :
  forall xs w w1,
    repository.batchInsert (fun x => repository.Exec (ins x)) xs w
    = (None, w1) ->
    extends (tables w) (tables w1)
    /\ forall x, In x xs ->
                 present x (tables w1) /\ skipped_when_present ins present x.
Proof.
  intros xs w w1.
  unfold repository.batchInsert, repository.BeginTx.
  unfold bind at 1. unfold bind at 1. unfold roundtrip at 1.
  destruct (pop (db_faults w)) as [[e0 |] l]; [unfold ret; discriminate |].
  unfold bind at 1. unfold get_tables at 1. unfold ret at 1.
  cbn [tables with_db_faults].
  unfold bind at 1. unfold roundtrip at 1.
  cbn [db_faults with_db_faults].
  destruct (pop l) as [[e1 |] l1].
  { unfold repository.Rollback, put_tables, bind, ret. discriminate. }
  unfold bind at 1.
  destruct (repository.exec_rows _ xs _) as [[e2 |] w2] eqn:Hrows.
  { unfold repository.Rollback, put_tables, bind, ret. discriminate. }
  apply exec_rows_leaves_keys in Hrows.
  cbn [tables with_db_faults] in Hrows.
  unfold repository.Commit, bind, roundtrip.
  destruct (pop (db_faults w2)) as [[e3 |] l3].
  { unfold put_tables, ret. discriminate. }
  unfold ret. intros Heq. injection Heq as <-. exact Hrows.
Qed.

(** Rows whose keys are present: every statement that runs is skipped. *)
Lemma exec_rows_again :
  forall xs w err w1,
    (forall x, In x xs -> present x (tables w) /\ skipped_when_present ins present x) ->
    repository.exec_rows (fun x => repository.Exec (ins x)) xs w = (err, w1) ->
    tables w1 = tables w
    /\ (db_faults w = [] -> err = None /\ db_faults w1 = []).
Proof.
  induction xs as [| x xs IH]; intros w err w1 Hkeys;
    cbn [repository.exec_rows].
  - unfold ret. intros Heq. injection Heq as <- <-.
    split; [reflexivity | intros Hf; split; [reflexivity | exact Hf]].
  - destruct (Hkeys x (or_introl eq_refl)) as [Hp Hskip].
    unfold bind at 1. unfold repository.Exec at 1.
    unfold bind at 1. unfold roundtrip at 1.
    destruct (pop (db_faults w)) as [[e |] l] eqn:Hpop.
    + unfold ret. intros Heq. injection Heq as <- <-.
      split; [reflexivity |]. intros Hf. rewrite Hf in Hpop. discriminate.
    + unfold bind at 1. unfold get_tables at 1.
      cbn [tables with_db_faults]. rewrite (Hskip _ Hp).
      unfold bind at 1. unfold put_tables at 1. unfold ret at 1.
      intros Hrest. apply IH in Hrest.
      2:{ intros y Hin. exact (Hkeys y (or_intror Hin)). }
      cbn [tables db_faults with_tables with_db_faults] in Hrest.
      destruct Hrest as [Ht Hnone]. split; [exact Ht |].
      intros Hf. apply Hnone.
      rewrite Hf in Hpop. injection Hpop as <-. reflexivity.
Qed.

Lemma batchInsert_again :
  forall xs w,
    (forall x, In x xs -> present x (tables w) /\ skipped_when_present ins present x) ->
    tables (snd (repository.batchInsert (fun x => repository.Exec (ins x))
                   xs w)) = tables w
    /\ (db_faults w = [] ->
        fst (repository.batchInsert (fun x => repository.Exec (ins x)) xs w)
        = None).
Proof.
  intros xs w Hkeys.
  destruct (repository.batchInsert _ xs w) as [err w1] eqn:Hrun.
  cbn [fst snd]. revert Hrun.
  unfold repository.batchInsert, repository.BeginTx.
  unfold bind at 1. unfold bind at 1. unfold roundtrip at 1.
  destruct (pop (db_faults w)) as [[e0 |] l] eqn:Hpop.
  { unfold ret. intros Heq. injection Heq as <- <-.
    split; [reflexivity |]. intros Hf. rewrite Hf in Hpop. discriminate. }
  unfold bind at 1. unfold get_tables at 1. unfold ret at 1.
  cbn [tables with_db_faults].
  unfold bind at 1. unfold roundtrip at 1.
  cbn [db_faults with_db_faults].
  destruct (pop l) as [[e1 |] l1] eqn:Hpop1.
  { unfold repository.Rollback, put_tables, bind, ret.
    intros Heq. injection Heq as <- <-.
    split; [reflexivity |]. intros Hf. rewrite Hf in Hpop.
    injection Hpop as <-. discriminate. }
  unfold bind at 1.
  destruct (repository.exec_rows _ xs _) as [err2 w2] eqn:Hrows.
  apply exec_rows_again in Hrows; [| exact Hkeys].
  cbn [tables db_faults with_db_faults] in Hrows.
  destruct Hrows as [Ht Hnone].
  destruct err2 as [e2 |].
  { unfold repository.Rollback, put_tables, bind, ret.
    intros Heq. injection Heq as <- <-.
    split; [reflexivity |]. intros Hf. rewrite Hf in Hpop.
    injection Hpop as <-. injection Hpop1 as <-.
    destruct (Hnone eq_refl) as [Hn _]. discriminate. }
  unfold repository.Commit, bind, roundtrip.
  destruct (pop (db_faults w2)) as [[e3 |] l3] eqn:Hpop2.
  { unfold put_tables, ret. intros Heq. injection Heq as <- <-.
    split; [reflexivity |]. intros Hf. rewrite Hf in Hpop.
    injection Hpop as <-. injection Hpop1 as <-.
    destruct (Hnone eq_refl) as [_ Hf2]. rewrite Hf2 in Hpop2.
    discriminate. }
  unfold ret. intros Heq. injection Heq as <- <-.
  split; [exact Ht | reflexivity].
Qed.

End Replay.

Lemma has_claim_id_extends :
  forall id t t',
    extends t t' ->
    repository.has_claim_id id t = true ->
    repository.has_claim_id id t' = true.
Proof.
  intros id t t' (_ & (cs & Hc) & _). unfold repository.has_claim_id.
  rewrite Hc, existsb_app. intros ->. reflexivity.
Qed.

Lemma has_reversal_id_extends :
  forall id t t',
    extends t t' ->
    repository.has_reversal_id id t = true ->
    repository.has_reversal_id id t' = true.
Proof.
  intros id t t' (_ & _ & (rs & Hr)). unfold repository.has_reversal_id.
  rewrite Hr, existsb_app. intros ->. reflexivity.
Qed.

Lemma insert_claim_present :
  forall c t t',
    repository.insert_claim true c t = inl t' ->
    repository.has_claim_id (models.Claim_ID c) t' = true.
Proof.
  intros c t t'. claim_columns.
  destruct (repository.has_claim_id _ _) eqn:Hid.
  - intros Heq. injection Heq as <-. exact Hid.
  - destruct (negb _); [discriminate |].
    intros Heq. injection Heq as <-.
    unfold repository.has_claim_id. cbn. rewrite existsb_app. cbn.
    rewrite N.eqb_refl, orb_true_r. reflexivity.
Qed.

Lemma insert_claim_again :
  forall c t t' t2,
    repository.insert_claim true c t = inl t' ->
    repository.has_claim_id (models.Claim_ID c) t2 = true ->
    repository.insert_claim true c t2 = inl t2.
Proof.
  intros c t t' t2. claim_columns.
  intros _ ->. reflexivity.
Qed.

Lemma insert_reversal_present :
  forall r t t',
    repository.insert_reversal true r t = inl t' ->
    repository.has_reversal_id (models.Reversal_ID r) t' = true.
Proof.
  intros r t t'. unfold repository.insert_reversal.
  destruct (repository.has_reversal_id _ _) eqn:Hid.
  - intros Heq. injection Heq as <-. exact Hid.
  - destruct (negb _); [discriminate |].
    intros Heq. injection Heq as <-.
    unfold repository.has_reversal_id. cbn. rewrite existsb_app. cbn.
    rewrite N.eqb_refl, orb_true_r. reflexivity.
Qed.

Lemma insert_reversal_again :
  forall r t t' t2,
    repository.insert_reversal true r t = inl t' ->
    repository.has_reversal_id (models.Reversal_ID r) t2 = true ->
    repository.insert_reversal true r t2 = inl t2.
Proof.
  intros r t t' t2 _. unfold repository.insert_reversal.
  intros ->. reflexivity.
Qed.

(** X15: a batch of claims or of reversals that was loaded can be loaded
    again without effect.  If [BatchCreateClaims] has returned nil for a
    batch, then in every later state of the database, the tables having
    only grown since, the same call leaves the tables as they are,
    whatever the schedule of faults, and returns nil when the database
    answers: every row meets its own identifier and is passed over.  The
    same holds for [BatchCreateReversals]. *)
Theorem bulk_insert_again_changes_nothing :
  forall (w w1 w2 : World),
    extends (tables w1) (tables w2) ->
    (forall cs,
        repository.BatchCreateClaims cs w = (None, w1) ->
        tables (snd (repository.BatchCreateClaims cs w2)) = tables w2
        /\ (db_faults w2 = [] ->
            fst (repository.BatchCreateClaims cs w2) = None))
    /\ (forall rs,
           repository.BatchCreateReversals rs w = (None, w1) ->
           tables (snd (repository.BatchCreateReversals rs w2)) = tables w2
           /\ (db_faults w2 = [] ->
               fst (repository.BatchCreateReversals rs w2) = None)).
Proof.
  intros w w1 w2 Hext. split.
  - intros cs Hrun. unfold repository.BatchCreateClaims in *.
    apply (batchInsert_leaves_keys models.Claim
             (repository.insert_claim true)
             (fun c t => repository.has_claim_id (models.Claim_ID c) t = true))
      in Hrun.
    + apply (batchInsert_again models.Claim (repository.insert_claim true)
               (fun c t =>
                  repository.has_claim_id (models.Claim_ID c) t = true)).
      intros c Hin. destruct (proj2 Hrun c Hin) as [Hp Hskip].
      split; [exact (has_claim_id_extends _ _ _ Hext Hp) | exact Hskip].
    + apply insert_claim_present.
    + intros c t t' Hins.
      exact (insert_claim_extends t true c t t' Hins (extends_refl t)).
    + intros c t t'. apply has_claim_id_extends.
    + apply insert_claim_again.
  - intros rs Hrun. unfold repository.BatchCreateReversals in *.
    apply (batchInsert_leaves_keys models.Reversal
             (repository.insert_reversal true)
             (fun r t =>
                repository.has_reversal_id (models.Reversal_ID r) t = true))
      in Hrun.
    + apply (batchInsert_again models.Reversal
               (repository.insert_reversal true)
               (fun r t =>
                  repository.has_reversal_id (models.Reversal_ID r) t
                  = true)).
      intros r Hin. destruct (proj2 Hrun r Hin) as [Hp Hskip].
      split; [exact (has_reversal_id_extends _ _ _ Hext Hp) | exact Hskip].
    + apply insert_reversal_present.
    + intros r t t' Hins.
      exact (insert_reversal_extends t true r t t' Hins (extends_refl t)).
    + intros r t t'. apply has_reversal_id_extends.
    + apply insert_reversal_again.
Qed.

(** The two sample reversals loaded twice into the sample database. *)
Lemma bulk_insert_again_witness :
  tables (snd (repository.BatchCreateReversals
                 [sample_batch.first; sample_batch.second]
                 (snd (repository.BatchCreateReversals
                         [sample_batch.first; sample_batch.second]
                         sample.world))))
  = tables (snd (repository.BatchCreateReversals
                   [sample_batch.first; sample_batch.second] sample.world))
  /\ fst (repository.BatchCreateReversals
            [sample_batch.first; sample_batch.second]
            (snd (repository.BatchCreateReversals
                    [sample_batch.first; sample_batch.second]
                    sample.world))) = None.
Proof.
  destruct (proj2 (bulk_insert_again_changes_nothing sample.world
                     (snd (repository.BatchCreateReversals
                             [sample_batch.first; sample_batch.second]
                             sample.world))
                     (snd (repository.BatchCreateReversals
                             [sample_batch.first; sample_batch.second]
                             sample.world))
                     (extends_refl _))
                  [sample_batch.first; sample_batch.second])
    as [Ht Hnone].
  - vm_compute. reflexivity.
  - split; [exact Ht | apply Hnone; reflexivity].
Defined.

(** ** Waiting for the server *)

Lemma attempts_pings :
  forall sql_Open psqlInfo maxRetries retryInterval remaining i w,
    sql_Open psqlInfo = None ->
    maxRetries = i + Z.of_nat remaining ->
    let k := failed_pings remaining (db_faults w) in
    let (err, w') :=
      database.attempts sql_Open psqlInfo maxRetries retryInterval
        remaining i w in
    ((k < remaining)%nat -> err = None)
    /\ (k = remaining ->
        (0 < remaining)%nat ->
        exists e,
          nth_error (db_faults w) (remaining - 1) = Some (Some e)
          /\ err = Some ("database ping failed after "
                           ++ service.itoa maxRetries ++ " attempts: " ++ e))
    /\ db_faults w' = skipn (Nat.min (S k) remaining) (db_faults w)
    /\ clock w'
       = clock w + Z.max 0 retryInterval * Z.of_nat (Nat.min k (remaining - 1))
    /\ tables w' = tables w.
Proof.
  intros sql_Open psqlInfo maxRetries retryInterval remaining.
  induction remaining as [| r IH]; intros i w Hopen Hmax.
  - cbn. repeat split; try lia;
      try (rewrite Z.mul_0_r, Z.add_0_r; reflexivity).
  - cbn [database.attempts]. rewrite Hopen.
    unfold database.Ping, bind at 1, roundtrip at 1.
    destruct (db_faults w) as [| [e |] l] eqn:Hf; cbn [pop failed_pings].
    + (* the schedule is exhausted: the ping is answered *)
      unfold database.log_Println, log_Printf, bind, ret. cbn.
      repeat split; try lia;
        try (rewrite Z.mul_0_r, Z.add_0_r; reflexivity).
    + (* the ping fails *)
      destruct (i <? maxRetries - 1) eqn:Hlast.
      * apply Z.ltb_lt in Hlast.
        assert (Hr : (0 < r)%nat) by lia.
        unfold database.retry, database.time_Sleep, log_Printf.
        unfold bind at 1. unfold bind at 1.
        specialize (IH (i + 1)
                      (database.with_clock
                         (clock w + Z.max 0 retryInterval)
                         (with_stdlog
                            (stdlog (with_db_faults l w)
                               ++ [{| format :=
                                        "Database not ready (attempt %d/%d), retrying in %v...";
                                      args := [AInt (i + 1); AInt maxRetries;
                                               AInt retryInterval] |}])
                            (with_db_faults l w)))
                      Hopen ltac:(lia)).
        cbv zeta in IH.
        cbn [db_faults clock tables database.with_clock with_stdlog
             with_db_faults stdlog] in IH |- *.
        destruct (database.attempts _ _ _ _ r (i + 1) _) as [err w'].
        destruct IH as (Hok & Hfail & Hfaults & Hclock & Htables).
        split; [intros Hk; apply Hok; lia |].
        split.
        { intros Hk _. destruct (Hfail ltac:(lia) Hr) as (e' & Hnth & Herr).
          exists e'. split; [| exact Herr].
          replace (S r - 1)%nat with (S (r - 1)) by lia. exact Hnth. }
        split; [exact Hfaults |].
        split; [| exact Htables].
        rewrite Hclock.
        replace (Nat.min (S (failed_pings r l)) (S r - 1))
          with (S (Nat.min (failed_pings r l) (r - 1))) by lia.
        lia.
      * apply Z.ltb_ge in Hlast.
        assert (Hr : r = O) by lia. subst r.
        unfold ret. cbn [failed_pings db_faults clock tables with_db_faults].
        split; [intros Hk; lia |].
        split.
        { intros _ _. exists e. split; reflexivity. }
        repeat split; try (rewrite Z.mul_0_r, Z.add_0_r; reflexivity).
    + (* the ping is answered *)
      unfold database.log_Println, log_Printf, bind, ret. cbn.
      repeat split; try lia;
        try (rewrite Z.mul_0_r, Z.add_0_r; reflexivity).
Qed.

Lemma failed_pings_le :
  forall n faults, (failed_pings n faults <= n)%nat.
Proof.
  induction n as [| n IH]; intros faults; cbn; [lia |].
  destruct faults as [| [e |] l]; [lia | | lia].
  specialize (IH l). lia.
Qed.

(** X16: [WaitForConnection] pings until the server answers, at most
    [maxRetries] times, and sleeps between two attempts only.  With a
    connection string that [sql.Open] accepts and [maxRetries] positive,
    let k be the number of pings that fail before the first one that is
    answered, among the first [maxRetries].  The result is nil exactly
    when k is less than [maxRetries]; otherwise it is the error of the
    last ping, wrapped.  In both cases the function has made
    min(k+1, [maxRetries]) pings and slept min(k, [maxRetries]-1) times
    [retryInterval]: never after the last attempt.  The tables are
    untouched. *)
Theorem WaitForConnection_pings_until_answered :
  forall (sql_Open : string -> error) (connInfo : database.Connection)
         (maxRetries retryInterval : Z) (w : World),
    sql_Open (database.psqlInfo connInfo) = None ->
    0 < maxRetries ->
    let n := Z.to_nat maxRetries in
    let k := failed_pings n (db_faults w) in
    let (err, w') :=
      database.WaitForConnection sql_Open connInfo maxRetries retryInterval
        w in
    (err = None <-> (k < n)%nat)
    /\ (k = n ->
        exists e,
          nth_error (db_faults w) (n - 1) = Some (Some e)
          /\ err = Some ("database ping failed after "
                           ++ service.itoa maxRetries ++ " attempts: " ++ e))
    /\ db_faults w' = skipn (Nat.min (S k) n) (db_faults w)
    /\ clock w'
       = clock w + Z.max 0 retryInterval * Z.of_nat (Nat.min k (n - 1))
    /\ tables w' = tables w.
Proof.
  intros sql_Open connInfo maxRetries retryInterval w Hopen Hpos n k.
  unfold database.WaitForConnection, database.log_Println.
  rewrite log_then.
  pose proof (attempts_pings sql_Open (database.psqlInfo connInfo)
                maxRetries retryInterval n 0
                (snd (log_Printf "Waiting for database to be ready..." [] w))
                Hopen ltac:(subst n; lia)) as H.
  cbv zeta in H.
  cbn [db_faults clock tables log_Printf snd with_stdlog] in H.
  fold n. fold k in H.
  destruct (database.attempts _ _ _ _ n 0 _) as [err w'].
  destruct H as (Hok & Hfail & Hfaults & Hclock & Htables).
  pose proof (failed_pings_le n (db_faults w)) as Hle. fold k in Hle.
  assert (Hn : (0 < n)%nat) by (subst n; lia).
  split; [| split; [| split; [| split]]]; try assumption.
  - split; [| exact Hok].
    intros ->. destruct (Nat.eq_dec k n) as [Heq | Hne]; [| lia].
    destruct (Hfail Heq Hn) as (e & _ & Herr). discriminate.
  - intros Heq. exact (Hfail Heq Hn).
Qed.

(** Five attempts two seconds apart at a server that is up at the third
    ping: nil after three pings and four seconds. *)
Lemma WaitForConnection_witness :
  fst (database.WaitForConnection sample_wait.accepted sample_wait.connInfo
         5 sample_wait.two_seconds sample_wait.up_at_third) = None
  /\ clock (snd (database.WaitForConnection sample_wait.accepted
                   sample_wait.connInfo 5 sample_wait.two_seconds
                   sample_wait.up_at_third))
     = clock sample_wait.up_at_third + 4000000000.
Proof.
  pose proof (WaitForConnection_pings_until_answered sample_wait.accepted
                sample_wait.connInfo 5 sample_wait.two_seconds
                sample_wait.up_at_third eq_refl eq_refl) as H.
  cbv zeta in H.
  destruct (database.WaitForConnection sample_wait.accepted
              sample_wait.connInfo 5 sample_wait.two_seconds
              sample_wait.up_at_third) as [err w'].
  destruct H as (Hok & _ & _ & Hclock & _).
  cbn [fst snd]. split.
  - apply Hok. vm_compute. lia.
  - rewrite Hclock. reflexivity.
Defined.

(** X17: [WaitForConnection] with no attempt to make.  With
    [maxRetries] zero or negative the loop is not entered: the function
    returns an error at once, whatever the connection string and the
    state of the server.  Nothing is opened, nothing is sent to the
    server and there is no sleep; the only trace is the first log line,
    and the message gives the number as it was passed. *)
Theorem WaitForConnection_without_a_ping :
  forall (sql_Open : string -> error) (connInfo : database.Connection)
         (maxRetries retryInterval : Z) (w : World),
    maxRetries <= 0 ->
    database.WaitForConnection sql_Open connInfo maxRetries retryInterval w
    = (Some ("database connection failed after "
               ++ service.itoa maxRetries ++ " attempts"),
       snd (database.log_Println "Waiting for database to be ready..." w)).
Proof.
  intros sql_Open connInfo maxRetries retryInterval w Hle.
  unfold database.WaitForConnection. unfold database.log_Println at 1.
  rewrite log_then.
  replace (Z.to_nat maxRetries) with O by lia.
  cbn [database.attempts]. reflexivity.
Qed.

(** No attempt with [maxRetries] 0 and a server that is down. *)
Lemma WaitForConnection_no_ping_witness :
  fst (database.WaitForConnection sample_wait.accepted sample_wait.connInfo
         0 sample_wait.two_seconds sample_wait.down)
  = Some "database connection failed after 0 attempts"
  /\ db_faults (snd (database.WaitForConnection sample_wait.accepted
                       sample_wait.connInfo 0 sample_wait.two_seconds
                       sample_wait.down))
     = db_faults sample_wait.down.
Proof.
  rewrite (WaitForConnection_without_a_ping sample_wait.accepted
             sample_wait.connInfo 0 sample_wait.two_seconds
             sample_wait.down ltac:(lia)).
  split; reflexivity.
Defined.

(** ** What the loads of claims and reversals insert *)

Lemma alreadyLoaded_empty :
  forall tableName count warning skipping name w,
    next_fault w = None ->
    count (tables w) <= 0 ->
    service.alreadyLoaded (repository.countRows tableName count)
      warning skipping name w
    = (false, after_roundtrip w).
Proof.
  intros tableName count warning skipping name w Hnf Hc.
  unfold service.alreadyLoaded, repository.countRows, repository.QueryRow,
    roundtrip, bind, get_tables, ret, after_roundtrip.
  rewrite (next_fault_None _ Hnf). cbn.
  apply Z.ltb_ge in Hc. rewrite Hc. reflexivity.
Qed.

Section Batches.

Variable T : Type.
Variable ins : T -> Tables -> Tables + string.

(** On a database that answers, the statements of a batch are the
    inserts of [insert_all], up to the first that is refused. *)
Lemma exec_rows_insert_all :
  forall xs w,
    db_faults w = [] ->
    let (err, w') :=
      repository.exec_rows (fun x => repository.Exec (ins x)) xs w in
    db_faults w' = []
    /\ match insert_all ins xs (tables w) with
       | Some t' => err = None /\ tables w' = t'
       | None => err <> None
       end.
Proof.
  induction xs as [| x xs IH]; intros w Hf;
    cbn [repository.exec_rows insert_all].
  - unfold ret. repeat split. exact Hf.
  - unfold bind at 1. unfold repository.Exec at 1.
    unfold bind at 1, roundtrip at 1. rewrite Hf. cbn [pop].
    unfold bind at 1, get_tables at 1. cbn [tables with_db_faults].
    destruct (ins x (tables w)) as [t' | e].
    + unfold bind at 1, put_tables at 1, ret at 1.
      specialize (IH (with_tables t' (with_db_faults [] w)) eq_refl).
      cbn [tables with_tables] in IH. exact IH.
    + unfold ret. split; [reflexivity | discriminate].
Qed.

Lemma batchInsert_apply_batch :
  forall xs w,
    db_faults w = [] ->
    let (err, w') :=
      repository.batchInsert (fun x => repository.Exec (ins x)) xs w in
    db_faults w' = []
    /\ tables w' = apply_batch ins xs (tables w)
    /\ (err = None <-> insert_all ins xs (tables w) <> None).
Proof.
  intros xs w Hf. unfold repository.batchInsert, repository.BeginTx.
  unfold bind at 1. unfold bind at 1. unfold roundtrip at 1.
  rewrite Hf. cbn [pop].
  unfold bind at 1. unfold get_tables at 1. unfold ret at 1.
  cbn [tables with_db_faults].
  unfold bind at 1. unfold roundtrip at 1.
  cbn [db_faults with_db_faults pop].
  unfold bind at 1.
  pose proof (exec_rows_insert_all xs
                (with_db_faults [] (with_db_faults [] w)) eq_refl) as Hrows.
  cbn [tables with_db_faults] in Hrows.
  destruct (repository.exec_rows _ xs _) as [err w2].
  destruct Hrows as [Hf2 Hrows]. unfold apply_batch.
  destruct (insert_all ins xs (tables w)) as [t' |].
  - destruct Hrows as [-> Ht].
    unfold repository.Commit, bind, roundtrip. rewrite Hf2. cbn [pop].
    unfold ret. cbn [db_faults tables with_db_faults].
    repeat split; try assumption; try reflexivity. discriminate.
  - destruct err as [e |]; [| congruence].
    unfold repository.Rollback, put_tables, bind, ret.
    cbn [db_faults tables with_tables].
    repeat split; try assumption; try discriminate. congruence.
Qed.

Variable Base : string -> string.
Variable ls : service.LoaderService.
Variable fileLoader : string -> list T + string.
Variable batchProcessor : list T -> M error.
Variable dataTypeName : string.

Hypothesis batchProcessor_applies :
  forall b w,
    db_faults w = [] ->
    db_faults (snd (batchProcessor b w)) = []
    /\ tables (snd (batchProcessor b w)) = apply_batch ins b (tables w).

Lemma consume_to_do :
  forall data batch totalItems w rest,
    db_faults w = [] ->
    let '((batch', totalItems'), w') :=
      service.consume ls batchProcessor dataTypeName data batch totalItems w in
    db_faults w' = []
    /\ remaining_batches ins (service.batchSize ls) batch (data ++ rest)
         (tables w)
       = remaining_batches ins (service.batchSize ls) batch' rest
           (tables w').
Proof.
  induction data as [| item data IH]; intros batch totalItems w rest Hf;
    cbn [service.consume app].
  - unfold ret. split; [exact Hf | reflexivity].
  - unfold remaining_batches at 1. cbn [batches].
    fold (remaining_batches ins (service.batchSize ls) []
            (data ++ rest)).
    fold (remaining_batches ins (service.batchSize ls) (batch ++ [item])
            (data ++ rest)).
    destruct (service.batchSize ls <=? service.len (batch ++ [item])).
    + cbn [fold_left].
      fold (remaining_batches ins (service.batchSize ls) []
              (data ++ rest)).
      unfold bind at 1.
      destruct (batchProcessor_applies (batch ++ [item]) w Hf) as [Hf1 Ht1].
      destruct (batchProcessor (batch ++ [item]) w) as [err w1].
      cbn [snd] in Hf1, Ht1. rewrite <- Ht1.
      unfold bind at 1.
      destruct err as [e |]; rewrite log_then; unfold ret at 1.
      * exact (IH [] totalItems
                 (snd (log_Printf "Warning: Failed to process %s batch: %v"
                         [AStr dataTypeName; AStr e] w1)) rest Hf1).
      * exact (IH [] (totalItems + service.len (batch ++ [item]))
                 (snd (log_Printf "Processed batch of %d %s"
                         [AInt (service.len (batch ++ [item]));
                          AStr dataTypeName] w1)) rest Hf1).
    + apply IH. exact Hf.
Qed.

Lemma drain_to_do :
  forall queue batch totalItems w,
    db_faults w = [] ->
    let '((batch', totalItems'), w') :=
      service.drain Base ls fileLoader batchProcessor dataTypeName queue
        batch totalItems w in
    db_faults w' = []
    /\ remaining_batches ins (service.batchSize ls) batch
         (List.concat (map (items_of fileLoader) queue)) (tables w)
       = remaining_batches ins (service.batchSize ls) batch' []
           (tables w').
Proof.
  induction queue as [| filename queue IH]; intros batch totalItems w Hf;
    cbn [service.drain map List.concat].
  - unfold ret. split; [exact Hf | reflexivity].
  - unfold items_of at 1.
    destruct (fileLoader filename) as [data | e].
    + rewrite log_then. unfold bind at 1.
      pose proof (consume_to_do data batch totalItems
                    (snd (log_Printf "Loaded %d %s from %s"
                            [AInt (service.len data); AStr dataTypeName;
                             AStr (Base filename)] w))
                    (List.concat (map (items_of fileLoader) queue)) Hf) as Hc.
      destruct (service.consume _ _ _ data batch totalItems _)
        as [[batch1 total1] w1].
      destruct Hc as [Hf1 Ht1].
      cbn [tables snd log_Printf with_stdlog] in Ht1. rewrite Ht1.
      apply IH. exact Hf1.
    + rewrite log_then. cbn [app].
      exact (IH batch totalItems
               (snd (log_Printf "Warning: Failed to load %s from %s: %v"
                       [AStr dataTypeName; AStr filename; AStr e] w)) Hf).
Qed.

Lemma loadDataFromFiles_to_do :
  forall Join arrival fs dataDir subDir filePattern tableName count files w,
    db_faults w = [] ->
    count (tables w) <= 0 ->
    service.Glob fs (Join (Join dataDir subDir) filePattern) = (files, None) ->
    Permutation files (arrival files) ->
    tables (snd (service.loadDataFromFiles Join Base arrival fs ls dataDir
                   subDir filePattern (repository.countRows tableName count)
                   fileLoader batchProcessor dataTypeName w))
    = remaining_batches ins (service.batchSize ls) []
        (List.concat (map (items_of fileLoader) (arrival files)))
        (tables w).
Proof.
  intros Join arrival fs dataDir subDir filePattern tableName count files w
    Hf Hcount Hglob Hperm.
  assert (Hnf : next_fault w = None)
    by (unfold next_fault; rewrite Hf; reflexivity).
  unfold service.loadDataFromFiles. unfold bind at 1.
  rewrite (alreadyLoaded_empty _ _ _ _ _ _ Hnf Hcount), Hglob.
  assert (Hf0 : db_faults (after_roundtrip w) = [])
    by (unfold after_roundtrip; rewrite Hf; reflexivity).
  destruct (service.len files =? 0) eqn:Hlen.
  - rewrite log_then. unfold ret.
    assert (files = []).
    { apply Z.eqb_eq in Hlen. unfold service.len in Hlen.
      destruct files; [reflexivity | cbn in Hlen; lia]. }
    subst files. apply Permutation_nil in Hperm. rewrite Hperm.
    reflexivity.
  - rewrite log_then. unfold bind at 1.
    pose proof (drain_to_do (arrival files) [] 0
                  (snd (log_Printf "Found %d %s files to load"
                          [AInt (service.len files); AStr dataTypeName]
                          (after_roundtrip w))) Hf0) as Hd.
    destruct (service.drain _ _ _ _ _ (arrival files) [] 0 _)
      as [[batch totalItems] w1].
    destruct Hd as [Hf1 Ht1].
    cbn [tables snd log_Printf with_stdlog after_roundtrip with_db_faults]
      in Ht1.
    rewrite Ht1. unfold remaining_batches. cbn [batches].
    unfold bind at 1.
    destruct (0 <? service.len batch).
    + cbn [fold_left]. unfold bind at 1.
      destruct (batchProcessor_applies batch w1 Hf1) as [_ Ht2].
      destruct (batchProcessor batch w1) as [err w2]. cbn [snd] in Ht2.
      rewrite <- Ht2.
      destruct err as [e |]; rewrite log_then; unfold ret at 1;
        rewrite log_then; reflexivity.
    + unfold ret at 1. rewrite log_then. reflexivity.
Qed.

End Batches.

Lemma batches_concat :
  forall (T : Type) (size : Z) (items pending : list T),
    List.concat (batches size pending items) = (pending ++ items)%list.
Proof.
  intros T size. induction items as [| x items IH]; intros pending;
    cbn [batches].
  - destruct (0 <? service.len pending) eqn:Hp; cbn.
    + rewrite app_nil_r. reflexivity.
    + apply len_nonpos_nil in Hp. subst pending. reflexivity.
  - destruct (size <=? service.len (pending ++ [x])); cbn [List.concat].
    + rewrite IH, <- app_assoc. reflexivity.
    + rewrite IH, <- app_assoc. reflexivity.
Qed.

Lemma batches_sizes :
  forall (T : Type) (size : Z) (items pending : list T),
    service.len pending < Z.max 1 size ->
    Forall (fun b => 0 < service.len b <= Z.max 1 size)
           (batches size pending items).
Proof.
  intros T size. induction items as [| x items IH]; intros pending Hp;
    cbn [batches].
  - destruct (0 <? service.len pending) eqn:H0; constructor; [| constructor].
    apply Z.ltb_lt in H0. lia.
  - pose proof (len_app_one T pending x) as Hlen.
    destruct (size <=? service.len (pending ++ [x])) eqn:Hfull.
    + constructor.
      * unfold service.len in *. lia.
      * apply IH. unfold service.len. cbn. lia.
    + apply Z.leb_gt in Hfull. apply IH. lia.
Qed.

Lemma process_batch_applies :
  forall (T : Type) (ins : T -> Tables -> Tables + string)
         (l : core.Logger) (eventType : string)
         (payload : T -> list (string * Value)) (wrap : string -> string)
         (b : list T) (w : World) (r : error) (w' : World),
    db_faults w = [] ->
    (err <- repository.batchInsert (fun x => repository.Exec (ins x)) b ;;
     match err with
     | Some e => ret (Some (wrap e))
     | None =>
         forEach b (fun x => core.LogEvent l eventType (payload x)) ;;;
         ret None
     end) w = (r, w') ->
    db_faults w' = [] /\ tables w' = apply_batch ins b (tables w).
Proof.
  intros T ins l eventType payload wrap b w r w' Hf.
  unfold bind at 1.
  pose proof (batchInsert_apply_batch T ins b w Hf) as Hb.
  destruct (repository.batchInsert _ b w) as [err w1].
  destruct Hb as (Hf1 & Ht1 & _).
  destruct err as [e |].
  - unfold ret. intros Heq. injection Heq as _ <-. split; assumption.
  - unfold bind.
    pose proof (forEach_LogEvent T l eventType payload b w1)
      as [(Ht2 & _ & Hf2) _].
    destruct (forEach b _ w1) as [u w2]. cbn [snd] in Ht2, Hf2.
    unfold ret. intros Heq. injection Heq as _ <-.
    rewrite Ht2, Hf2. split; assumption.
Qed.

Lemma processClaimsBatch_applies :
  forall ls b w,
    db_faults w = [] ->
    db_faults (snd (service.processClaimsBatch ls b w)) = []
    /\ tables (snd (service.processClaimsBatch ls b w))
       = apply_batch (repository.insert_claim true) b (tables w).
Proof.
  intros ls b w Hf.
  destruct (service.processClaimsBatch ls b w) as [r w'] eqn:Hrun.
  cbn [snd].
  exact (process_batch_applies models.Claim (repository.insert_claim true)
           (service.loader_logger ls) "claim_loaded"
           (fun claim =>
              [("id", VUUID (models.Claim_ID claim));
               ("ndc", VString (models.Claim_NDC claim));
               ("npi", VString (models.Claim_NPI claim));
               ("quantity", VFloat (models.Claim_Quantity claim));
               ("price", VFloat (models.Claim_Price claim))])
           (fun e => "failed to batch create claims: " ++ e)
           b w r w' Hf Hrun).
Qed.

Lemma processReversalsBatch_applies :
  forall ls b w,
    db_faults w = [] ->
    db_faults (snd (service.processReversalsBatch ls b w)) = []
    /\ tables (snd (service.processReversalsBatch ls b w))
       = apply_batch (repository.insert_reversal true) b (tables w).
Proof.
  intros ls b w Hf.
  destruct (service.processReversalsBatch ls b w) as [r w'] eqn:Hrun.
  cbn [snd].
  exact (process_batch_applies models.Reversal
           (repository.insert_reversal true)
           (service.loader_logger ls) "reversal_loaded"
           (fun reversal =>
              [("id", VUUID (models.Reversal_ID reversal));
               ("claim_id", VUUID (models.Reversal_ClaimID reversal))])
           (fun e => "failed to batch create reversals: " ++ e)
           b w r w' Hf Hrun).
Qed.

Lemma insert_all_app :
  forall (T : Type) (ins : T -> Tables -> Tables + string) (a b : list T) t,
    insert_all ins (a ++ b) t
    = match insert_all ins a t with
      | Some t' => insert_all ins b t'
      | None => None
      end.
Proof.
  intros T ins a b. induction a as [| x a IH]; intros t; cbn [insert_all app].
  - reflexivity.
  - destruct (ins x t); [apply IH | reflexivity].
Qed.

(** When no row is refused, the cut into batches does not show. *)
Lemma batches_of_accepted_items :
  forall (T : Type) (ins : T -> Tables -> Tables + string) (size : Z)
         (items pending : list T) (t t' : Tables),
    insert_all ins (pending ++ items) t = Some t' ->
    fold_left (fun t b => apply_batch ins b t) (batches size pending items) t
    = t'.
Proof.
  intros T ins size. induction items as [| x items IH];
    intros pending t t'; cbn [batches].
  - rewrite app_nil_r. intros Hall.
    destruct (0 <? service.len pending) eqn:Hp; cbn [fold_left].
    + unfold apply_batch. rewrite Hall. reflexivity.
    + apply len_nonpos_nil in Hp. subst pending. cbn in Hall. congruence.
  - replace (pending ++ x :: items)%list
      with ((pending ++ [x]) ++ items)%list
      by (rewrite <- app_assoc; reflexivity).
    destruct (size <=? service.len (pending ++ [x])).
    + rewrite insert_all_app.
      destruct (insert_all ins (pending ++ [x]) t) as [t1 |] eqn:H1;
        [| discriminate].
      intros Hrest. cbn [fold_left]. unfold apply_batch at 2. rewrite H1.
      apply (IH [] t1 t'). exact Hrest.
    + apply IH.
Qed.

(** X18: how [loadDataFromFiles] cuts the items into batches.  Take a
    batch processor that, on a database that answers, puts a batch into
    the tables as a whole or, if one of its rows is refused, not at all,
    as [processClaimsBatch] and [processReversalsBatch] do, and a file
    loader that returns, with items or with an error, on every listed
    file.  On a database that answers, with the table empty and the
    listing of the directory answered, the tables after
    [loadDataFromFiles] are those obtained from the items of the files
    that could be loaded, taken in the order in which the files arrive
    and cut into batches of [batchSize] without regard to the files, by
    processing one batch after the other: a batch that is refused does
    not stop the batches after it.  The batches are the items in their
    order, and none is empty or longer than the batch size (than 1, if
    that is not positive). *)
Theorem json_loads_insert_batch_by_batch :
  forall (T : Type) (ins : T -> Tables -> Tables + string)
         (Join : string -> string -> string) (Base : string -> string)
         (arrival : list string -> list string) (fs : service.FS)
         (ls : service.LoaderService)
         (dataDir subDir filePattern tableName : string)
         (count : Tables -> Z)
         (load : string -> CustomTime.Outcome (list T + string))
         (batchProcessor : list T -> M error) (dataTypeName : string)
         (files : list string) (w : World),
    (forall b w0,
        db_faults w0 = [] ->
        db_faults (snd (batchProcessor b w0)) = []
        /\ tables (snd (batchProcessor b w0))
           = apply_batch ins b (tables w0)) ->
    returns_on load files ->
    db_faults w = [] ->
    count (tables w) <= 0 ->
    service.Glob fs (Join (Join dataDir subDir) filePattern) = (files, None) ->
    Permutation files (arrival files) ->
    let items :=
      List.concat (map (items_of (returned load)) (arrival files)) in
    tables (snd (service.loadDataFromFiles Join Base arrival fs ls dataDir
                   subDir filePattern (repository.countRows tableName count)
                   (returned load) batchProcessor dataTypeName w))
    = fold_left (fun t b => apply_batch ins b t)
        (batches (service.batchSize ls) [] items) (tables w)
    /\ List.concat (batches (service.batchSize ls) [] items) = items
    /\ Forall (fun b => 0 < service.len b <= Z.max 1 (service.batchSize ls))
              (batches (service.batchSize ls) [] items).
Proof.
  intros T ins Join Base arrival fs ls dataDir subDir filePattern tableName
    count load batchProcessor dataTypeName files w Happlies _ Hf Hcount
    Hglob Hperm items.
  split; [| split].
  - exact (loadDataFromFiles_to_do T ins Base ls (returned load)
             batchProcessor dataTypeName Happlies Join arrival fs dataDir
             subDir filePattern tableName count files w Hf Hcount Hglob
             Hperm).
  - apply batches_concat.
  - apply batches_sizes. unfold service.len. cbn. lia.
Qed.

(** Three files of claims loaded in batches of two: the file that is not
    JSON is passed over, the first batch holds a claim of each of the
    other two files and goes in, the second batch holds the claim of an
    unknown pharmacy and is refused. *)
Lemma json_loads_batches_witness :
  claims
    (tables (snd (service.LoadClaimsFromData sample_loader.Join
                    sample_loader.Base sample_json.UnmarshalClaims
                    sample_loader.arrival sample_json.three_files
                    sample_json.pairs "./data" sample_json.no_claims)))
  = [sample_json.first; sample_json.second].
Proof.
  destruct (json_loads_insert_batch_by_batch
              models.Claim (repository.insert_claim true)
              sample_loader.Join sample_loader.Base sample_loader.arrival
              sample_json.three_files sample_json.pairs "./data" "claims"
              "*.json" "claims"
              (fun t => Z.of_nat (List.length (claims t)))
              (fun f =>
                 CustomTime.Returns
                   (service.loadJSONFromFile sample_json.three_files
                      sample_json.UnmarshalClaims f))
              (service.processClaimsBatch sample_json.pairs) "claims"
              ["a.json"; "b.json"; "c.json"] sample_json.no_claims
              (processClaimsBatch_applies sample_json.pairs)
              (fun f _ => ex_intro _ _ eq_refl)
              eq_refl ltac:(cbn; lia) eq_refl (Permutation_refl _))
    as (Ht & _).
  unfold service.LoadClaimsFromData, repository.CountClaims.
  change (service.loadJSONFromFile sample_json.three_files
            sample_json.UnmarshalClaims)
    with (returned
            (fun f =>
               CustomTime.Returns
                 (service.loadJSONFromFile sample_json.three_files
                    sample_json.UnmarshalClaims f))).
  rewrite Ht. vm_compute. reflexivity.
Defined.

(** X19: when no row is refused, the batch size does not matter.  Take
    a batch processor and a file loader as before, a database that
    answers, the table empty and the listing of the directory answered.
    If the items of the files that could be loaded, inserted one after
    the other in the order of arrival, are all accepted (an item that is
    passed over counts as accepted), then the tables after
    [loadDataFromFiles] are the tables after these inserts, for every
    batch size. *)
Theorem json_loads_insert_accepted_items :
  forall (T : Type) (ins : T -> Tables -> Tables + string)
         (Join : string -> string -> string) (Base : string -> string)
         (arrival : list string -> list string) (fs : service.FS)
         (ls : service.LoaderService)
         (dataDir subDir filePattern tableName : string)
         (count : Tables -> Z)
         (load : string -> CustomTime.Outcome (list T + string))
         (batchProcessor : list T -> M error) (dataTypeName : string)
         (files : list string) (w : World) (t' : Tables),
    (forall b w0,
        db_faults w0 = [] ->
        db_faults (snd (batchProcessor b w0)) = []
        /\ tables (snd (batchProcessor b w0))
           = apply_batch ins b (tables w0)) ->
    returns_on load files ->
    db_faults w = [] ->
    count (tables w) <= 0 ->
    service.Glob fs (Join (Join dataDir subDir) filePattern) = (files, None) ->
    Permutation files (arrival files) ->
    insert_all ins
      (List.concat (map (items_of (returned load)) (arrival files)))
      (tables w) = Some t' ->
    tables (snd (service.loadDataFromFiles Join Base arrival fs ls dataDir
                   subDir filePattern (repository.countRows tableName count)
                   (returned load) batchProcessor dataTypeName w))
    = t'.
Proof.
  intros T ins Join Base arrival fs ls dataDir subDir filePattern tableName
    count load batchProcessor dataTypeName files w t' Happlies _ Hf Hcount
    Hglob Hperm Hall.
  rewrite (loadDataFromFiles_to_do T ins Base ls (returned load)
             batchProcessor dataTypeName Happlies Join arrival fs dataDir
             subDir filePattern tableName count files w Hf Hcount Hglob
             Hperm).
  apply batches_of_accepted_items. exact Hall.
Qed.

(** Two files of one claim each, loaded with the default batch size. *)
Lemma json_loads_accepted_witness :
  tables (snd (service.LoadClaimsFromData sample_loader.Join
                 sample_loader.Base sample_json.UnmarshalTwo
                 sample_loader.arrival sample_json.two_files
                 sample_loader.loader "./data" sample_json.no_claims))
  = {| pharmacies := [sample.health];
       claims := [sample_json.first; sample_json.second];
       reversals := [] |}.
Proof.
  unfold service.LoadClaimsFromData, repository.CountClaims.
  change (service.loadJSONFromFile sample_json.two_files
            sample_json.UnmarshalTwo)
    with (returned
            (fun f =>
               CustomTime.Returns
                 (service.loadJSONFromFile sample_json.two_files
                    sample_json.UnmarshalTwo f))).
  apply (json_loads_insert_accepted_items
           models.Claim (repository.insert_claim true)
           sample_loader.Join sample_loader.Base sample_loader.arrival
           sample_json.two_files sample_loader.loader "./data" "claims"
           "*.json" "claims"
           (fun t => Z.of_nat (List.length (claims t)))
           (fun f =>
              CustomTime.Returns
                (service.loadJSONFromFile sample_json.two_files
                   sample_json.UnmarshalTwo f))
           (service.processClaimsBatch sample_loader.loader) "claims"
           ["a.json"; "d.json"] sample_json.no_claims
           {| pharmacies := [sample.health];
              claims := [sample_json.first; sample_json.second];
              reversals := [] |}
           (processClaimsBatch_applies sample_loader.loader)
           (fun f _ => ex_intro _ _ eq_refl)
           eq_refl ltac:(cbn; lia) eq_refl (Permutation_refl _)).
  vm_compute. reflexivity.
Defined.

(** ** The numbers of a request *)

(** X20: which numbers the validator lets through.  [ValidateQuantity]
    returns nil exactly for the quantities greater than zero, plus
    infinity included, and for a NaN, which is not [<= 0];
    [ValidatePrice] returns nil for every price that is not less than
    zero: the positive ones, both zeros and a NaN. *)
Theorem validator_numbers :
  forall x : float64,
    (utility.ValidateQuantity x = None
     <-> is_positive x = true \/ is_nan x = true)
    /\ (utility.ValidatePrice x = None <-> is_negative x = false).
Proof.
  intros x. unfold utility.ValidateQuantity, utility.ValidatePrice,
    utility.zero, SFleb, SFltb.
  destruct x as [s | s | | s m e]; cbn;
    try destruct s; cbn; split; split; try discriminate;
    try reflexivity; try tauto; intros [H | H]; discriminate.
Qed.

(** ** A claim submitted, then reversed *)




(** ** The audit trail of submitted claims *)





(** ** The timestamps of the seed files *)

(** X23: two facts about [CustomTime.UnmarshalJSON].  It panics exactly
    on a value of fewer than two bytes, as a one-digit number is, where
    the slice that is to cut the quotes off has its end before its
    start; on every other value it returns.  And the third layout never
    decides: it is [time.RFC3339], the second one, written out, so the
    loop finds under the first two layouts what it finds under the
    three. *)
Theorem UnmarshalJSON_panic_and_layouts :
  forall (Time : Type) (time_Parse : string -> string -> Time + string)
         (json_Unmarshal : string -> Time + string) (ct : Time)
         (data str : string),
    ((exists reason,
         CustomTime.UnmarshalJSON Time time_Parse json_Unmarshal ct data
         = CustomTime.Panics reason)
     <-> (String.length data < 2)%nat)
    /\ CustomTime.first_layout Time time_Parse CustomTime.layouts str
       = CustomTime.first_layout Time time_Parse
           ["2006-01-02T15:04:05"; CustomTime.RFC3339] str.
Proof.
  intros Time time_Parse json_Unmarshal ct data str. split.
  - unfold CustomTime.UnmarshalJSON.
    destruct (String.length data <? 2)%nat eqn:Hlen.
    + apply Nat.ltb_lt in Hlen. split; [intros _; exact Hlen |].
      intros _. eexists. reflexivity.
    + apply Nat.ltb_ge in Hlen. split; [| lia].
      intros [reason H].
      destruct (CustomTime.first_layout _ _ _ _); [discriminate |].
      destruct (json_Unmarshal data); discriminate.
  - unfold CustomTime.layouts, CustomTime.RFC3339.
    cbn [CustomTime.first_layout].
    destruct (time_Parse "2006-01-02T15:04:05" str); [reflexivity |].
    destruct (time_Parse "2006-01-02T15:04:05Z07:00" str); reflexivity.
Qed.

(** ** The pharmacy files of a directory *)

Lemma loadFiles_accepted :
  forall fs ls files totalLoaded w,
    db_faults w = [] ->
    (forall f, In f files ->
               acceptable_file fs f
               \/ exists e, service.Open fs f = inr e) ->
    exists w1,
      service.loadFiles fs ls files totalLoaded w
      = (totalLoaded
         + service.len (List.concat (map (file_records fs) files)), w1)
      /\ store (List.concat (map (file_records fs) files))
           (pharmacies_id_seq w) (tables w)
         = Some (pharmacies_id_seq w1, tables w1)
      /\ db_faults w1 = [].
Proof.
  intros fs ls files.
  induction files as [| f files IH]; intros totalLoaded w Hf Hfiles;
    cbn [service.loadFiles map List.concat].
  - unfold ret. exists w. unfold service.len. cbn.
    rewrite Z.add_0_r. repeat split. exact Hf.
  - destruct (Hfiles f (or_introl eq_refl))
      as [[(line & c1 & c2 & rows & Hopen) Hchains] | [e Hopen]].
    + assert (Hrec : file_records fs f = valid_records rows)
        by (unfold file_records; rewrite Hopen; reflexivity).
      rewrite Hrec in Hchains |- *.
      destruct (loadPharmaciesFromCSV_accepted fs ls f line c1 c2 rows w
                  Hopen Hf Hchains) as (w1 & Hrun & Hst1 & Hf1).
      unfold bind at 1. rewrite Hrun.
      destruct (IH (totalLoaded + service.len (valid_records rows)) w1 Hf1
                  (fun g Hin => Hfiles g (or_intror Hin)))
        as (w2 & Hrun2 & Hst2 & Hf2).
      exists w2. rewrite Hrun2. split; [| split; [| exact Hf2]].
      * f_equal. unfold service.len. rewrite length_app. lia.
      * rewrite store_app, Hst1. exact Hst2.
    + assert (Hrec : file_records fs f = [])
        by (unfold file_records; rewrite Hopen; reflexivity).
      rewrite Hrec. cbn [app].
      unfold service.loadPharmaciesFromCSV. rewrite Hopen.
      unfold bind at 1. unfold ret at 1. rewrite log_then.
      destruct (IH totalLoaded
                  (snd (log_Printf "Failed to load pharmacies from %s: %v"
                          [AStr f;
                           AStr ("failed to open CSV file: " ++ e)] w))
                  Hf (fun g Hin => Hfiles g (or_intror Hin)))
        as (w2 & Hrun2 & Hst2 & Hf2).
      exists w2. split; [exact Hrun2 | split; [exact Hst2 | exact Hf2]].
Qed.

(** X24: the load of pharmacies from a directory of acceptable files.
    On a database that answers, with the table empty, the directory
    there and at least one file listed, if every listed file either
    cannot be opened, or has a header of two columns and names one of
    the three chains in each valid row, then [LoadPharmaciesFromData]
    has passed over the files that cannot be opened and inserted the
    records of the valid rows of all the others, file after file in
    the order of the listing, and it returns nil exactly when there was
    at least one such record: a directory of files without a valid row
    is an error. *)
Theorem LoadPharmaciesFromData_acceptable_files :
  forall (Join : string -> string -> string) (fs : service.FS)
         (ls : service.LoaderService) (dataDir : string)
         (files : list string) (w : World),
    db_faults w = [] ->
    pharmacies (tables w) = [] ->
    service.IsNotExist fs (Join dataDir "pharmacies") = false ->
    service.Glob fs (Join (Join dataDir "pharmacies") "*.csv")
    = (files, None) ->
    files <> [] ->
    (forall f, In f files ->
               acceptable_file fs f
               \/ exists e, service.Open fs f = inr e) ->
    let records := List.concat (map (file_records fs) files) in
    let (err, w') := service.LoadPharmaciesFromData Join fs ls dataDir w in
    (err = None <-> records <> [])
    /\ (records = [] ->
        err = Some "no pharmacies loaded from data directory")
    /\ store records (pharmacies_id_seq w) (tables w)
       = Some (pharmacies_id_seq w', tables w').
Proof.
  intros Join fs ls dataDir files w Hf Hempty Hdir Hglob Hne Hfiles records.
  assert (Hnf : next_fault w = None)
    by (unfold next_fault; rewrite Hf; reflexivity).
  unfold service.LoadPharmaciesFromData, repository.CountPharmacies.
  unfold bind at 1.
  rewrite (alreadyLoaded_empty _ _ _ _ _ _ Hnf)
    by (rewrite Hempty; cbn; lia).
  rewrite Hdir, Hglob.
  replace (service.len files =? 0) with false
    by (destruct files; [congruence | unfold service.len; cbn; lia]).
  assert (Hf0 : db_faults (after_roundtrip w) = [])
    by (unfold after_roundtrip; rewrite Hf; reflexivity).
  destruct (loadFiles_accepted fs ls files 0 (after_roundtrip w) Hf0 Hfiles)
    as (w1 & Hrun & Hst & _).
  fold records in Hrun, Hst.
  cbn [tables pharmacies_id_seq after_roundtrip with_db_faults] in Hst.
  unfold bind. rewrite Hrun. rewrite Z.add_0_l.
  destruct (service.len records =? 0) eqn:Hzero.
  - apply Z.eqb_eq in Hzero.
    assert (Hnil : records = []).
    { destruct records; [reflexivity |].
      unfold service.len in Hzero. cbn in Hzero. lia. }
    unfold ret. split; [| split; [reflexivity | exact Hst]].
    split; [discriminate | congruence].
  - apply Z.eqb_neq in Hzero.
    assert (Hsome : records <> []).
    { intros Hnil. rewrite Hnil in Hzero. apply Hzero. reflexivity. }
    unfold log_Printf, ret. cbn [tables pharmacies_id_seq with_stdlog].
    split; [| split; [congruence | exact Hst]].
    split; [intros _; exact Hsome | reflexivity].
Qed.

(** The sample directory with its one file of one row, loaded into the
    empty database. *)
Lemma LoadPharmaciesFromData_acceptable_witness :
  fst (service.LoadPharmaciesFromData sample_loader.Join
         sample_loader.one_csv sample_loader.loader "./data"
         sample.empty_world) = None
  /\ pharmacies
       (tables (snd (service.LoadPharmaciesFromData sample_loader.Join
                       sample_loader.one_csv sample_loader.loader "./data"
                       sample.empty_world)))
     = [sample_csv.saint].
Proof.
  pose proof (LoadPharmaciesFromData_acceptable_files sample_loader.Join
                sample_loader.one_csv sample_loader.loader "./data"
                ["data/pharmacies/pharmacies.csv"] sample.empty_world
                eq_refl eq_refl eq_refl eq_refl) as H.
  cbv zeta in H.
  destruct (service.LoadPharmaciesFromData sample_loader.Join
              sample_loader.one_csv sample_loader.loader "./data"
              sample.empty_world) as [err w'].
  destruct H as (Hok & _ & Hst).
  - discriminate.
  - intros f [<- | []]. left. split.
    + exists 1, "chain", "npi",
        [service.Fields 2 ["saint"; "9876543210"]]. reflexivity.
    + intros p [<- | []]. reflexivity.
  - cbn [fst snd]. split.
    + apply Hok. discriminate.
    + assert (Hs : store
                     (List.concat
                        (map (file_records sample_loader.one_csv)
                           ["data/pharmacies/pharmacies.csv"]))
                     (pharmacies_id_seq sample.empty_world)
                     (tables sample.empty_world)
                   = Some (1, {| pharmacies := [sample_csv.saint];
                                 claims := []; reversals := [] |}))
        by reflexivity.
      rewrite Hs in Hst. injection Hst as _ Ht. rewrite <- Ht. reflexivity.
Defined.

(** ** The text of a JSON file *)

Lemma rev_string_app :
  forall s t acc,
    strings.rev_string (s ++ t) acc
    = strings.rev_string t (strings.rev_string s acc).
Proof.
  induction s as [| c s IH]; intros t acc; cbn; [reflexivity | apply IH].
Qed.

Lemma rev_string_twice :
  forall s a b,
    strings.rev_string (strings.rev_string s a) b
    = strings.rev_string a (s ++ b).
Proof.
  induction s as [| c s IH]; intros a b; cbn; [reflexivity |].
  rewrite IH. reflexivity.
Qed.

Lemma append_empty :
  forall s : string, (s ++ EmptyString)%string = s.
Proof.
  induction s as [| c s IH]; cbn; [reflexivity | rewrite IH; reflexivity].
Qed.

Lemma rev_string_acc :
  forall s a b,
    strings.rev_string s (a ++ b) = (strings.rev_string s a ++ b)%string.
Proof.
  induction s as [| c s IH]; intros a b; cbn; [reflexivity |].
  apply (IH (String c a) b).
Qed.

Lemma reverse_twice :
  forall s, strings.reverse (strings.reverse s) = s.
Proof.
  intros s. unfold strings.reverse. rewrite rev_string_twice. cbn.
  apply append_empty.
Qed.

Lemma string_length_app :
  forall s t : string,
    String.length (s ++ t) = (String.length s + String.length t)%nat.
Proof.
  induction s as [| c s IH]; intros t; cbn; [reflexivity |].
  rewrite IH. reflexivity.
Qed.

Lemma substring_front :
  forall s t, String.substring 0 (String.length s) (s ++ t) = s.
Proof.
  induction s as [| c s IH]; intros t; cbn.
  - destruct t; reflexivity.
  - rewrite IH. reflexivity.
Qed.

Lemma HasSuffix_percent :
  forall data,
    strings.HasSuffix data "%" = true <-> exists s, data = (s ++ "%")%string.
Proof.
  intros data. unfold strings.HasSuffix. split.
  - intros H.
    change (strings.reverse "%") with "%"%string in H.
    destruct (strings.reverse data) as [| c r] eqn:Hrev;
      [discriminate |].
    cbn [String.prefix] in H.
    destruct (Ascii.ascii_dec "%" c) as [<- |]; [| discriminate].
    exists (strings.reverse r).
    rewrite <- (reverse_twice data), Hrev.
    unfold strings.reverse. cbn [strings.rev_string].
    apply (rev_string_acc r "" "%").
  - intros [s ->]. unfold strings.reverse. rewrite rev_string_app.
    cbn [strings.rev_string String.prefix].
    destruct (Ascii.ascii_dec "%" "%"); [| congruence].
    destruct (strings.rev_string s ""); reflexivity.
Qed.

Lemma TrimSuffix_percent :
  forall s, strings.TrimSuffix (s ++ "%") "%" = s.
Proof.
  intros s. unfold strings.TrimSuffix.
  replace (strings.HasSuffix (s ++ "%") "%") with true
    by (symmetry; apply HasSuffix_percent; exists s; reflexivity).
  rewrite string_length_app. cbn [String.length].
  replace (String.length s + 1 - 1)%nat with (String.length s) by lia.
  apply substring_front.
Qed.

(** X25: the percent sign at the end of a JSON file.  Of a file that
    can be read, [loadJSONFromFile] drops one percent sign when it is
    the last byte, and only then trims the white space: the decoder gets
    the text before the sign, trimmed, and a second sign before it
    stays.  A file that does not end in the sign is trimmed and decoded
    as it is, so a sign followed by a line break reaches the decoder.
    The answer of the decoder is returned, an error under the prefix of
    the parse failure. *)
Theorem loadJSONFromFile_percent :
  forall (fs : service.FS) (T : Type) (Unmarshal : string -> list T + string)
         (filename data : string),
    service.ReadFile fs filename = inl data ->
    (forall s, data = (s ++ "%")%string ->
               service.loadJSONFromFile fs Unmarshal filename
               = parsed (Unmarshal (strings.TrimSpace s)))
    /\ ((forall s, data <> (s ++ "%")%string) ->
        service.loadJSONFromFile fs Unmarshal filename
        = parsed (Unmarshal (strings.TrimSpace data))).
Proof.
  intros fs T Unmarshal filename data Hread.
  unfold service.loadJSONFromFile. rewrite Hread. cbv zeta. split.
  - intros s ->. rewrite TrimSuffix_percent. reflexivity.
  - intros Hnone. unfold strings.TrimSuffix.
    destruct (strings.HasSuffix data "%") eqn:Hs; [| reflexivity].
    apply HasSuffix_percent in Hs. destruct Hs as [s ->].
    exfalso. exact (Hnone s eq_refl).
Qed.

(** The third file of the sample directory, which ends in the sign. *)
Lemma loadJSONFromFile_percent_witness :
  service.loadJSONFromFile sample_json.three_files
    sample_json.UnmarshalClaims "c.json"
  = inl [sample_json.second; sample_json.stray].
Proof.
  rewrite (proj1 (loadJSONFromFile_percent sample_json.three_files _
                    sample_json.UnmarshalClaims "c.json"
                    " [second, stray] %" eq_refl)
             " [second, stray] " eq_refl).
  vm_compute. reflexivity.
Defined.

(** ** Missing data *)

Lemma insert_pharmacy_stocks :
  forall do_nothing id npi chain t t',
    repository.insert_pharmacy do_nothing id npi chain t = inl t' ->
    stocked t'.
Proof.
  intros do_nothing id npi chain t t'. unfold repository.insert_pharmacy.
  destruct (repository.varchar 10 npi) as [npi' |]; [| discriminate].
  destruct (repository.varchar 20 chain) as [chain' |]; [| discriminate].
  destruct (negb (repository.valid_chain chain')); [discriminate |].
  destruct (repository.has_pharmacy_id id t
            || repository.has_pharmacy_npi npi' t) eqn:Hhas.
  - destruct do_nothing; [| discriminate].
    intros Heq. injection Heq as <-. intros Hnil.
    unfold repository.has_pharmacy_id, repository.has_pharmacy_npi in Hhas.
    rewrite Hnil in Hhas. discriminate.
  - intros Heq. injection Heq as <-. unfold stocked. cbn [pharmacies].
    intros Hnil. apply app_eq_nil in Hnil. destruct Hnil; discriminate.
Qed.

Lemma keeps_stocked_loadPharmaciesFromCSV :
  forall fs ls filename,
    keeps stocked (service.loadPharmaciesFromCSV fs ls filename).
Proof.
  apply keeps_loadPharmaciesFromCSV.
  intros do_nothing id npi chain t t' Hins _.
  exact (insert_pharmacy_stocks _ _ _ _ _ _ Hins).
Qed.

Lemma ExecPharmacy_stocks :
  forall do_nothing npi chain w w',
    repository.ExecPharmacy do_nothing npi chain w = (None, w') ->
    stocked (tables w').
Proof.
  intros do_nothing npi chain w w'.
  unfold repository.ExecPharmacy, bind, roundtrip, repository.nextval,
    get_tables, put_tables, ret.
  destruct (pop (db_faults w)) as [[e |] l]; [discriminate |].
  cbn [tables with_db_faults with_pharmacies_id_seq pharmacies_id_seq].
  destruct (repository.insert_pharmacy _ _ _ _ _) as [t' | e] eqn:Hins;
    [| discriminate].
  intros Heq. injection Heq as <-. cbn [tables with_tables].
  exact (insert_pharmacy_stocks _ _ _ _ _ _ Hins).
Qed.

Lemma exec_rows_stocks :
  forall ps w w',
    repository.exec_rows
      (fun p => repository.ExecPharmacy true (models.Pharmacy_NPI p)
                  (models.Pharmacy_Chain p)) ps w = (None, w') ->
    ps <> [] \/ stocked (tables w) ->
    stocked (tables w').
Proof.
  induction ps as [| p ps IH]; intros w w'; cbn [repository.exec_rows].
  - unfold ret. intros Heq [Hne | Hst]; [congruence |].
    injection Heq as <-. exact Hst.
  - unfold bind at 1.
    destruct (repository.ExecPharmacy true _ _ w) as [[e |] w1] eqn:Hexec.
    + unfold ret. discriminate.
    + intros Hrest _. apply (IH w1 w' Hrest). right.
      exact (ExecPharmacy_stocks _ _ _ _ _ Hexec).
Qed.

Lemma BatchCreatePharmacies_stocks :
  forall ps w w',
    ps <> [] ->
    repository.BatchCreatePharmacies ps w = (None, w') ->
    stocked (tables w').
Proof.
  intros ps w w' Hne.
  unfold repository.BatchCreatePharmacies, repository.batchInsert,
    repository.BeginTx.
  unfold bind at 1. unfold bind at 1. unfold roundtrip at 1.
  destruct (pop (db_faults w)) as [[e0 |] l]; [unfold ret; discriminate |].
  unfold bind at 1. unfold get_tables at 1. unfold ret at 1.
  cbn [tables with_db_faults].
  unfold bind at 1. unfold roundtrip at 1.
  cbn [db_faults with_db_faults].
  destruct (pop l) as [[e1 |] l1].
  { unfold repository.Rollback, put_tables, bind, ret. discriminate. }
  unfold bind at 1.
  destruct (repository.exec_rows _ ps _) as [[e2 |] w2] eqn:Hrows.
  { unfold repository.Rollback, put_tables, bind, ret. discriminate. }
  apply exec_rows_stocks in Hrows; [| left; exact Hne].
  unfold repository.Commit, bind, roundtrip.
  destruct (pop (db_faults w2)) as [[e3 |] l3].
  - unfold put_tables, ret. discriminate.
  - unfold ret. intros Heq. injection Heq as <-. exact Hrows.
Qed.

Lemma processPharmaciesBatch_stocks :
  forall ls ps w w',
    ps <> [] ->
    service.processPharmaciesBatch ls ps w = (None, w') ->
    stocked (tables w').
Proof.
  intros ls ps w w' Hne. unfold service.processPharmaciesBatch.
  unfold bind at 1.
  destruct (repository.BatchCreatePharmacies ps w) as [[e |] w1] eqn:Hb.
  - unfold ret. discriminate.
  - apply (BatchCreatePharmacies_stocks _ _ _ Hne) in Hb.
    unfold bind, ret.
    pose proof (keeps_forEach stocked _
                  (fun pharmacy =>
                     core.LogEvent (service.loader_logger ls)
                       "pharmacy_loaded"
                       [("npi", VString (models.Pharmacy_NPI pharmacy));
                        ("chain",
                         VString (models.Pharmacy_Chain pharmacy))])
                  ps (fun a => keeps_LogEvent stocked _ _ _) w1 Hb) as Hk.
    destruct (forEach ps _ w1) as [u w2]. cbn [snd] in Hk.
    intros Heq. injection Heq as <-. exact Hk.
Qed.

Lemma len_positive :
  forall (A : Type) (l : list A), (0 <? service.len l) = true -> l <> [].
Proof.
  intros A [| a l] H; [discriminate | discriminate].
Qed.

Lemma len_nonneg : forall (A : Type) (l : list A), 0 <= service.len l.
Proof. intros A l. unfold service.len. lia. Qed.

Lemma counted_same_tables :
  forall n w w', tables w' = tables w -> counted n w -> counted n w'.
Proof.
  intros n w w' Ht [Hn Hst]. split; [exact Hn |]. rewrite Ht. exact Hst.
Qed.

Lemma counted_batch :
  forall (ps : list models.Pharmacy) n w',
    ps <> [] -> 0 <= n -> stocked (tables w') ->
    counted (n + service.len ps) w'.
Proof.
  intros ps n w' Hne Hn Hst. pose proof (len_nonneg _ ps).
  split; [lia | intros _; exact Hst].
Qed.

Lemma finish_counted :
  forall ls batch totalLoaded w n w',
    counted totalLoaded w ->
    service.finish ls batch totalLoaded w = (n, None, w') ->
    counted n w'.
Proof.
  intros ls batch totalLoaded w n w' Hc. unfold service.finish.
  destruct (0 <? service.len batch) eqn:Hlen.
  - apply len_positive in Hlen. unfold bind.
    destruct (service.processPharmaciesBatch ls batch w)
      as [[e |] w1] eqn:Hb; unfold ret; [discriminate |].
    intros Heq. injection Heq as <- <-.
    apply (counted_batch batch totalLoaded w1 Hlen (proj1 Hc)).
    exact (processPharmaciesBatch_stocks _ _ _ _ Hlen Hb).
  - unfold ret. intros Heq. injection Heq as <- <-. exact Hc.
Qed.

Lemma readLoop_counted :
  forall ls filename lines fieldsPerRecord batch totalLoaded lineNumber
         w n w',
    counted totalLoaded w ->
    service.readLoop ls filename fieldsPerRecord lines batch totalLoaded
      lineNumber w = (n, None, w') ->
    counted n w'.
Proof.
  intros ls filename lines.
  induction lines as [| l lines IH];
    intros fieldsPerRecord batch totalLoaded lineNumber w n w' Hc;
    cbn [service.readLoop]; [apply finish_counted; exact Hc |].
  destruct (service.readRecord fieldsPerRecord l) as [[record err] fpr].
  destruct err as [e |].
  - destruct (e =? service.EOF)%string;
      [apply finish_counted; exact Hc |].
    rewrite log_then. apply IH.
    apply (counted_same_tables _ w); [reflexivity | exact Hc].
  - destruct (service.len record <? 2).
    + rewrite log_then. apply IH.
      apply (counted_same_tables _ w); [reflexivity | exact Hc].
    + cbv zeta.
      destruct (utility.ValidateNPI _) as [e |].
      * rewrite log_then. apply IH.
        apply (counted_same_tables _ w); [reflexivity | exact Hc].
      * destruct (service.batchSize ls <=? service.len _); [| apply IH; exact Hc].
        unfold bind at 1.
        destruct (service.processPharmaciesBatch ls _ w)
          as [[e |] w1] eqn:Hb; [unfold ret; discriminate |].
        apply IH.
        assert (Hne : (batch ++
                         [{| models.Pharmacy_ID := 0;
                             models.Pharmacy_NPI :=
                               strings.TrimSpace (nth 1 record EmptyString);
                             models.Pharmacy_Chain :=
                               strings.TrimSpace (nth 0 record EmptyString) |}])%list
                      <> []).
        { intros Hnil. apply app_eq_nil in Hnil.
          destruct Hnil; discriminate. }
        apply (counted_batch _ totalLoaded w1 Hne (proj1 Hc)).
        exact (processPharmaciesBatch_stocks _ _ _ _ Hne Hb).
Qed.

Lemma loadPharmaciesFromCSV_counted :
  forall fs ls filename w loaded w',
    service.loadPharmaciesFromCSV fs ls filename w = (loaded, None, w') ->
    counted loaded w'.
Proof.
  intros fs ls filename w loaded w'. unfold service.loadPharmaciesFromCSV.
  destruct (service.Open fs filename) as [file | e];
    [| unfold ret; discriminate].
  destruct (service.Read (service.NewReader file)) as [[record err] reader].
  destruct err as [e |]; [unfold ret; discriminate |].
  apply readLoop_counted. split; [lia | lia].
Qed.

Lemma loadFiles_counted :
  forall fs ls files totalLoaded w n w',
    counted totalLoaded w ->
    service.loadFiles fs ls files totalLoaded w = (n, w') ->
    counted n w'.
Proof.
  intros fs ls files.
  induction files as [| file files IH]; intros totalLoaded w n w' Hc;
    cbn [service.loadFiles].
  { unfold ret. intros Heq. injection Heq as <- <-. exact Hc. }
  unfold bind at 1.
  pose proof (keeps_stocked_loadPharmaciesFromCSV fs ls file w) as Hk.
  destruct (service.loadPharmaciesFromCSV fs ls file w)
    as [[loaded err] w1] eqn:Hrun.
  cbn [snd] in Hk. destruct err as [e |].
  - rewrite log_then. apply IH.
    apply (counted_same_tables _ w1); [reflexivity |].
    split; [exact (proj1 Hc) |]. intros Hpos. apply Hk.
    exact (proj2 Hc Hpos).
  - apply IH. apply loadPharmaciesFromCSV_counted in Hrun.
    destruct Hc as [Hn Hst]. destruct Hrun as [Hl Hst1].
    split; [lia |]. intros Hpos.
    destruct (Z.eq_dec loaded 0) as [-> | Hnz].
    + apply Hk, Hst. lia.
    + apply Hst1. lia.
Qed.

Section Missing.

Variable Join : string -> string -> string.
Variable Base : string -> string.
Variable UnmarshalClaims : string -> list models.Claim + string.
Variable UnmarshalReversals : string -> list models.Reversal + string.
Variable arrival : list string -> list string.
Variable fs : service.FS.

Lemma LoadPharmaciesFromData_left_empty :
  forall ls dataDir files w w1 err w',
    pharmacies_already_loaded w = (false, w1) ->
    service.IsNotExist fs (Join dataDir "pharmacies") = false ->
    service.Glob fs (Join (Join dataDir "pharmacies") "*.csv")
    = (files, None) ->
    files <> [] ->
    service.LoadPharmaciesFromData Join fs ls dataDir w = (err, w') ->
    pharmacies (tables w') = [] ->
    err = Some "no pharmacies loaded from data directory".
Proof.
  intros ls dataDir files w w1 err w' Hw Hdir Hglob Hne.
  unfold service.LoadPharmaciesFromData. fold pharmacies_already_loaded.
  unfold bind at 1. rewrite Hw, Hdir, Hglob.
  destruct files as [| f files']; [congruence |].
  replace (service.len (f :: files') =? 0) with false
    by (unfold service.len; cbn; lia).
  unfold bind at 1.
  destruct (service.loadFiles fs ls (f :: files') 0 w1) as [n w2] eqn:Hrun.
  apply loadFiles_counted in Hrun; [| split; lia].
  destruct (n =? 0) eqn:Hzero.
  - unfold ret. intros Heq _. injection Heq as <- _. reflexivity.
  - apply Z.eqb_neq in Hzero. rewrite log_then. unfold ret.
    intros Heq Hempty. injection Heq as _ <-.
    destruct Hrun as [Hn Hst]. exfalso. apply Hst; [lia |].
    exact Hempty.
Qed.

(** C8, as the code has it.  When the pharmacy load is not skipped (the
    table is empty, or its count query failed), [LoadPharmaciesFromData]
    returns an error if the pharmacies directory does not exist, if no
    CSV file matches, and if the pharmacies table holds no row after the
    load: the table was empty and no record of the files ended up
    stored.  [LoadClaimsFromData] and [LoadReversalsFromData] return
    nil whenever the glob over their directory yields no file. *)
Theorem missing_data_is_fatal_for_pharmacies_only :
  forall (ls : service.LoaderService) (dataDir : string) (w : World),
    let pharmaciesDir := Join dataDir "pharmacies" in
    let w1 := snd (pharmacies_already_loaded w) in
    (pharmacies (tables w) = [] \/ next_fault w <> None ->
     (service.IsNotExist fs pharmaciesDir = true ->
      service.LoadPharmaciesFromData Join fs ls dataDir w
      = (Some ("pharmacies directory not found: " ++ pharmaciesDir), w1))
     /\ (service.IsNotExist fs pharmaciesDir = false ->
         forall files,
           service.Glob fs (Join pharmaciesDir "*.csv") = (files, None) ->
           (files = [] ->
            service.LoadPharmaciesFromData Join fs ls dataDir w
            = (Some ("no pharmacy CSV files found in " ++ pharmaciesDir),
               w1))
           /\ (files <> [] ->
               pharmacies
                 (tables (snd (service.LoadPharmaciesFromData Join fs ls
                                 dataDir w))) = [] ->
               fst (service.LoadPharmaciesFromData Join fs ls dataDir w)
               = Some "no pharmacies loaded from data directory")))
    /\ (service.Glob fs (Join (Join dataDir "claims") "*.json") = ([], None) ->
        fst (service.LoadClaimsFromData Join Base UnmarshalClaims arrival
               fs ls dataDir w) = None)
    /\ (service.Glob fs (Join (Join dataDir "reverts") "*.json") = ([], None) ->
        fst (service.LoadReversalsFromData Join Base UnmarshalReversals
               arrival fs ls dataDir w) = None).
Proof.
  intros ls dataDir w pharmaciesDir w1. split; [| split].
  - intros Hrun.
    assert (Hskip : fst (pharmacies_already_loaded w) = false).
    { apply alreadyLoaded_not_skipped.
      destruct Hrun as [Hempty | Hfault]; [left | right; exact Hfault].
      rewrite Hempty. cbn. lia. }
    assert (Hw : pharmacies_already_loaded w = (false, w1)).
    { subst w1. rewrite <- Hskip. apply surjective_pairing. }
    split.
    + intros Hdir.
      unfold service.LoadPharmaciesFromData. fold pharmacies_already_loaded.
      fold pharmaciesDir. unfold bind at 1. rewrite Hw, Hdir. reflexivity.
    + intros Hdir files Hglob. split.
      * intros ->.
        unfold service.LoadPharmaciesFromData.
        fold pharmacies_already_loaded. fold pharmaciesDir.
        unfold bind at 1. rewrite Hw, Hdir, Hglob. reflexivity.
      * intros Hne Hempty.
        destruct (service.LoadPharmaciesFromData Join fs ls dataDir w)
          as [err w'] eqn:Hload.
        exact (LoadPharmaciesFromData_left_empty ls dataDir files w w1
                 err w' Hw Hdir Hglob Hne Hload Hempty).
  - intros Hglob.
    unfold service.LoadClaimsFromData, service.loadDataFromFiles.
    unfold bind at 1.
    destruct (service.alreadyLoaded _ _ _ _ w) as [[|] w2];
      [reflexivity |].
    rewrite Hglob. reflexivity.
  - intros Hglob.
    unfold service.LoadReversalsFromData, service.loadDataFromFiles.
    unfold bind at 1.
    destruct (service.alreadyLoaded _ _ _ _ w) as [[|] w2];
      [reflexivity |].
    rewrite Hglob. reflexivity.
Qed.

End Missing.

(** The pharmacy load against the empty database with no directory, with
    an empty directory and with a file of no row; the claim and reversal
    loads with no directory. *)
Lemma missing_data_witness :
  (fst (service.LoadPharmaciesFromData sample_loader.Join
          sample_loader.no_data sample_loader.loader "./data"
          sample.empty_world)
   = Some "pharmacies directory not found: data/pharmacies"
   /\ fst (service.LoadPharmaciesFromData sample_loader.Join
             sample_loader.no_csv sample_loader.loader "./data"
             sample.empty_world)
      = Some "no pharmacy CSV files found in data/pharmacies"
   /\ fst (service.LoadPharmaciesFromData sample_loader.Join
             sample_loader.header_only sample_loader.loader "./data"
             sample.empty_world)
      = Some "no pharmacies loaded from data directory")
  /\ fst (service.LoadClaimsFromData sample_loader.Join sample_loader.Base
            sample_loader.UnmarshalClaims sample_loader.arrival
            sample_loader.no_data sample_loader.loader "./data"
            sample.empty_world) = None
  /\ fst (service.LoadReversalsFromData sample_loader.Join sample_loader.Base
            sample_loader.UnmarshalReversals sample_loader.arrival
            sample_loader.no_data sample_loader.loader "./data"
            sample.empty_world) = None.
Proof.
  pose proof (fun fs =>
                missing_data_is_fatal_for_pharmacies_only
                  sample_loader.Join sample_loader.Base
                  sample_loader.UnmarshalClaims
                  sample_loader.UnmarshalReversals sample_loader.arrival
                  fs sample_loader.loader "./data" sample.empty_world)
    as Hall.
  split; [split; [| split] | split].
  - destruct (Hall sample_loader.no_data) as (Hp & _).
    rewrite (proj1 (Hp (or_introl eq_refl)) eq_refl). reflexivity.
  - destruct (Hall sample_loader.no_csv) as (Hp & _).
    rewrite (proj1 (proj2 (Hp (or_introl eq_refl)) eq_refl [] eq_refl)
               eq_refl).
    reflexivity.
  - destruct (Hall sample_loader.header_only) as (Hp & _).
    apply (proj2 (proj2 (Hp (or_introl eq_refl)) eq_refl
                    ["data/pharmacies/pharmacies.csv"] eq_refl)).
    + discriminate.
    + vm_compute. reflexivity.
  - destruct (Hall sample_loader.no_data) as (_ & Hc & _).
    apply Hc. reflexivity.
  - destruct (Hall sample_loader.no_data) as (_ & _ & Hr).
    apply Hr. reflexivity.
Defined.

(** When the count query fails on a table that holds rows, the load is
    not skipped, and it returns nil although no record is added: the
    row of the file is met by the stored one, passed over by
    [ON CONFLICT DO NOTHING], and counted. *)
Lemma LoadPharmaciesFromData_nil_without_new_row :
  let w := with_db_faults [Some "driver: bad connection"]
             (with_tables {| pharmacies := [sample_loader.saint];
                             claims := []; reversals := [] |}
                sample.empty_world) in
  let run := service.LoadPharmaciesFromData sample_loader.Join
               sample_loader.one_csv sample_loader.loader "./data" w in
  fst run = None /\ tables (snd run) = tables w.
Proof. vm_compute. split; reflexivity. Qed.
